(** * ToolStack Invoice-It: the data layer of [src/App.jsx]

    A shallow embedding of the JavaScript functions that build and update the
    application state ([toNumber], [calcTotals], [normalizeData], [importJSON],
    [exportCSV], [createInvoice], [duplicateInvoice], [upsertInvoice],
    [deleteClient]) together with the fragment of the language they run on:
    dynamically typed values, property reads that throw on [null] and
    [undefined], object spread, string/number conversions.

    Conventions of the model

    - A JavaScript number is an IEEE-754 double.  Here a finite number is an
      exact decimal [m * 10^e]; rounding, overflow and the sign of zero are
      not represented.  [NaN] and the two infinities are.
    - A string is a [string] of 8-bit characters.
    - An object is an association list of own enumerable properties in
      insertion order (the engine's reordering of integer-like keys is not
      represented); an array is its list of elements plus the named
      properties assigned to it.
    - Object identity is not represented, values are trees.  The one place
      where the source writes into an object it was handed ([normalizeData])
      is modelled with explicit state passing.
    - The system clock, the random identifiers, the [Date] arithmetic, the
      locale's collation and [JSON.parse] are parameters of the development. *)

From Stdlib Require Import ZArith NArith String Ascii List Bool Lia.
From Stdlib Require Import DecimalString DecimalN DecimalPos Sorted Permutation.
From Stdlib Require Import Orders OrdersEx.
Import ListNotations.

Local Open Scope string_scope.
Local Open Scope Z_scope.

(* ================================================================== *)
(** * Numbers *)
(* ================================================================== *)

Module Num.

(** [Fin m e] is [m * 10^e]. *)
Inductive num : Type :=
| Fin (m e : Z)
| NaN
| PInf
| NInf.

(** Removal of the trailing decimal zeros of a mantissa. *)
Fixpoint strip (fuel : nat) (m e : Z) : Z * Z :=
  match fuel with
  | O => (m, e)
  | S f => if m mod 10 =? 0 then strip f (m / 10) (e + 1) else (m, e)
  end.

Definition canon (m e : Z) : Z * Z :=
  if m =? 0 then (0, 0) else strip (S (Z.to_nat (Z.log2 (Z.abs m)))) m e.

(** The canonical representative of [m * 10^e]. *)
Definition mk (m e : Z) : num := let (m', e') := canon m e in Fin m' e'.

Definition canonical (x : num) : Prop :=
  match x with
  | Fin m e => (m = 0 -> e = 0) /\ (m <> 0 -> m mod 10 <> 0)
  | _ => True
  end.

Definition of_Z (z : Z) : num := mk z 0.

Definition zero : num := Fin 0 0.
Definition one : num := Fin 1 0.

(** [Number.isFinite] on a number. *)
Definition is_finite (x : num) : bool :=
  match x with Fin _ _ => true | _ => false end.

Definition is_nan (x : num) : bool :=
  match x with NaN => true | _ => false end.

(** Sign of a number: [-1], [0] or [1] ([NaN] has none). *)
Definition sgn (x : num) : Z :=
  match x with
  | Fin m _ => Z.sgn m
  | PInf => 1
  | NInf => -1
  | NaN => 0
  end.

(** Two finite numbers brought to a common exponent. *)
Definition align (m1 e1 m2 e2 : Z) : Z * Z * Z :=
  let e := Z.min e1 e2 in
  (m1 * 10 ^ (e1 - e), m2 * 10 ^ (e2 - e), e).

Definition add (x y : num) : num :=
  match x, y with
  | NaN, _ | _, NaN => NaN
  | PInf, NInf | NInf, PInf => NaN
  | PInf, _ | _, PInf => PInf
  | NInf, _ | _, NInf => NInf
  | Fin m1 e1, Fin m2 e2 =>
      let '(a, b, e) := align m1 e1 m2 e2 in mk (a + b) e
  end.

Definition mul (x y : num) : num :=
  match x, y with
  | NaN, _ | _, NaN => NaN
  | Fin m1 e1, Fin m2 e2 => mk (m1 * m2) (e1 + e2)
  | _, _ =>
      match sgn x * sgn y with
      | 0 => NaN
      | Zpos _ => PInf
      | Zneg _ => NInf
      end
  end.

(** [x / 100], the only division of the source. *)
Definition div100 (x : num) : num :=
  match x with
  | Fin m e => mk m (e - 2)
  | other => other
  end.

(** [x <= y] on numbers; false as soon as one side is [NaN]. *)
Definition leb (x y : num) : bool :=
  match x, y with
  | NaN, _ | _, NaN => false
  | NInf, _ | _, PInf => true
  | PInf, _ | _, NInf => false
  | Fin m1 e1, Fin m2 e2 =>
      let '(a, b, _) := align m1 e1 m2 e2 in a <=? b
  end.

(** The operator [===] on two numbers. *)
Definition eqb (x y : num) : bool := leb x y && leb y x.

(** [Math.max(x, y)]. *)
Definition max (x y : num) : num :=
  match x, y with
  | NaN, _ | _, NaN => NaN
  | _, _ => if leb x y then y else x
  end.

Definition is_zero (x : num) : bool :=
  match x with Fin m _ => m =? 0 | _ => false end.

End Num.
Export Num.

(* ================================================================== *)
(** * Strings *)
(* ================================================================== *)

Module Str.

Definition is_digit (c : ascii) : bool :=
  let n := nat_of_ascii c in (48 <=? n)%nat && (n <=? 57)%nat.

(** White space of the ASCII range (tab, line feed, vertical tab, form
    feed, carriage return, space). *)
Definition is_ws (c : ascii) : bool :=
  let n := nat_of_ascii c in ((9 <=? n)%nat && (n <=? 13)%nat) || (n =? 32)%nat.

Fixpoint trim_left (s : string) : string :=
  match s with
  | String c r => if is_ws c then trim_left r else s
  | EmptyString => EmptyString
  end.

Fixpoint trim_right (s : string) : string :=
  match s with
  | String c r =>
      let r' := trim_right r in
      if is_ws c && (r' =? "")%string then "" else String c r'
  | EmptyString => EmptyString
  end.

(** [String.prototype.trim]. *)
Definition trim (s : string) : string := trim_right (trim_left s).

Fixpoint zeros (n : nat) : string :=
  match n with O => "" | S k => String "0" (zeros k) end.

(** [padStart] with the pad character 0. *)
Definition padStart0 (n : nat) (s : string) : string :=
  zeros (n - String.length s) ++ s.

(** [replace] of a comma by a period: the first comma only. *)
Fixpoint replace_comma (s : string) : string :=
  match s with
  | String c r => if Ascii.eqb c "," then String "." r else String c (replace_comma r)
  | EmptyString => EmptyString
  end.

(** The double quote character. *)
Definition dquote : ascii := "034"%char.

(** Every double quote doubled: the global replace of [esc] in
    [exportCSV]. *)
Fixpoint double_quotes (s : string) : string :=
  match s with
  | String c r =>
      if Ascii.eqb c dquote then String dquote (String dquote (double_quotes r))
      else String c (double_quotes r)
  | EmptyString => EmptyString
  end.

Fixpoint has_char (p : ascii -> bool) (s : string) : bool :=
  match s with
  | String c r => p c || has_char p r
  | EmptyString => false
  end.

Fixpoint join (sep : string) (l : list string) : string :=
  match l with
  | [] => ""
  | [x] => x
  | x :: r => x ++ sep ++ join sep r
  end.

(** The characters of a string, each as a string of length one. *)
Fixpoint chars (s : string) : list string :=
  match s with
  | String c r => String c "" :: chars r
  | EmptyString => []
  end.

(** The longest prefix of decimal digits, and what follows it. *)
Fixpoint span_digits (s : string) : string * string :=
  match s with
  | String c r =>
      if is_digit c then let (d, t) := span_digits r in (String c d, t)
      else ("", s)
  | EmptyString => ("", "")
  end.

(** Value of a run of digits in base [b], most significant first. *)
Definition digit_val (c : ascii) : N :=
  let n := N_of_ascii c in
  if (48 <=? n)%N && (n <=? 57)%N then n - 48
  else if (97 <=? n)%N && (n <=? 102)%N then n - 87
  else if (65 <=? n)%N && (n <=? 70)%N then n - 55
  else 36.

Fixpoint digits_val (b : N) (s : string) (acc : N) : N :=
  match s with
  | String c r => digits_val b r (acc * b + digit_val c)%N
  | EmptyString => acc
  end.

Definition all_digits (b : N) (s : string) : bool :=
  negb (has_char (fun c => negb (digit_val c <? b)%N) s).

(** Decimal digits of a natural number. *)
Definition digits (n : N) : string := NilEmpty.string_of_uint (N.to_uint n).

End Str.
Export Str.

(* ================================================================== *)
(** * Conversions between numbers and strings *)
(* ================================================================== *)

Module Conv.

(** Digits [s] of a positive mantissa and its exponent [e], laid out as
    [Number::toString] does: plain digits up to 21 integer digits, a
    fraction down to [1e-6], the exponent notation otherwise. *)
Definition layout (s : string) (e : Z) : string :=
  let k := Z.of_nat (String.length s) in
  let n := k + e in
  if (k <=? n) && (n <=? 21) then s ++ zeros (Z.to_nat (n - k))
  else if (0 <? n) && (n <=? 21) then
    substring 0 (Z.to_nat n) s ++ "." ++ substring (Z.to_nat n) (Z.to_nat (k - n)) s
  else if (-6 <? n) && (n <=? 0) then "0." ++ zeros (Z.to_nat (- n)) ++ s
  else
    let ex := n - 1 in
    let es := (if ex <? 0 then "-" else "+") ++ digits (Z.abs_N ex) in
    match s with
    | String c EmptyString => String c ("e" ++ es)
    | String c r => String c ("." ++ r ++ "e" ++ es)
    | EmptyString => EmptyString
    end.

(** [String(x)] for a number [x]. *)
Definition number_to_string (x : num) : string :=
  match x with
  | NaN => "NaN"
  | PInf => "Infinity"
  | NInf => "-Infinity"
  | Fin m e =>
      let (m', e') := canon m e in
      if m' =? 0 then "0"
      else (if m' <? 0 then "-" else "") ++ layout (digits (Z.abs_N m')) e'
  end.

Definition split_sign (s : string) : bool * string :=
  match s with
  | String "+" r => (false, r)
  | String "-" r => (true, r)
  | _ => (false, s)
  end.

(** The exponent part of a decimal literal, which must end the string. *)
Definition exponent_part (s : string) : option Z :=
  match s with
  | EmptyString => Some 0
  | String c r =>
      if Ascii.eqb c "e" || Ascii.eqb c "E" then
        let (neg, r') := split_sign r in
        let (ds, rest) := span_digits r' in
        if (ds =? "")%string || negb (rest =? "")%string then None
        else
          let v := Z.of_N (digits_val 10 ds 0) in
          Some (if neg then - v else v)
      else None
  end.

(** A signed decimal literal or a signed [Infinity]. *)
Definition decimal_literal (t : string) : num :=
  let (neg, u) := split_sign t in
  if (u =? "Infinity")%string then (if neg then NInf else PInf)
  else
    let (ip, r1) := span_digits u in
    let (fp, r2) :=
      match r1 with
      | String "." r => span_digits r
      | _ => ("", r1)
      end in
    if (ip =? "")%string && (fp =? "")%string then NaN
    else
      match exponent_part r2 with
      | None => NaN
      | Some ex =>
          let m := Z.of_N (digits_val 10 (ip ++ fp) 0) in
          mk (if neg then - m else m) (ex - Z.of_nat (String.length fp))
      end.

(** An unsigned literal in base 16, 8 or 2, when the string starts with
    the prefix of one. *)
Definition radix_literal (t : string) : option num :=
  match t with
  | String "0" (String p r) =>
      let b : N :=
        (if Ascii.eqb p "x" || Ascii.eqb p "X" then 16
         else if Ascii.eqb p "o" || Ascii.eqb p "O" then 8
         else if Ascii.eqb p "b" || Ascii.eqb p "B" then 2
         else 0)%N in
      if (b =? 0)%N then None
      else if (r =? "")%string || negb (all_digits b r) then Some NaN
      else Some (of_Z (Z.of_N (digits_val b r 0)))
  | _ => None
  end.

(** [Number(s)] for a string [s]. *)
Definition string_to_number (s : string) : num :=
  let t := trim s in
  if (t =? "")%string then zero
  else
    match radix_literal t with
    | Some x => x
    | None => decimal_literal t
    end.

(** The nearest integer to [m * 10^e * 100] for [m >= 0], halves upwards. *)
Definition round_hundredths (m e : Z) : Z :=
  if -2 <=? e then m * 10 ^ (e + 2)
  else let d := 10 ^ (- e - 2) in (2 * m + d) / (2 * d).

(** [x.toFixed(2)]. *)
Definition toFixed2 (x : num) : string :=
  match x with
  | Fin m e =>
      let sign := if m <? 0 then "-" else "" in
      let a := Z.abs m in
      if leb (Fin (10 ^ 21) 0) (Fin a e) then sign ++ number_to_string (Fin a e)
      else
        let ds := padStart0 3 (digits (Z.to_N (round_hundredths a e))) in
        let k := (String.length ds - 2)%nat in
        sign ++ substring 0 k ds ++ "." ++ substring k 2 ds
  | other => number_to_string other
  end.

End Conv.
Export Conv.

(* ================================================================== *)
(** * Values *)
(* ================================================================== *)

(** A value of the language.  [VObj ps] is a plain object with own
    properties [ps]; [VArr es ps] is an array with elements [es] and named
    own properties [ps] (none for an array read from JSON). *)
#[warnings="-register-all"]
Inductive value : Type :=
| VUndef
| VNull
| VBool (b : bool)
| VNum (n : num)
| VStr (s : string)
| VArr (elems : list value) (own : list (string * value))
| VObj (own : list (string * value)).

Definition props : Type := list (string * value).

Inductive exn : Type := TypeError.

(** What evaluating an expression gives: a result, or an exception. *)
Inductive outcome (A : Type) : Type :=
| Ret (a : A)
| Throw (e : exn).
Arguments Ret {A} a.
Arguments Throw {A} e.

Definition obind {A B : Type} (o : outcome A) (k : A -> outcome B) : outcome B :=
  match o with
  | Ret a => k a
  | Throw e => Throw e
  end.

Declare Scope outcome_scope.
Delimit Scope outcome_scope with outcome.
Notation "'let*' x ':=' c 'in' k" := (obind c (fun x => k))
  (at level 10, x name, c at level 100, k at level 200) : outcome_scope.

(** ** Properties *)

Fixpoint lookup (k : string) (ps : props) : option value :=
  match ps with
  | [] => None
  | (k', v) :: r => if (k' =? k)%string then Some v else lookup k r
  end.

Definition has_key (k : string) (ps : props) : bool :=
  match lookup k ps with Some _ => true | None => false end.

(** [o.k = v] on the own properties of [o]: an existing key keeps its
    place, a new key goes last. *)
Fixpoint assign (k : string) (v : value) (ps : props) : props :=
  match ps with
  | [] => [(k, v)]
  | (k', v') :: r => if (k' =? k)%string then (k, v) :: r else (k', v') :: assign k v r
  end.

Definition field (k : string) (ps : props) : value :=
  match lookup k ps with Some v => v | None => VUndef end.

(** The read [v.k].  The property names the source reads are identifiers
    that no built-in prototype defines, so a read that finds no own
    property gives [undefined]; a read on [null] or [undefined] throws. *)
Definition get (v : value) (k : string) : outcome value :=
  match v with
  | VUndef | VNull => Throw TypeError
  | VObj ps | VArr _ ps => Ret (field k ps)
  | VBool _ | VNum _ | VStr _ => Ret VUndef
  end.

(** The optional read [v?.k]. *)
Definition get_opt (v : value) (k : string) : value :=
  match v with
  | VObj ps | VArr _ ps => field k ps
  | _ => VUndef
  end.

(** The write [o.k = v] on an object or array [o]. *)
Definition put (k : string) (v : value) (o : value) : value :=
  match o with
  | VObj ps => VObj (assign k v ps)
  | VArr es ps => VArr es (assign k v ps)
  | other => other
  end.

Definition index_key (i : nat) : string := digits (N.of_nat i).

Definition indexed (l : list value) : props :=
  combine (map index_key (seq 0 (List.length l))) l.

(** The own enumerable properties that a spread copies. *)
Definition own_props (v : value) : props :=
  match v with
  | VObj ps => ps
  | VArr es ps => (indexed es ++ ps)%list
  | VStr s => indexed (map VStr (chars s))
  | VUndef | VNull | VBool _ | VNum _ => []
  end.

(** [{...acc, ...v}] on property lists. *)
Definition spread (acc : props) (v : value) : props :=
  fold_left (fun a kv => assign (fst kv) (snd kv) a) (own_props v) acc.

(** ** Tests on values *)

Definition truthy (v : value) : bool :=
  match v with
  | VUndef | VNull => false
  | VBool b => b
  | VNum n => negb (is_zero n || is_nan n)
  | VStr s => negb (s =? "")%string
  | VArr _ _ | VObj _ => true
  end.

(** [a || b] *)
Definition or_else (a b : value) : value := if truthy a then a else b.

(** [a ?? b] *)
Definition nullish_else (a b : value) : value :=
  match a with VUndef | VNull => b | _ => a end.

(** [typeof v === "object"] *)
Definition typeof_object (v : value) : bool :=
  match v with VNull | VArr _ _ | VObj _ => true | _ => false end.

(** [typeof v === "string"] *)
Definition typeof_string (v : value) : bool :=
  match v with VStr _ => true | _ => false end.

Definition isArray (v : value) : bool :=
  match v with VArr _ _ => true | _ => false end.

Definition is_primitive (v : value) : bool :=
  match v with VArr _ _ | VObj _ => false | _ => true end.

(** The operator [===].  Two objects are equal when they are the same
    object, which a tree does not record: the model answers [false] for
    them, and the statements that compare identifiers say when they rely
    on it. *)
Definition strict_eq (a b : value) : bool :=
  match a, b with
  | VUndef, VUndef | VNull, VNull => true
  | VBool x, VBool y => Bool.eqb x y
  | VNum x, VNum y => Num.eqb x y
  | VStr x, VStr y => (x =? y)%string
  | _, _ => false
  end.

(** The comparison of [Array.prototype.includes] and of [Map] keys, which
    differs from [===] on [NaN] only. *)
Definition same_value_zero (a b : value) : bool :=
  match a, b with
  | VNum NaN, VNum NaN => true
  | _, _ => strict_eq a b
  end.

(** ** Conversion to a string *)

(** [String(v)].  An object with an own [toString] property, which here
    holds data and cannot be called, has no primitive value. *)
Fixpoint js_String (v : value) : outcome string :=
  match v with
  | VUndef => Ret "undefined"
  | VNull => Ret "null"
  | VBool true => Ret "true"
  | VBool false => Ret "false"
  | VNum n => Ret (number_to_string n)
  | VStr s => Ret s
  | VObj ps => if has_key "toString" ps then Throw TypeError else Ret "[object Object]"
  | VArr es ps =>
      if has_key "toString" ps then Throw TypeError
      else if has_key "join" ps then Ret "[object Array]"
      else
        (fix join_elems (l : list value) : outcome string :=
           match l with
           | [] => Ret ""
           | x :: r =>
               obind (match x with VUndef | VNull => Ret "" | _ => js_String x end)
                 (fun sx =>
                    match r with
                    | [] => Ret sx
                    | _ :: _ => obind (join_elems r) (fun sr => Ret (sx ++ "," ++ sr))
                    end)
           end) es
  end.

(* ================================================================== *)
(** * The helpers of the source *)
(* ================================================================== *)

Local Open Scope outcome_scope.

(** [toNumber]: lines 30-33. *)
Definition toNumber (v : value) : outcome num :=
  let* s := js_String (nullish_else v (VStr "")) in
  let n := string_to_number (replace_comma s) in
  Ret (if is_finite n then n else zero).

Definition STATUS : list value :=
  [VStr "Draft"; VStr "Sent"; VStr "Paid"; VStr "Overdue"].

Definition includes (l : list value) (v : value) : bool :=
  existsb (same_value_zero v) l.

(** The items of an invoice as [calcTotals] takes them. *)
Definition items_of (items : value) : list value :=
  match items with VArr es _ => es | _ => [] end.

(** The callback of the [reduce] of [calcTotals]. *)
Definition add_line (sum : num) (it : value) : outcome num :=
  let* q := get it "qty" in
  let* qty := toNumber q in
  let* p := get it "unitPrice" in
  let* price := toNumber p in
  Ret (add sum (mul qty price)).

Fixpoint reduce_lines (items : list value) (sum : num) : outcome num :=
  match items with
  | [] => Ret sum
  | it :: r => let* s := add_line sum it in reduce_lines r s
  end.

Record totals : Type := { net : num; vatRate : num; vat : num; gross : num }.

(** [calcTotals]: lines 82-89. *)
Definition calcTotals (inv : value) : outcome totals :=
  let* its := get inv "items" in
  let items := items_of its in
  let* net := reduce_lines items zero in
  let* r := get inv "vatRate" in
  let* vatRate := toNumber r in
  let vat := mul net (div100 vatRate) in
  let gross := add net vat in
  Ret {| net := net; vatRate := vatRate; vat := vat; gross := gross |}.

(* ================================================================== *)
(** * Mutable state and exceptions *)
(* ================================================================== *)

(** The state [normalizeData] runs in: the object that its local constant
    [d] is bound to, which the function writes into, and the number of
    identifiers [uid] has handed out. *)
Record world : Type := { target : value; issued : nat }.

Definition M (A : Type) : Type := world -> world * outcome A.

Definition ret {A : Type} (a : A) : M A := fun w => (w, Ret a).

Definition bind {A B : Type} (c : M A) (k : A -> M B) : M B :=
  fun w =>
    match c w with
    | (w', Ret a) => k a w'
    | (w', Throw e) => (w', Throw e)
    end.

Definition lift {A : Type} (o : outcome A) : M A := fun w => (w, o).

Declare Scope monad_scope.
Delimit Scope monad_scope with monad.
Notation "x <- c ;; k" := (bind c (fun x => k))
  (at level 61, c at next level, right associativity) : monad_scope.
Notation "c ;;; k" := (bind c (fun _ => k))
  (at level 61, right associativity) : monad_scope.

Local Open Scope monad_scope.

Fixpoint mapM {A B : Type} (f : A -> M B) (l : list A) : M (list B) :=
  match l with
  | [] => ret []
  | x :: r => y <- f x ;; ys <- mapM f r ;; ret (y :: ys)
  end.

(** [d.k] *)
Definition read (k : string) : M value := fun w => (w, get (target w) k).

(** [d.k = v] *)
Definition write (k : string) (v : value) : M unit :=
  fun w => ({| target := put k v (target w); issued := issued w |}, Ret tt).

Definition current : M value := fun w => (w, Ret (target w)).

(* ================================================================== *)
(** * normalizeData *)
(* ================================================================== *)

Definition base_settings : props :=
  [("currency", VStr "EUR");
   ("defaultVatRate", VNum (Fin 19 0));
   ("invoicePrefix", VStr "INV");
   ("nextInvoiceNumber", VNum (Fin 1 0));
   ("defaultDueDays", VNum (Fin 14 0))].

Definition base_profile : props :=
  [("businessName", VStr ""); ("address", VStr ""); ("email", VStr "");
   ("phone", VStr ""); ("taxId", VStr ""); ("vatId", VStr ""); ("bank", VStr "");
   ("iban", VStr ""); ("bic", VStr ""); ("footerNotes", VStr "")].

Definition base : value :=
  VObj [("settings", VObj base_settings);
        ("profile", VObj base_profile);
        ("clients", VArr [] []);
        ("invoices", VArr [] [])].

Definition elems (v : value) : list value :=
  match v with VArr es _ => es | _ => [] end.

Section Environment.

(** [todayISO()]: the calendar date of the system clock. *)
Variable todayISO : string.

(** The [n]-th identifier that [uid()] returns in a session. *)
Variable uid_of : nat -> string.

(** The [try] block of [addDaysISO]: the date [iso] moved by [days] days as
    [Date] computes it, or [None] when the block throws. *)
Variable date_plus : value -> value -> option string.

(** [uid]: lines 12-19. *)
Definition uid : M value :=
  fun w => ({| target := target w; issued := S (issued w) |}, Ret (VStr (uid_of (issued w)))).

(** [addDaysISO]: lines 37-45. *)
Definition addDaysISO (iso days : value) : value :=
  match date_plus iso days with
  | Some s => VStr s
  | None => iso
  end.

Definition blank_item (id : value) : value :=
  VObj [("id", id); ("desc", VStr ""); ("qty", VNum (Fin 1 0));
        ("unit", VStr ""); ("unitPrice", VNum (Fin 0 0))].

(** The callback of [inv.items.map]: lines 132-138.  The source calls
    [toNumber] twice on the same value; it has no effect, one call stands
    for both. *)
Definition normalize_item (it : value) : M value :=
  id0 <- lift (get it "id") ;;
  id <- (if truthy id0 then ret id0 else uid) ;;
  desc <- lift (get it "desc") ;;
  q <- lift (get it "qty") ;;
  qty <- lift (toNumber q) ;;
  unit <- lift (get it "unit") ;;
  p <- lift (get it "unitPrice") ;;
  price <- lift (toNumber p) ;;
  ret (VObj [("id", id);
             ("desc", or_else desc (VStr ""));
             ("qty", VNum (if is_finite qty then qty else Fin 1 0));
             ("unit", or_else unit (VStr ""));
             ("unitPrice", VNum (if is_finite price then price else Fin 0 0))]).

(** The callback of [d.invoices.map]: lines 123-141. *)
Definition normalize_invoice (inv : value) : M value :=
  id0 <- lift (get inv "id") ;;
  id <- (if truthy id0 then ret id0 else uid) ;;
  number <- lift (get inv "invoiceNumber") ;;
  issue <- lift (get inv "issueDate") ;;
  due0 <- lift (get inv "dueDate") ;;
  due <- (if truthy due0 then ret due0
          else
            s <- read "settings" ;;
            days <- lift (get s "defaultDueDays") ;;
            ret (addDaysISO (or_else issue (VStr todayISO)) days)) ;;
  client <- lift (get inv "clientId") ;;
  status <- lift (get inv "status") ;;
  r <- lift (get inv "vatRate") ;;
  rate <- lift (toNumber r) ;;
  vatRate <- (if is_finite rate then ret (VNum rate)
              else s <- read "settings" ;; lift (get s "defaultVatRate")) ;;
  its <- lift (get inv "items") ;;
  items <- (if isArray its then mapM normalize_item (elems its)
            else id1 <- uid ;; ret [blank_item id1]) ;;
  notes <- lift (get inv "notes") ;;
  ret (VObj [("id", id);
             ("invoiceNumber", or_else number (VStr ""));
             ("issueDate", or_else issue (VStr todayISO));
             ("dueDate", due);
             ("clientId", or_else client (VStr ""));
             ("status", if includes STATUS status then status else VStr "Draft");
             ("vatRate", vatRate);
             ("items", VArr items []);
             ("notes", if typeof_string notes then notes else VStr "")]).

(** The callback of [d.clients.map]: lines 143-151. *)
Definition normalize_client (c : value) : M value :=
  id0 <- lift (get c "id") ;;
  id <- (if truthy id0 then ret id0 else uid) ;;
  name <- lift (get c "name") ;;
  address <- lift (get c "address") ;;
  email <- lift (get c "email") ;;
  phone <- lift (get c "phone") ;;
  contact <- lift (get c "contact") ;;
  notes <- lift (get c "notes") ;;
  ret (VObj [("id", id);
             ("name", or_else name (VStr ""));
             ("address", or_else address (VStr ""));
             ("email", or_else email (VStr ""));
             ("phone", or_else phone (VStr ""));
             ("contact", or_else contact (VStr ""));
             ("notes", or_else notes (VStr ""))]).

(** The statements of [normalizeData] after the choice of [d]:
    lines 117-153. *)
Definition normalizeData_body : M value :=
  s <- read "settings" ;;
  write "settings" (VObj (spread (spread [] (VObj base_settings)) (or_else s (VObj [])))) ;;;
  p <- read "profile" ;;
  write "profile" (VObj (spread (spread [] (VObj base_profile)) (or_else p (VObj [])))) ;;;
  c <- read "clients" ;;
  write "clients" (if isArray c then c else VArr [] []) ;;;
  i <- read "invoices" ;;
  write "invoices" (if isArray i then i else VArr [] []) ;;;
  i' <- read "invoices" ;;
  invoices <- mapM normalize_invoice (elems i') ;;
  write "invoices" (VArr invoices []) ;;;
  c' <- read "clients" ;;
  clients <- mapM normalize_client (elems c') ;;
  write "clients" (VArr clients []) ;;;
  current.

(** Line 116: [d] is [raw] itself when [raw] is an object. *)
Definition is_object (raw : value) : bool := truthy raw && typeof_object raw.

(** [normalizeData]: lines 91-154, called when [n] identifiers have been
    handed out.  The final [target] is the object [d]. *)
Definition normalizeData (raw : value) (n : nat) : world * outcome value :=
  let d := if is_object raw then raw else base in
  normalizeData_body {| target := d; issued := n |}.

(** What the caller's [raw] holds once the call is over: the object
    written into when [raw] is one, [raw] itself otherwise. *)
Definition raw_after (raw : value) (n : nat) : value :=
  if is_object raw then target (fst (normalizeData raw n)) else raw.

(** The value [normalizeData] returns. *)
Definition normalize (raw : value) (n : nat) : outcome value :=
  snd (normalizeData raw n).

(* ================================================================== *)
(** * The component [InvoiceItApp] *)
(* ================================================================== *)

(** [JSON.parse]; [None] when it throws. *)
Variable JSON_parse : string -> option value.

(** [a.localeCompare(b)]: negative, zero or positive. *)
Variable localeCompare : string -> string -> Z.

(** The state of the component that the operations below read and write.
    [notices] records every call of [notify], the latest first; [uids]
    counts the identifiers handed out. *)
Record ui : Type := {
  app : value;
  activeInvoiceId : value;
  invoiceModalOpen : bool;
  notices : list string;
  uids : nat
}.

Definition notify (msg : string) (u : ui) : ui :=
  {| app := app u; activeInvoiceId := activeInvoiceId u;
     invoiceModalOpen := invoiceModalOpen u;
     notices := msg :: notices u; uids := uids u |}.

Definition setApp (a : value) (u : ui) : ui :=
  {| app := a; activeInvoiceId := activeInvoiceId u;
     invoiceModalOpen := invoiceModalOpen u;
     notices := notices u; uids := uids u |}.

Definition setActiveInvoiceId (i : value) (u : ui) : ui :=
  {| app := app u; activeInvoiceId := i;
     invoiceModalOpen := invoiceModalOpen u;
     notices := notices u; uids := uids u |}.

Definition setInvoiceModalOpen (b : bool) (u : ui) : ui :=
  {| app := app u; activeInvoiceId := activeInvoiceId u;
     invoiceModalOpen := b;
     notices := notices u; uids := uids u |}.

Definition setUids (n : nat) (u : ui) : ui :=
  {| app := app u; activeInvoiceId := activeInvoiceId u;
     invoiceModalOpen := invoiceModalOpen u;
     notices := notices u; uids := n |}.

(** [safeParse]: lines 21-28. *)
Definition safeParse (s : string) (fallback : value) : value :=
  match JSON_parse s with
  | Some v => nullish_else v fallback
  | None => fallback
  end.

(** The condition of line 251. *)
Definition import_rejects (parsed : value) : outcome bool :=
  if negb (truthy parsed) then Ret true
  else
    let* c := get parsed "clients" in
    let* i := get parsed "invoices" in
    let* s := get parsed "settings" in
    Ret (negb (truthy c) && negb (truthy i) && negb (truthy s)).

(** [importJSON]: lines 247-258, on a file whose text is [file]. *)
Definition importJSON (file : option string) (u : ui) : ui * outcome unit :=
  match file with
  | None => (u, Ret tt)
  | Some text =>
      let parsed := safeParse text VNull in
      match import_rejects parsed with
      | Throw e => (u, Throw e)
      | Ret true => (notify "Invalid JSON" u, Ret tt)
      | Ret false =>
          match normalizeData parsed (uids u) with
          | (w, Ret d) =>
              (notify "Imported"
                 (setActiveInvoiceId VNull (setApp d (setUids (issued w) u))), Ret tt)
          | (w, Throw e) => (setUids (issued w) u, Throw e)
          end
      end
  end.

(** The elements of an array on which a method such as [map], [filter],
    [find] or [slice] is called; any other receiver has no such method. *)
Definition as_array (v : value) : outcome (list value) :=
  match v with
  | VArr es _ => Ret es
  | _ => Throw TypeError
  end.

(** The values that iterating [v] yields, in [for ... of] and in an array
    spread. *)
Definition iterate (v : value) : outcome (list value) :=
  match v with
  | VArr es _ => Ret es
  | VStr s => Ret (map VStr (chars s))
  | _ => Throw TypeError
  end.

Fixpoint omap {A B : Type} (f : A -> outcome B) (l : list A) : outcome (list B) :=
  match l with
  | [] => Ret []
  | x :: r => let* y := f x in let* ys := omap f r in Ret (y :: ys)
  end.

(** ** exportCSV *)

Definition header : list string :=
  ["invoiceNumber"; "issueDate"; "dueDate"; "client"; "status";
   "net"; "vatRate"; "vat"; "gross"; "currency"].

(** [Map.prototype.set] and [Map.prototype.get]. *)
Fixpoint map_set (k v : value) (m : list (value * value)) : list (value * value) :=
  match m with
  | [] => [(k, v)]
  | (k', v') :: r => if same_value_zero k' k then (k', v) :: r else (k', v') :: map_set k v r
  end.

Fixpoint map_get (k : value) (m : list (value * value)) : value :=
  match m with
  | [] => VUndef
  | (k', v) :: r => if same_value_zero k' k then v else map_get k r
  end.

Fixpoint fill_map (cs : list value) (m : list (value * value)) : outcome (list (value * value)) :=
  match cs with
  | [] => Ret m
  | c :: r => let* id := get c "id" in fill_map r (map_set id c m)
  end.

(** [clientsById]: lines 189-193. *)
Definition clientsById (a : value) : outcome (list (value * value)) :=
  let* cl := get a "clients" in
  let* cs := iterate cl in
  fill_map cs [].

(** [currency]: line 176. *)
Definition currency (a : value) : outcome value :=
  let* s := get a "settings" in
  let* c := get s "currency" in
  Ret (or_else c (VStr "EUR")).

(** The string the comparator of line 276 takes from an invoice. *)
Definition sort_key (inv : value) : outcome string :=
  let* d := get inv "issueDate" in
  js_String (or_else d (VStr "")).

(** [Array.prototype.sort] is stable; with the comparator of line 276,
    [x] stays in front of [y] when the key of [y] does not compare above
    the key of [x]. *)
Fixpoint insert_by_key (x : string * value) (l : list (string * value)) : list (string * value) :=
  match l with
  | [] => [x]
  | y :: r =>
      if localeCompare (fst y) (fst x) <=? 0 then x :: y :: r
      else y :: insert_by_key x r
  end.

Definition sort_by_key (l : list (string * value)) : list (string * value) :=
  fold_right insert_by_key [] l.

(** The array of line 292 for one invoice: lines 277-293. *)
Definition csv_row (by_id : list (value * value)) (cur : value) (inv : value)
  : outcome (list value) :=
  let* cid := get inv "clientId" in
  let client := map_get cid by_id in
  let* t := calcTotals inv in
  let* number := get inv "invoiceNumber" in
  let* issue := get inv "issueDate" in
  let* due := get inv "dueDate" in
  let* status := get inv "status" in
  Ret [or_else number (VStr "");
       or_else issue (VStr "");
       or_else due (VStr "");
       or_else (get_opt client "name") (VStr "");
       or_else status (VStr "");
       VStr (toFixed2 (net t));
       VStr (number_to_string (vatRate t));
       VStr (toFixed2 (vat t));
       VStr (toFixed2 (gross t));
       cur].

Definition newline : ascii := "010"%char.

Definition needs_quotes (s : string) : bool :=
  has_char (fun c => Ascii.eqb c dquote || Ascii.eqb c "," || Ascii.eqb c newline) s.

Definition quote (s : string) : string :=
  String dquote (double_quotes s ++ String dquote "").

(** [esc]: lines 295-298. *)
Definition esc (v : value) : outcome string :=
  let* s := js_String (nullish_else v (VStr "")) in
  Ret (if needs_quotes s then quote s else s).

Definition csv_line (r : list value) : outcome string :=
  let* cells := omap esc r in Ret (join "," cells).

(** The invoices in the order of the export: line 274-276. *)
Definition sorted_invoices (a : value) : outcome (list value) :=
  let* i := get a "invoices" in
  let* invs := as_array i in
  let* keys := omap sort_key invs in
  Ret (map snd (sort_by_key (combine keys invs))).

Definition csv_rows (a : value) : outcome (list (list value)) :=
  let* by_id := clientsById a in
  let* cur := currency a in
  let* invs := sorted_invoices a in
  omap (csv_row by_id cur) invs.

(** The text of the exported file: lines 260-301. *)
Definition csv_text (a : value) : outcome string :=
  let* rows := csv_rows a in
  let* lines := omap csv_line rows in
  Ret (join (String newline "") (join "," header :: lines)).


(** ** Invoices and clients *)

(** [String(n).padStart(4, "0")] after the prefix and a hyphen: lines 318
    and 321. *)
Definition invoice_number (settings : value) (n : num) : outcome string :=
  let* p := get settings "invoicePrefix" in
  let* ps := js_String (or_else p (VStr "INV")) in
  let prefix := if (trim ps =? "")%string then "INV" else trim ps in
  Ret (prefix ++ "-" ++ padStart0 4 (number_to_string n)).

(** [Math.max(1, toNumber(a.settings.nextInvoiceNumber))]: lines 317, 350. *)
Definition next_number (settings : value) : outcome num :=
  let* x := get settings "nextInvoiceNumber" in
  let* n := toNumber x in
  Ret (Num.max one n).

(** [addDaysISO(todayISO(), toNumber(a.settings.defaultDueDays) || 14)] *)
Definition default_due (settings : value) : outcome value :=
  let* x := get settings "defaultDueDays" in
  let* n := toNumber x in
  Ret (addDaysISO (VStr todayISO) (or_else (VNum n) (VNum (Fin 14 0)))).

(** [[inv, ...(a.invoices || [])]] *)
Definition cons_invoices (inv : value) (a : value) : outcome value :=
  let* i := get a "invoices" in
  let* rest := iterate (or_else i (VArr [] [])) in
  Ret (VArr (inv :: rest) []).

(** The object of lines 338-342 and 365-369. *)
Definition with_new_invoice (a settings : value) (n : num) (invoices : value) : value :=
  VObj (assign "invoices" invoices
          (assign "settings"
             (VObj (assign "nextInvoiceNumber" (VNum (add n one)) (spread [] settings)))
             (spread [] a))).

(** [createInvoice]: lines 315-344. *)
Definition createInvoice (u : ui) : outcome ui :=
  let a := app u in
  let* settings := get a "settings" in
  let* n := next_number settings in
  let* invoiceNumber := invoice_number settings n in
  let* dueDate := default_due settings in
  let id := VStr (uid_of (uids u)) in
  let* r := get settings "defaultVatRate" in
  let* rate := toNumber r in
  let inv :=
    VObj [("id", id);
          ("invoiceNumber", VStr invoiceNumber);
          ("issueDate", VStr todayISO);
          ("dueDate", dueDate);
          ("clientId", VStr "");
          ("status", VStr "Draft");
          ("vatRate", VNum rate);
          ("items", VArr [blank_item (VStr (uid_of (S (uids u))))] []);
          ("notes", VStr "")] in
  let* invoices := cons_invoices inv a in
  Ret (setApp (with_new_invoice a settings n invoices)
         (setInvoiceModalOpen true
            (setActiveInvoiceId id (setUids (S (S (uids u))) u)))).

(** [l.find(x => x.id === id)] *)
Fixpoint find_by_id (id : value) (l : list value) : outcome value :=
  match l with
  | [] => Ret VUndef
  | x :: r =>
      let* i := get x "id" in
      if strict_eq i id then Ret x else find_by_id id r
  end.

(** [(src.items || []).map((it) => ({ ...it, id: uid() }))], the first
    identifier being the [n]-th. *)
Fixpoint clone_items (its : list value) (n : nat) : list value :=
  match its with
  | [] => []
  | it :: r => VObj (assign "id" (VStr (uid_of n)) (spread [] it)) :: clone_items r (S n)
  end.

(** [duplicateInvoice]: lines 346-371. *)
Definition duplicateInvoice (id : value) (u : ui) : outcome ui :=
  let a := app u in
  let* i := get a "invoices" in
  let* invs := as_array i in
  let* src := find_by_id id invs in
  if negb (truthy src) then Ret u
  else
    let* settings := get a "settings" in
    let* n := next_number settings in
    let* invoiceNumber := invoice_number settings n in
    let* dueDate := default_due settings in
    let* its := get src "items" in
    let* items := as_array (or_else its (VArr [] [])) in
    let copy :=
      VObj (assign "items" (VArr (clone_items items (S (uids u))) [])
           (assign "dueDate" dueDate
           (assign "issueDate" (VStr todayISO)
           (assign "status" (VStr "Draft")
           (assign "invoiceNumber" (VStr invoiceNumber)
           (assign "id" (VStr (uid_of (uids u)))
           (spread [] src))))))) in
    let* invoices := cons_invoices copy a in
    Ret (notify "Duplicated"
           (setApp (with_new_invoice a settings n invoices)
              (setUids (S (uids u) + List.length items) u))).

(** The callback of line 384. *)
Definition merge_patch (patch x : value) : outcome value :=
  let* i := get x "id" in
  let* j := get patch "id" in
  Ret (if strict_eq i j then VObj (spread (spread [] x) patch) else x).

(** [upsertInvoice]: lines 381-386. *)
Definition upsertInvoice (patch : value) (u : ui) : outcome ui :=
  let a := app u in
  let* i := get a "invoices" in
  let* invs := as_array (or_else i (VArr [] [])) in
  let* invs' := omap (merge_patch patch) invs in
  Ret (setApp (VObj (assign "invoices" (VArr invs' []) (spread [] a))) u).

(** The callback of line 405. *)
Definition clear_client (id inv : value) : outcome value :=
  let* c := get inv "clientId" in
  Ret (if strict_eq c id then VObj (assign "clientId" (VStr "") (spread [] inv)) else inv).

(** [l.filter(x => x.id !== id)] *)
Fixpoint remove_by_id (id : value) (l : list value) : outcome (list value) :=
  match l with
  | [] => Ret []
  | x :: r =>
      let* i := get x "id" in
      let* r' := remove_by_id id r in
      Ret (if strict_eq i id then r' else x :: r')
  end.

(** Lines 399-400: the name shown in the confirmation. *)
Definition confirm_name (a id : value) : outcome string :=
  let* cl := get a "clients" in
  let* cs := as_array cl in
  let* c := find_by_id id cs in
  match or_else (get_opt c "name") (VStr "this client") with
  | VStr s => Ret (trim s)
  | _ => Throw TypeError
  end.

(** The updater of lines 404-407. *)
Definition without_client (id a : value) : outcome value :=
  let* i := get a "invoices" in
  let* invs := as_array (or_else i (VArr [] [])) in
  let* invoices := omap (clear_client id) invs in
  let* cl := get a "clients" in
  let* cs := as_array (or_else cl (VArr [] [])) in
  let* clients := remove_by_id id cs in
  Ret (VObj (assign "invoices" (VArr invoices [])
               (assign "clients" (VArr clients []) (spread [] a)))).

(** [deleteClient]: lines 398-410; [ok] is the answer to the
    confirmation. *)
Definition deleteClient (id : value) (ok : bool) (u : ui) : outcome ui :=
  let* _ := confirm_name (app u) id in
  if negb ok then Ret u
  else
    let* a := without_client id (app u) in
    Ret (notify "Client deleted" (setApp a u)).

(** ** The state at start, the active invoice *)

(** The initial state: lines 160-163, [saved] being what the storage
    holds under the key of the application ([None] for [null]) and [n] the
    number of identifiers handed out. *)
Definition initial_app (saved : option string) (n : nat) : outcome value :=
  normalize
    (match saved with
     | Some s => if truthy (VStr s) then safeParse s VNull else VNull
     | None => VNull
     end) n.

(** [activeInvoice]: lines 195-198. *)
Definition activeInvoice (u : ui) : outcome value :=
  let* i := get (app u) "invoices" in
  let* invs := as_array i in
  let* x := find_by_id (activeInvoiceId u) invs in
  Ret (or_else x VNull).

(** ** deleteInvoice and upsertClient *)

(** [deleteInvoice]: lines 373-379; [ok] is the answer to the
    confirmation. *)
Definition deleteInvoice (id : value) (ok : bool) (u : ui) : outcome ui :=
  if negb ok then Ret u
  else
    let a := app u in
    let* i := get a "invoices" in
    let* invs := as_array (or_else i (VArr [] [])) in
    let* invoices := remove_by_id id invs in
    let u1 := setApp (VObj (assign "invoices" (VArr invoices []) (spread [] a))) u in
    let u2 := if strict_eq (activeInvoiceId u) id then setActiveInvoiceId VNull u1 else u1 in
    Ret (notify "Deleted" u2).

(** [l.findIndex(c => c.id === client.id)], the first element of [l]
    having the index [i]; [None] stands for -1. *)
Fixpoint findIndex_by_id (client : value) (l : list value) (i : nat) : outcome (option nat) :=
  match l with
  | [] => Ret None
  | c :: r =>
      let* ci := get c "id" in
      let* id := get client "id" in
      if strict_eq ci id then Ret (Some i) else findIndex_by_id client r (S i)
  end.

(** [l[i] = v]: past the end the array grows, and the indices it skips
    read as [undefined]. *)
Fixpoint set_index (i : nat) (v : value) (l : list value) : list value :=
  match i, l with
  | O, [] => [v]
  | O, _ :: r => v :: r
  | S j, [] => VUndef :: set_index j v []
  | S j, x :: r => x :: set_index j v r
  end.

(** [upsertClient]: lines 388-396. *)
Definition upsertClient (client : value) (u : ui) : outcome ui :=
  let a := app u in
  let* cl := get a "clients" in
  let* list := iterate (or_else cl (VArr [] [])) in
  let* idx := findIndex_by_id client list 0 in
  let list' :=
    match idx with
    | Some i => set_index i client list
    | None => client :: list
    end in
  Ret (setApp (VObj (assign "clients" (VArr list' []) (spread [] a))) u).

(** ** The editor of an invoice: [InvoiceModal] *)

(** The callback of line 1014: [qty] and [unitPrice] coerced, 0 standing
    for a falsy result. *)
Definition draft_item (it : value) : outcome value :=
  let* q := get it "qty" in
  let* qty := toNumber q in
  let* p := get it "unitPrice" in
  let* price := toNumber p in
  Ret (VObj (assign "unitPrice" (or_else (VNum price) (VNum zero))
            (assign "qty" (or_else (VNum qty) (VNum zero)) (spread [] it)))).

(** The draft the editor starts from: lines 1011-1019, for the invoice
    [invoice] (the component has returned before when there is none) and
    the default rate [defaultVat] of the settings. *)
Definition draft_of (invoice defaultVat : value) : outcome value :=
  let* r := get invoice "vatRate" in
  let* rate := toNumber r in
  let* vat := (if truthy (VNum rate) then Ret (VNum rate)
               else let* dv := toNumber defaultVat in Ret (VNum dv)) in
  let* its := get invoice "items" in
  let* items := as_array (or_else its (VArr [] [])) in
  let* items' := omap draft_item items in
  Ret (VObj (assign "items" (VArr items' []) (assign "vatRate" vat (spread [] invoice)))).

(** The callback of line 1039. *)
Definition patch_item (id patch it : value) : outcome value :=
  let* i := get it "id" in
  Ret (if strict_eq i id then VObj (spread (spread [] it) patch) else it).

(** [setItem]: lines 1036-1041, on the draft [d]. *)
Definition setItem (id patch d : value) : outcome value :=
  let* its := get d "items" in
  let* items := as_array (or_else its (VArr [] [])) in
  let* items' := omap (patch_item id patch) items in
  Ret (VObj (assign "items" (VArr items' []) (spread [] d))).

(** [addItem]: lines 1043-1047, on the draft [d], the identifier of the
    new line being the [n]-th. *)
Definition addItem (d : value) (n : nat) : outcome value :=
  let* its := get d "items" in
  let* items := iterate (or_else its (VArr [] [])) in
  Ret (VObj (assign "items" (VArr (items ++ [blank_item (VStr (uid_of n))]) [])
            (spread [] d))).

(** [delItem]: lines 1049-1050, on the draft [d]. *)
Definition delItem (id d : value) : outcome value :=
  let* its := get d "items" in
  let* items := as_array (or_else its (VArr [] [])) in
  let* items' := remove_by_id id items in
  Ret (VObj (assign "items" (VArr items' []) (spread [] d))).

(** The callback of line 1236. *)
Definition saved_item (it : value) : outcome value :=
  let* q := get it "qty" in
  let* qty := toNumber q in
  let* p := get it "unitPrice" in
  let* price := toNumber p in
  Ret (VObj (assign "unitPrice" (VNum price) (assign "qty" (VNum qty) (spread [] it)))).

(** The invoice that the button Save hands to [onSave]: lines 1233-1241,
    for the draft [draft]. *)
Definition saved_of (draft : value) : outcome value :=
  let* r := get draft "vatRate" in
  let* rate := toNumber r in
  let* its := get draft "items" in
  let* items := as_array (or_else its (VArr [] [])) in
  let* items' := omap saved_item items in
  Ret (VObj (assign "items" (VArr items' []) (assign "vatRate" (VNum rate) (spread [] draft)))).

(** The button Save of the editor: lines 1232-1242 with the [onSave] of
    lines 774-778. *)
Definition saveInvoice (draft : value) (u : ui) : outcome ui :=
  let* inv := saved_of draft in
  let* u' := upsertInvoice inv u in
  Ret (notify "Saved" (setInvoiceModalOpen false u')).

(** ** filteredInvoices *)

(** [String.prototype.toLowerCase]. *)
Variable toLowerCase : string -> string.

(** [s.includes(t)] on strings. *)
Fixpoint contains (s t : string) : bool :=
  String.prefix t s
  || match s with
     | String _ r => contains r t
     | EmptyString => false
     end.

(** [l.filter(p)] for a callback that may throw. *)
Fixpoint ofilter {A : Type} (p : A -> outcome bool) (l : list A) : outcome (list A) :=
  match l with
  | [] => Ret []
  | x :: r =>
      let* b := p x in
      let* r' := ofilter p r in
      Ret (if b then x :: r' else r')
  end.

(** The text in which an invoice is searched: lines 215-228. *)
Definition blob (by_id : list (value * value)) (inv : value) : outcome string :=
  let* cid := get inv "clientId" in
  let client := map_get cid by_id in
  let* number := get inv "invoiceNumber" in
  let* issue := get inv "issueDate" in
  let* due := get inv "dueDate" in
  let* status := get inv "status" in
  let* notes := get inv "notes" in
  let* its := get inv "items" in
  let* items := as_array (or_else its (VArr [] [])) in
  let* descs := omap (fun i => get i "desc") items in
  let cells :=
    filter truthy
      ([number; issue; due; status; get_opt client "name"; get_opt client "email"; notes]
       ++ descs)%list in
  let* texts := omap js_String cells in
  Ret (toLowerCase (join " " texts)).

(** The callback of the filter: lines 212-230, for the filter on the
    status [statusFilter] and the query [needle]. *)
Definition shown (by_id : list (value * value)) (statusFilter : value) (needle : string)
    (inv : value) : outcome bool :=
  let* hidden :=
    (if negb (strict_eq statusFilter (VStr "All"))
     then let* st := get inv "status" in Ret (negb (strict_eq st statusFilter))
     else Ret false) in
  if hidden then Ret false
  else if (needle =? "")%string then Ret true
  else let* b := blob by_id inv in Ret (contains b needle).

(** [undefined] among the elements of an array. *)
Definition is_undefined (v : value) : bool :=
  match v with
  | VUndef => true
  | _ => false
  end.

(** [l.sort(cmp)] with the comparator of line 231: the elements that are
    [undefined] go to the end and are not compared, and fewer than two
    other elements are not compared either. *)
Definition sort_newest_first (l : list value) : outcome (list value) :=
  let present := filter (fun v => negb (is_undefined v)) l in
  let* sorted :=
    match present with
    | [] | [_] => Ret present
    | _ =>
        let* keys := omap sort_key present in
        Ret (map snd (sort_by_key (combine keys present)))
    end in
  Ret (sorted ++ filter is_undefined l)%list.

(** [filteredInvoices]: lines 209-232, for the query [q] and the filter
    [statusFilter]. *)
Definition filteredInvoices (q : string) (statusFilter : value) (a : value)
  : outcome (list value) :=
  let* by_id := clientsById a in
  let needle := toLowerCase (trim q) in
  let* i := get a "invoices" in
  let* invs := as_array i in
  let* kept := ofilter (shown by_id statusFilter needle) invs in
  sort_newest_first kept.

End Environment.

(* ================================================================== *)
(** * The vocabulary of the statements *)
(* ================================================================== *)

(** ** Property lists *)

Definition keys (ps : props) : list string := map fst ps.

(** ** normalizeData on given documents *)

(** The invoice that [normalizeData] builds from the empty object [{}],
    the first free identifier being the [n]-th. *)
Definition repaired_empty_invoice (todayISO : string) (uid_of : nat -> string)
    (date_plus : value -> value -> option string) (n : nat) : value :=
  VObj [("id", VStr (uid_of n));
        ("invoiceNumber", VStr "");
        ("issueDate", VStr todayISO);
        ("dueDate", addDaysISO date_plus (VStr todayISO) (VNum (Fin 14 0)));
        ("clientId", VStr "");
        ("status", VStr "Draft");
        ("vatRate", VNum (Fin 0 0));
        ("items", VArr [blank_item (VStr (uid_of (S n)))] []);
        ("notes", VStr "")].

(** ** calcTotals *)

Definition nullish (v : value) : bool :=
  match v with VUndef | VNull => true | _ => false end.

(** [String(v)] returns. *)
Definition stringable (v : value) : bool :=
  match js_String v with Ret _ => true | Throw _ => false end.

(** The number a field is coerced to: what [toNumber] returns. *)
Definition coerce (v : value) : num :=
  match toNumber v with Ret n => n | Throw _ => zero end.



(** The line items of an invoice: its [items] when that is an array. *)
Definition lines (inv : value) : list value := items_of (get_opt inv "items").

(** A line item that is an object or a primitive value other than [null]
    and [undefined], with a quantity and a price that have a string form
    (every number, string, boolean, [null] and [undefined] has one). *)
Definition line_ok (it : value) : bool :=
  negb (nullish it) && stringable (get_opt it "qty") && stringable (get_opt it "unitPrice").


(** ** A sample environment *)

(** An environment to run the functions in: a date, identifiers
    [id0], [id1], ..., and a [Date] arithmetic that appends the number of
    days to a date given as a string. *)
Definition sample_today : string := "2026-01-15".

Definition sample_uid (n : nat) : string := "id" ++ index_key n.

Definition sample_date_plus (iso days : value) : option string :=
  match iso, js_String days with
  | VStr s, Ret d => Some (s ++ "+" ++ d)
  | _, _ => None
  end.

Definition sample_ui (a : value) : ui :=
  {| app := a; activeInvoiceId := VStr "id7"; invoiceModalOpen := false;
     notices := []; uids := 8 |}.

(** ** importJSON *)

(** None of [parsed.clients], [parsed.invoices], [parsed.settings] is
    truthy. *)
Definition no_truthy_section (parsed : value) : bool :=
  negb (truthy (get_opt parsed "clients"))
  && negb (truthy (get_opt parsed "invoices"))
  && negb (truthy (get_opt parsed "settings")).

Definition import_rejected (parsed : value) : bool :=
  negb (truthy parsed) || no_truthy_section parsed.

(** ** The run of normalizeData *)

Definition objlike (v : value) : bool :=
  match v with VObj _ | VArr _ _ => true | _ => false end.

(** [{...base, ...(x || {})}] *)
Definition merged (base_ps : props) (x : value) : value :=
  VObj (spread (spread [] (VObj base_ps)) (or_else x (VObj []))).

Definition array_or_empty (v : value) : value :=
  if isArray v then v else VArr [] [].

(** The object [d] after lines 117-120. *)
Definition prepared (d : value) : value :=
  let d1 := put "settings" (merged base_settings (get_opt d "settings")) d in
  let d2 := put "profile" (merged base_profile (get_opt d1 "profile")) d1 in
  let d3 := put "clients" (array_or_empty (get_opt d2 "clients")) d2 in
  put "invoices" (array_or_empty (get_opt d3 "invoices")) d3.

Definition with_target (d : value) (w : world) : world :=
  {| target := d; issued := issued w |}.

(** A computation that leaves the object [d] as it is. *)
Definition stable {A : Type} (c : M A) : Prop :=
  forall w : world, target (fst (c w)) = target w.

(** The statements of lines 123-153, on the prepared object. *)
Definition repair_collections (todayISO : string) (uid_of : nat -> string)
    (date_plus : value -> value -> option string) : M value :=
  (i' <- read "invoices" ;;
   invoices <- mapM (normalize_invoice todayISO uid_of date_plus) (elems i') ;;
   write "invoices" (VArr invoices []) ;;;
   c' <- read "clients" ;;
   clients <- mapM (normalize_client uid_of) (elems c') ;;
   write "clients" (VArr clients []) ;;;
   current)%monad.

(** What a run of lines 123-153 on the object [p] is made of: the repair
    of the invoices, then of the clients, each of which may throw, and the
    two assignments. *)
Inductive repair_run (todayISO : string) (uid_of : nat -> string)
    (date_plus : value -> value -> option string) (w : world)
  : world * outcome value -> Prop :=
| run_invoices_throw (w1 : world) (e : exn) :
    mapM (normalize_invoice todayISO uid_of date_plus) (elems (get_opt (target w) "invoices")) w = (w1, Throw e) ->
    target w1 = target w ->
    repair_run todayISO uid_of date_plus w (w1, Throw e)
| run_clients_throw (w1 w2 : world) (invs : list value) (e : exn) :
    mapM (normalize_invoice todayISO uid_of date_plus) (elems (get_opt (target w) "invoices")) w = (w1, Ret invs) ->
    mapM (normalize_client uid_of) (elems (get_opt (target w) "clients"))
      (with_target (put "invoices" (VArr invs []) (target w)) w1) = (w2, Throw e) ->
    target w2 = put "invoices" (VArr invs []) (target w) ->
    repair_run todayISO uid_of date_plus w (w2, Throw e)
| run_done (w1 w2 : world) (invs cls : list value) :
    mapM (normalize_invoice todayISO uid_of date_plus) (elems (get_opt (target w) "invoices")) w = (w1, Ret invs) ->
    mapM (normalize_client uid_of) (elems (get_opt (target w) "clients"))
      (with_target (put "invoices" (VArr invs []) (target w)) w1) = (w2, Ret cls) ->
    repair_run todayISO uid_of date_plus w
      (with_target (put "clients" (VArr cls []) (put "invoices" (VArr invs []) (target w))) w2,
       Ret (put "clients" (VArr cls []) (put "invoices" (VArr invs []) (target w)))).

(** The object [d] that [normalizeData] works on. *)
Definition subject (raw : value) : value := if is_object raw then raw else base.

(** ** normalizeData writes into its argument *)

Definition written_keys : list string := ["settings"; "profile"; "clients"; "invoices"].

(** ** The invoice counter *)

(** [settings.nextInvoiceNumber] of a state. *)
Definition counter (a : value) : value :=
  get_opt (get_opt a "settings") "nextInvoiceNumber".



(** ** Records *)

Fixpoint distinct (l : list string) : bool :=
  match l with
  | [] => true
  | k :: r => negb (existsb (String.eqb k) r) && distinct r
  end.

(** A plain object, with distinct keys. *)
Definition is_record (v : value) : bool :=
  match v with VObj ps => distinct (keys ps) | _ => false end.

(** ** deleteClient *)

(** The invoice refers to the client [id]. *)
Definition refers_to (id inv : value) : bool := strict_eq (get_opt inv "clientId") id.

(** An invoice with its reference to the client [id] cleared. *)
Definition cleared (id inv : value) : value :=
  if refers_to id inv then put "clientId" (VStr "") inv else inv.

(** A client whose name, when it has one, is a string. *)
Definition client_ok (c : value) : bool :=
  is_record c
  && match or_else (get_opt c "name") (VStr "this client") with
     | VStr _ => true
     | _ => false
     end.

(** A state with two clients and three invoices. *)
Definition sample_items : value :=
  VArr [VObj [("id", VStr "l1"); ("desc", VStr "Design"); ("qty", VNum (Fin 2 0));
              ("unit", VStr "h"); ("unitPrice", VNum (Fin 50 0))];
        VObj [("id", VStr "l2"); ("desc", VStr "Hosting"); ("qty", VNum (Fin 1 0));
              ("unit", VStr ""); ("unitPrice", VNum (Fin 10 0))]] [].

Definition sample_invoice_of (id date client : string) (items : value) : value :=
  VObj [("id", VStr id); ("invoiceNumber", VStr ("INV-" ++ id));
        ("issueDate", VStr date); ("dueDate", VStr date);
        ("clientId", VStr client); ("status", VStr "Sent");
        ("vatRate", VNum (Fin 19 0)); ("items", items); ("notes", VStr "")].

Definition sample_client (id name : string) : value :=
  VObj [("id", VStr id); ("name", VStr name); ("address", VStr "");
        ("email", VStr ""); ("phone", VStr ""); ("contact", VStr "");
        ("notes", VStr "")].

Definition sample_invoices : list value :=
  [sample_invoice_of "0001" "2026-01-10" "c1" sample_items;
   sample_invoice_of "0002" "2026-02-01" "c2" (VArr [] []);
   sample_invoice_of "0003" "2026-01-20" "c1" (VArr [] [])].

Definition sample_clients : list value :=
  [sample_client "c1" "Acme, Inc."; sample_client "c2" "Bob"].

Definition sample_state_props : props :=
  [("settings", VObj base_settings);
   ("profile", VObj base_profile);
   ("clients", VArr sample_clients []);
   ("invoices", VArr sample_invoices [])].

Definition sample_state : value := VObj sample_state_props.

(** ** upsertInvoice *)

(** The invoice has the identifier of the patch. *)
Definition matches (patch x : value) : bool :=
  strict_eq (get_opt x "id") (get_opt patch "id").

(** An invoice after [upsertInvoice(patch)]. *)
Definition patched (patch x : value) : value :=
  if matches patch x then VObj (spread (own_props x) patch) else x.

(** A patch of the notes of the second invoice of the sample state. *)
Definition sample_patch_props : props :=
  [("id", VStr "0002"); ("notes", VStr "paid in cash")].

(** ** Runs of digits *)

Fixpoint only_digits (s : string) : bool :=
  match s with
  | String c r => is_digit c && only_digits r
  | EmptyString => true
  end.

Definition starts_with_digit (s : string) : bool :=
  match s with String c _ => is_digit c | EmptyString => false end.

(** ** toFixed(2) *)



(** ** The stable sort *)

(** [x] may stand in front of [y]: the key of [y] does not compare above
    the key of [x]. *)
Definition before (localeCompare : string -> string -> Z) (x y : string * value) : Prop :=
  localeCompare (fst y) (fst x) <= 0.

(** ** exportCSV *)










(** The string the invoices are ordered by. *)
Definition issue_key (inv : value) : string :=
  match js_String (or_else (get_opt inv "issueDate") (VStr "")) with
  | Ret s => s
  | Throw _ => ""
  end.




(** The invoices of a state in the order of the export. *)
Definition export_order (localeCompare : string -> string -> Z) (a : value) : list value :=
  map snd (sort_by_key localeCompare
             (combine (map issue_key (elems (get_opt a "invoices")))
                      (elems (get_opt a "invoices")))).

(** The invoice [x] is not older than [y], as the locale compares their
    issue dates. *)
Definition newer_first (localeCompare : string -> string -> Z) (x y : value) : Prop :=
  localeCompare (issue_key y) (issue_key x) <= 0.


(** The comparison of strings character by character, as a collation. *)
Definition sample_compare (a b : string) : Z :=
  match String_as_OT.compare a b with Lt => -1 | Eq => 0 | Gt => 1 end.


(** ** The text of a number *)

(** The characters of the text of a finite number. *)
Definition num_char (c : ascii) : bool :=
  is_digit c || Ascii.eqb c "." || Ascii.eqb c "-" || Ascii.eqb c "+" || Ascii.eqb c "e".

Fixpoint num_text (s : string) : bool :=
  match s with
  | String c r => num_char c && num_text r
  | EmptyString => true
  end.

(** ** Reading the text of a number back *)

(** The parts of the text of a number: sign, integer digits, fraction,
    exponent. *)
Definition sign_text (neg : bool) : string := if neg then "-" else "".

Definition frac_text (hasdot : bool) (fp : string) : string :=
  if hasdot then String "." fp else "".

Definition exp_text (ex : option (bool * string)) : string :=
  match ex with
  | None => ""
  | Some (eneg, eds) => String "e" ((if eneg then "-" else "+") ++ eds)
  end.

Definition exp_value (ex : option (bool * string)) : Z :=
  match ex with
  | None => 0
  | Some (eneg, eds) =>
      let v := Z.of_N (digits_val 10 eds 0) in if eneg then - v else v
  end.

Definition exp_ok (ex : option (bool * string)) : Prop :=
  match ex with
  | None => True
  | Some (_, eds) => only_digits eds = true /\ eds <> ""
  end.

(** ** Merging twice *)

(** The properties [xs] copied one after the other onto [acc]. *)
Definition copy (xs acc : props) : props :=
  fold_left (fun a kv => assign (fst kv) (snd kv) a) xs acc.

(** ** Repaired entries *)

(** A value that [v || ""] leaves as it is. *)
Definition soft (v : value) : Prop := or_else v (VStr "") = v.

(** A number that [toNumber] leaves as it is. *)
Definition plain_number (v : value) : Prop :=
  exists x : num, v = VNum x /\ is_finite x = true /\ canonical x.

(** A line item as [normalizeData] leaves it. *)
Definition item_normal (o : value) : Prop :=
  exists id desc qty unit price : value,
    o = VObj [("id", id); ("desc", desc); ("qty", qty); ("unit", unit); ("unitPrice", price)]
    /\ truthy id = true /\ soft desc /\ plain_number qty /\ soft unit /\ plain_number price.

(** An invoice as [normalizeData] leaves it. *)
Definition invoice_normal (o : value) : Prop :=
  exists (id number issue due client status rate notes : value) (items : list value),
    o = VObj [("id", id); ("invoiceNumber", number); ("issueDate", issue);
              ("dueDate", due); ("clientId", client); ("status", status);
              ("vatRate", rate); ("items", VArr items []); ("notes", notes)]
    /\ truthy id = true /\ soft number /\ truthy issue = true /\ truthy due = true
    /\ soft client /\ includes STATUS status = true /\ plain_number rate
    /\ Forall item_normal items /\ typeof_string notes = true.

(** A client as [normalizeData] leaves it. *)
Definition client_normal (o : value) : Prop :=
  exists id name address email phone contact notes : value,
    o = VObj [("id", id); ("name", name); ("address", address); ("email", email);
              ("phone", phone); ("contact", contact); ("notes", notes)]
    /\ truthy id = true /\ soft name /\ soft address /\ soft email /\ soft phone
    /\ soft contact /\ soft notes.

(** An object that lines 117-120 leave as they found it. *)
Definition is_prepared (d : value) : Prop :=
  (exists x, get_opt d "settings" = merged base_settings x)
  /\ (exists x, get_opt d "profile" = merged base_profile x)
  /\ isArray (get_opt d "clients") = true
  /\ isArray (get_opt d "invoices") = true.

(** A stored document with a comma as decimal separator, a quantity given
    as a string and missing fields. *)
Definition sample_document : value :=
  VObj [("settings", VObj [("currency", VStr "USD")]);
        ("clients", VArr [VObj [("name", VStr "Acme, Inc.")]] []);
        ("invoices",
         VArr [VObj [("vatRate", VStr "19,5");
                     ("status", VStr "Paid");
                     ("items", VArr [VObj [("qty", VStr "2"); ("unitPrice", VNum (Fin 125 (-1)))];
                                     VObj [("desc", VStr "Hosting")]] [])];
               VObj []] [])].

Definition sample_repaired : value :=
  Eval vm_compute in
    match normalize sample_today sample_uid sample_date_plus sample_document 0 with
    | Ret d => d
    | Throw _ => VUndef
    end.

(** ** Documents that normalizeData repairs *)

(** An invoice entry that [normalizeData] can repair: it is not [null] or
    [undefined], its line items are not either, and its numeric fields
    have a string form. *)
Definition repairable_invoice (inv : value) : bool :=
  negb (nullish inv) && forallb line_ok (lines inv) && stringable (get_opt inv "vatRate").

(** A document whose entries [normalizeData] can repair. *)
Definition repairable (raw : value) : bool :=
  forallb repairable_invoice (elems (get_opt (subject raw) "invoices"))
  && forallb (fun c => negb (nullish c)) (elems (get_opt (subject raw) "clients")).

(** The computation returns, in any state whose settings are an object. *)
Definition returns {A : Type} (c : M A) : Prop :=
  forall w : world,
    nullish (get_opt (target w) "settings") = false ->
    exists (w' : world) (a : A), c w = (w', Ret a).

(** ** Decimal commas *)

(** The number of occurrences of a character in a string. *)
Fixpoint count_char (c : ascii) (s : string) : nat :=
  match s with
  | String c' r => ((if Ascii.eqb c' c then 1 else 0) + count_char c r)%nat
  | EmptyString => O
  end.

Definition has_comma (s : string) : bool := has_char (fun c => Ascii.eqb c ",") s.

(** ** States in normal form *)

(** A state as [normalizeData] leaves it. *)
Definition normal_state (d : value) : Prop :=
  objlike d = true /\ is_prepared d
  /\ exists invs cls : list value,
       get_opt d "invoices" = VArr invs [] /\ get_opt d "clients" = VArr cls []
       /\ Forall invoice_normal invs /\ Forall client_normal cls.

(** ** The entries of a repaired state *)

Definition invoice_keys : list string :=
  ["id"; "invoiceNumber"; "issueDate"; "dueDate"; "clientId"; "status"; "vatRate";
   "items"; "notes"].

Definition item_keys : list string := ["id"; "desc"; "qty"; "unit"; "unitPrice"].

Definition client_keys : list string :=
  ["id"; "name"; "address"; "email"; "phone"; "contact"; "notes"].

(** A plain object with exactly the keys [ks], in this order. *)
Definition has_keys (ks : list string) (v : value) : Prop :=
  exists ps : props, v = VObj ps /\ keys ps = ks.

Definition finite_number (v : value) : bool :=
  match v with VNum x => is_finite x | _ => false end.

(** The property [k] of [x], when it is truthy, is the property [k] of
    [out]. *)
Definition kept (k : string) (x out : value) : Prop :=
  truthy (get_opt x k) = true -> get_opt out k = get_opt x k.

(** What a repaired line item keeps of the line item it comes from. *)
Definition item_kept (it out : value) : Prop :=
  (forall k : string, In k ["id"; "desc"; "unit"] -> kept k it out)
  /\ get_opt out "qty" = VNum (coerce (get_opt it "qty"))
  /\ get_opt out "unitPrice" = VNum (coerce (get_opt it "unitPrice")).

(** What a repaired invoice keeps of the invoice it comes from. *)
Definition invoice_kept (inv out : value) : Prop :=
  (forall k : string,
      In k ["id"; "invoiceNumber"; "issueDate"; "dueDate"; "clientId"] -> kept k inv out)
  /\ (includes STATUS (get_opt inv "status") = true ->
      get_opt out "status" = get_opt inv "status")
  /\ (typeof_string (get_opt inv "notes") = true ->
      get_opt out "notes" = get_opt inv "notes")
  /\ get_opt out "vatRate" = VNum (coerce (get_opt inv "vatRate"))
  /\ (isArray (get_opt inv "items") = true ->
      Forall2 item_kept (elems (get_opt inv "items")) (elems (get_opt out "items"))).

(** What a repaired client keeps of the client it comes from. *)
Definition client_kept (c out : value) : Prop :=
  forall k : string, In k client_keys -> kept k c out.

(** ** The editor of an invoice *)

(** The draft that the editor shows for an invoice in normal form: the
    invoice, with the default rate [dv] when its own rate is 0. *)
Definition reopened (inv dv : value) : value :=
  if truthy (get_opt inv "vatRate") then inv else put "vatRate" (VNum (coerce dv)) inv.

(** ** Entries by identifier *)

(** The entry has the identifier [id]: [c.id === id]. *)
Definition has_id (id c : value) : bool := strict_eq (get_opt c "id") id.

(** The entries that [x.id !== id] keeps. *)
Definition without_id (id : value) (l : list value) : list value :=
  filter (fun x => negb (has_id id x)) l.

(** No entry is [null] or [undefined]. *)
Definition all_entries (l : list value) : bool := forallb (fun x => negb (nullish x)) l.

(** ** upsertClient *)

(** The first entry that satisfies [p] replaced by [v]. *)
Fixpoint replace_first (p : value -> bool) (v : value) (l : list value) : list value :=
  match l with
  | [] => []
  | x :: r => if p x then v :: r else x :: replace_first p v r
  end.

(** The clients after [upsertClient(client)]: the client stands in the
    place of the first client that has its identifier, or in front of all
    when none has it. *)
Definition upserted (client : value) (cls : list value) : list value :=
  if existsb (has_id (get_opt client "id")) cls
  then replace_first (has_id (get_opt client "id")) client cls
  else client :: cls.

(** The index of the first entry that satisfies [p]. *)
Fixpoint first_index (p : value -> bool) (l : list value) : option nat :=
  match l with
  | [] => None
  | x :: r => if p x then Some O else option_map S (first_index p r)
  end.

(** The client [c2] of the sample state with a new address. *)
Definition sample_edited_client : value :=
  put "address" (VStr "1 Main St") (sample_client "c2" "Bob").

(** ** createInvoice and duplicateInvoice *)

(** Settings that [createInvoice] can read: an object or a primitive value
    other than [null] and [undefined], whose counter, prefix, term of
    payment and default rate have a string form. *)
Definition settings_ok (s : value) : bool :=
  negb (nullish s)
  && forallb (fun k => stringable (get_opt s k))
       ["nextInvoiceNumber"; "invoicePrefix"; "defaultDueDays"; "defaultVatRate"].

(** The number that the next invoice takes: [Math.max(1, n)] for the
    counter [n] of the settings as [toNumber] reads it. *)
Definition number_to_take (s : value) : num :=
  Num.max one (coerce (get_opt s "nextInvoiceNumber")).

(** An integer from 1 on that a double holds exactly together with its
    successor: below [2^53]. *)
Definition safe_integer (x : num) : bool :=
  match x with
  | Fin m e => (0 <=? e) && (1 <=? m) && (m * 10 ^ e <? 2 ^ 53)
  | _ => false
  end.

(** The sample state after one and after two calls of [createInvoice]. *)
Definition sample_created_once : ui :=
  Eval vm_compute in
    match createInvoice sample_today sample_uid sample_date_plus (sample_ui sample_state) with
    | Ret u' => u'
    | Throw _ => sample_ui sample_state
    end.

Definition sample_created_twice : ui :=
  Eval vm_compute in
    match createInvoice sample_today sample_uid sample_date_plus sample_created_once with
    | Ret u' => u'
    | Throw _ => sample_created_once
    end.

(** ** duplicateInvoice *)

(** The keys that [duplicateInvoice] writes in the copy. *)
Definition rewritten_keys : list string :=
  ["id"; "invoiceNumber"; "status"; "issueDate"; "dueDate"; "items"].

(** [out] has the properties of [x] but for the identifier. *)
Definition same_but_id (x out : value) : Prop :=
  forall k : string, k <> "id" -> get_opt out k = get_opt x k.

(** ** Settings merged over the defaults *)

(** Properties with distinct keys that start with the keys of [base_ps],
    in their order: what a merge over [base_ps] gives. *)
Definition led (base_ps ps : props) : Prop :=
  exists s1 s2 : props,
    ps = (s1 ++ s2)%list /\ keys s1 = keys base_ps /\ NoDup (keys ps).

(** ** calcTotals on a repaired invoice *)




(** ** clientsById *)

(** The last entry of [l] whose identifier is [id] as a [Map] compares
    keys; [undefined] when there is none. *)
Definition last_with_id (id : value) (l : list value) : value :=
  fold_left (fun acc c => if same_value_zero (get_opt c "id") id then c else acc) l VUndef.

(** No two entries have the same identifier, as a [Map] compares keys. *)
Definition ids_distinct (l : list value) : Prop :=
  ForallOrdPairs
    (fun c c' => same_value_zero (get_opt c "id") (get_opt c' "id") = false) l.

(** ** filteredInvoices *)

(** An invoice whose issue date the comparator of the list can read. *)
Definition sortable (inv : value) : bool :=
  negb (nullish inv) && stringable (get_opt inv "issueDate").

(** An element that is not [undefined]. *)
Definition present (v : value) : bool := negb (is_undefined v).

(** A state with three invoices and no client. *)
Definition sample_listed_invoices : list value :=
  [ VObj [("id", VStr "i1"); ("issueDate", VStr "2024-01-05"); ("status", VStr "Paid")];
    VObj [("id", VStr "i2"); ("issueDate", VStr "2024-03-01"); ("status", VStr "Draft")];
    VObj [("id", VStr "i3"); ("issueDate", VStr "2024-02-10"); ("status", VStr "Paid")] ].

Definition sample_listed : value :=
  VObj [("clients", VArr [] []); ("invoices", VArr sample_listed_invoices [])].

(* ================================================================== *)
(** * Sample evaluations *)
(* ================================================================== *)

Example number_to_string_samples :
  map number_to_string
      [Fin 19 0; Fin 209 (-1); Fin (-5) 0; Fin 1 21; Fin 1 20; Fin 1 (-6); Fin 1 (-7);
       Fin 12 (-8); Fin 1234 18; Fin 1500 (-2); PInf]
  = ["19"; "20.9"; "-5"; "1e+21"; "100000000000000000000"; "0.000001"; "1e-7";
     "1.2e-7"; "1.234e+21"; "15"; "Infinity"].
Proof. vm_compute. reflexivity. Qed.

Example string_to_number_samples :
  map string_to_number
      ["19"; " 20.9 "; "-5"; "1e+21"; ""; "abc"; "0x1F"; ".5"; "5."; "1.2.3";
       "-Infinity"; "1e"; "12px"; "[object Object]"; "0b102"]
  = [Fin 19 0; Fin 209 (-1); Fin (-5) 0; Fin 1 21; Fin 0 0; NaN; Fin 31 0; Fin 5 (-1);
     Fin 5 0; NaN; NInf; NaN; NaN; NaN; NaN].
Proof. vm_compute. reflexivity. Qed.

Example toFixed2_samples :
  map toFixed2 [Fin 110 0; Fin 209 (-1); Fin 1309 (-1); Fin 5 (-3); Fin 4 (-3);
                Fin (-1) (-3); Fin 1 21; Fin 0 0; Fin 12345 (-1)]
  = ["110.00"; "20.90"; "130.90"; "0.01"; "0.00"; "-0.00"; "1e+21"; "0.00"; "1234.50"].
Proof. vm_compute. reflexivity. Qed.

Example calcTotals_sample :
  calcTotals (VObj [("vatRate", VNum (Fin 19 0));
                    ("items", VArr [VObj [("qty", VNum (Fin 2 0)); ("unitPrice", VNum (Fin 50 0))];
                                    VObj [("qty", VNum (Fin 1 0)); ("unitPrice", VNum (Fin 10 0))]] [])])
  = Ret {| net := Fin 11 1; vatRate := Fin 19 0; vat := Fin 209 (-1); gross := Fin 1309 (-1) |}.
Proof. vm_compute. reflexivity. Qed.

(* ================================================================== *)
(** * Property lists *)
(* ================================================================== *)

Lemma lookup_assign_eq (k : string) (v : value) (ps : props) :
  lookup k (assign k v ps) = Some v.
Proof.
  induction ps as [|[k' v'] r IH]; simpl.
  - now rewrite String.eqb_refl.
  - destruct (String.eqb_spec k' k) as [->|Hne]; simpl.
    + now rewrite String.eqb_refl.
    + destruct (String.eqb_spec k' k); [contradiction | exact IH].
Qed.

Lemma lookup_assign_neq (k k' : string) (v : value) (ps : props) :
  k <> k' -> lookup k' (assign k v ps) = lookup k' ps.
Proof.
  intros Hne. induction ps as [|[k0 v0] r IH]; simpl.
  - destruct (String.eqb_spec k k'); [contradiction | reflexivity].
  - destruct (String.eqb_spec k0 k) as [->|H0]; simpl.
    + destruct (String.eqb_spec k k'); [contradiction | reflexivity].
    + destruct (String.eqb_spec k0 k'); [reflexivity | exact IH].
Qed.

Lemma assign_same (k : string) (v : value) (ps : props) :
  lookup k ps = Some v -> assign k v ps = ps.
Proof.
  induction ps as [|[k' v'] r IH]; simpl; [discriminate|].
  destruct (String.eqb_spec k' k) as [->|Hne]; intros H.
  - now inversion H.
  - now rewrite IH.
Qed.

Lemma keys_assign_in (k : string) (v : value) (ps : props) :
  In k (keys ps) -> keys (assign k v ps) = keys ps.
Proof.
  induction ps as [|[k' v'] r IH]; simpl; [tauto|].
  destruct (String.eqb_spec k' k) as [->|Hne]; simpl; intros H.
  - reflexivity.
  - f_equal. apply IH. destruct H; [contradiction | assumption].
Qed.

Lemma assign_fresh (k : string) (v : value) (ps : props) :
  ~ In k (keys ps) -> assign k v ps = (ps ++ [(k, v)])%list.
Proof.
  induction ps as [|[k' v'] r IH]; simpl; intros H; [reflexivity|].
  destruct (String.eqb_spec k' k) as [->|Hne]; [tauto|].
  f_equal. apply IH. tauto.
Qed.

Lemma lookup_None_keys (k : string) (ps : props) :
  lookup k ps = None <-> ~ In k (keys ps).
Proof.
  induction ps as [|[k' v'] r IH]; simpl; [tauto|].
  destruct (String.eqb_spec k' k) as [->|Hne].
  - split; [discriminate | tauto].
  - rewrite IH. tauto.
Qed.

(** Copying distinct properties onto a list that has none of them appends
    them. *)
Lemma fold_assign_fresh (ps acc : props) :
  NoDup (keys ps) -> (forall k, In k (keys ps) -> ~ In k (keys acc)) ->
  fold_left (fun a kv => assign (fst kv) (snd kv) a) ps acc = (acc ++ ps)%list.
Proof.
  revert acc. induction ps as [|[k v] r IH]; simpl; intros acc Hnd Hfresh.
  - now rewrite app_nil_r.
  - inversion Hnd as [|? ? Hk Hr]; subst.
    rewrite assign_fresh by (apply Hfresh; now left).
    rewrite IH; trivial.
    + now rewrite <- app_assoc.
    + intros k' Hin. unfold keys. rewrite map_app, in_app_iff. simpl.
      intros [H|[<-|[]]]; [eapply Hfresh; eauto | contradiction].
Qed.

(** [{...o}] copies an object whose keys are distinct as it is. *)
Lemma spread_nil_obj (ps : props) :
  NoDup (keys ps) -> spread [] (VObj ps) = ps.
Proof.
  intros H. unfold spread. simpl. now rewrite fold_assign_fresh.
Qed.

Lemma field_assign_eq (k : string) (v : value) (ps : props) :
  field k (assign k v ps) = v.
Proof. unfold field. now rewrite lookup_assign_eq. Qed.

Lemma field_assign_neq (k k' : string) (v : value) (ps : props) :
  k <> k' -> field k' (assign k v ps) = field k' ps.
Proof. intros H. unfold field. now rewrite lookup_assign_neq. Qed.

(* ================================================================== *)
(** * toNumber *)
(* ================================================================== *)

(** [toNumber] never returns [NaN] or an infinity. *)
Lemma toNumber_finite (v : value) (n : num) :
  toNumber v = Ret n -> is_finite n = true.
Proof.
  unfold toNumber. destruct (js_String _); simpl; [|discriminate].
  intros H. inversion H. now destruct (is_finite (string_to_number _)) eqn:E.
Qed.

Lemma toNumber_undefined : toNumber VUndef = Ret zero.
Proof. reflexivity. Qed.

Lemma toNumber_not_a_number : toNumber (VStr "abc") = Ret zero.
Proof. vm_compute. reflexivity. Qed.

(* ================================================================== *)
(** * normalizeData on given documents *)
(* ================================================================== *)

Section Documents.

Variable todayISO : string.
Variable uid_of : nat -> string.
Variable date_plus : value -> value -> option string.

(** C1.  [normalizeData] is not total: on the document
    [{invoices: [null]}] the callback of [d.invoices.map] reads [inv.id] on
    [null] and the call ends in a [TypeError]; the same holds for a [null]
    entry of [clients] and for a [null] line item. *)
Theorem normalizeData_throws_on_null_entry (n : nat) :
  normalize todayISO uid_of date_plus (VObj [("invoices", VArr [VNull] [])]) n
    = Throw TypeError
  /\ normalize todayISO uid_of date_plus (VObj [("clients", VArr [VNull] [])]) n
    = Throw TypeError
  /\ normalize todayISO uid_of date_plus
       (VObj [("invoices", VArr [VObj [("items", VArr [VNull] [])]] [])]) n
    = Throw TypeError.
Proof. repeat split; reflexivity. Qed.

(** C2.  On [{invoices: [{}]}] the result has one invoice with status
    Draft, one blank line item (quantity 1, price 0), today as issue date
    and today plus the default 14 days as due date, but its tax rate is 0
    and not the default tax rate 19 of the settings: [toNumber] has already
    turned what does not parse into 0, so the test [Number.isFinite] that
    guards the default never fails.  A tax rate that does not parse, such
    as the string abc, becomes 0 in the same way. *)
Theorem normalizeData_empty_invoice_vatRate_zero (n : nat) :
  normalize todayISO uid_of date_plus (VObj [("invoices", VArr [VObj []] [])]) n
    = Ret (VObj [("invoices", VArr [repaired_empty_invoice todayISO uid_of date_plus n] []);
                 ("settings", VObj base_settings);
                 ("profile", VObj base_profile);
                 ("clients", VArr [] [])])
  /\ field "defaultVatRate" base_settings = VNum (Fin 19 0)
  /\ get (repaired_empty_invoice todayISO uid_of date_plus n) "vatRate" = Ret (VNum (Fin 0 0))
  /\ normalize todayISO uid_of date_plus
       (VObj [("invoices", VArr [VObj [("id", VStr "a"); ("dueDate", VStr "d");
                                        ("vatRate", VStr "abc"); ("items", VArr [] [])]] [])]) n
     = Ret (VObj [("invoices",
                   VArr [VObj [("id", VStr "a"); ("invoiceNumber", VStr "");
                               ("issueDate", VStr todayISO); ("dueDate", VStr "d");
                               ("clientId", VStr ""); ("status", VStr "Draft");
                               ("vatRate", VNum (Fin 0 0)); ("items", VArr [] []);
                               ("notes", VStr "")]] []);
                  ("settings", VObj base_settings);
                  ("profile", VObj base_profile);
                  ("clients", VArr [] [])]).
Proof. repeat split; reflexivity. Qed.

End Documents.

(* ================================================================== *)
(** * calcTotals *)
(* ================================================================== *)

Lemma get_not_nullish (v : value) (k : string) :
  nullish v = false -> get v k = Ret (get_opt v k).
Proof. destruct v; simpl; intros H; try discriminate; reflexivity. Qed.

Lemma stringable_nullish_else (v : value) :
  stringable v = true -> stringable (nullish_else v (VStr "")) = true.
Proof. destruct v; simpl; trivial. Qed.

Lemma toNumber_coerce (v : value) :
  stringable v = true -> toNumber v = Ret (coerce v).
Proof.
  intros H. apply stringable_nullish_else in H.
  unfold coerce, toNumber, stringable in *.
  destruct (js_String (nullish_else v (VStr ""))); [reflexivity | discriminate].
Qed.

Lemma coerce_finite (v : value) : is_finite (coerce v) = true.
Proof.
  unfold coerce. destruct (toNumber v) eqn:E; [|reflexivity].
  eapply toNumber_finite; eauto.
Qed.







(* ================================================================== *)
(** * importJSON *)
(* ================================================================== *)

Lemma truthy_not_nullish (v : value) : truthy v = true -> nullish v = false.
Proof. now destruct v. Qed.

Lemma import_rejects_rejected (parsed : value) :
  import_rejects parsed = Ret (import_rejected parsed).
Proof.
  unfold import_rejects, import_rejected, no_truthy_section.
  destruct (truthy parsed) eqn:E; simpl; [|reflexivity].
  apply truthy_not_nullish in E. now rewrite !get_not_nullish by assumption.
Qed.

Section ImportFile.

Variable todayISO : string.
Variable uid_of : nat -> string.
Variable date_plus : value -> value -> option string.
Variable JSON_parse : string -> option value.

(** C5, as the code has it.  Import rejects a document exactly when the
    parsed value is falsy or none of its [clients], [invoices], [settings]
    is truthy (absent, or present with a value such as [null], [0], [false]
    or the empty string).  A rejection leaves the state as it was, but for
    the one notice it raises.  A document that is not rejected and that
    [normalizeData] repairs into [d] replaces the state by [d], clears the
    active invoice and raises the notice Imported.  Importing the document
    with the single key foo is a rejection. *)
Theorem importJSON_rejects_or_replaces (text : string) (u : ui) :
  (import_rejected (safeParse JSON_parse text VNull) = true ->
     importJSON todayISO uid_of date_plus JSON_parse (Some text) u
       = (notify "Invalid JSON" u, Ret tt)
     /\ app (notify "Invalid JSON" u) = app u
     /\ activeInvoiceId (notify "Invalid JSON" u) = activeInvoiceId u
     /\ notices (notify "Invalid JSON" u) = "Invalid JSON" :: notices u)
  /\ (import_rejected (safeParse JSON_parse text VNull) = false ->
      forall (w : world) (d : value),
        normalizeData todayISO uid_of date_plus (safeParse JSON_parse text VNull) (uids u)
          = (w, Ret d) ->
        exists u' : ui,
          importJSON todayISO uid_of date_plus JSON_parse (Some text) u = (u', Ret tt)
          /\ app u' = d
          /\ activeInvoiceId u' = VNull
          /\ notices u' = "Imported" :: notices u)
  /\ (JSON_parse text = Some (VObj [("foo", VNum (Fin 1 0))]) ->
      importJSON todayISO uid_of date_plus JSON_parse (Some text) u
        = (notify "Invalid JSON" u, Ret tt)).
Proof.
  split; [|split].
  - intros H. unfold importJSON. rewrite import_rejects_rejected, H. auto.
  - intros H w d Hn. unfold importJSON. rewrite import_rejects_rejected, H, Hn.
    eexists. split; [reflexivity|]. auto.
  - intros H. unfold importJSON, safeParse. rewrite H. reflexivity.
Qed.

End ImportFile.

(** The statement above in the sample environment, for a parser that reads
    the document with the single key foo. *)
Lemma importJSON_rejects_foo :
  (fun _ : string => Some (VObj [("foo", VNum (Fin 1 0))])) "{}"
    = Some (VObj [("foo", VNum (Fin 1 0))])
  /\ importJSON sample_today sample_uid sample_date_plus
       (fun _ => Some (VObj [("foo", VNum (Fin 1 0))])) (Some "{}") (sample_ui base)
     = (notify "Invalid JSON" (sample_ui base), Ret tt).
Proof.
  split; [reflexivity|].
  apply (importJSON_rejects_or_replaces sample_today sample_uid sample_date_plus
           (fun _ => Some (VObj [("foo", VNum (Fin 1 0))])) "{}" (sample_ui base)).
  reflexivity.
Defined.

(** C5 as stated fails: the document whose only key is [settings], with
    the value [null], is an object that contains one of the three keys, and
    import rejects it. *)
Lemma importJSON_rejects_null_settings :
  has_key "settings" [("settings", VNull)] = true
  /\ importJSON sample_today sample_uid sample_date_plus
       (fun _ => Some (VObj [("settings", VNull)])) (Some "{}") (sample_ui base)
     = (notify "Invalid JSON" (sample_ui base), Ret tt).
Proof. split; reflexivity. Qed.

(* ================================================================== *)
(** * Order and canonical form of numbers *)
(* ================================================================== *)

Lemma pow10_pos (k : Z) : 0 <= k -> 0 < 10 ^ k.
Proof. intros H. apply Z.pow_pos_nonneg; lia. Qed.

(** The comparison can be made at any exponent below both. *)
Lemma leb_at (m1 e1 m2 e2 c : Z) :
  c <= e1 -> c <= e2 ->
  leb (Fin m1 e1) (Fin m2 e2) = (m1 * 10 ^ (e1 - c) <=? m2 * 10 ^ (e2 - c)).
Proof.
  intros H1 H2. unfold leb, align.
  set (e := Z.min e1 e2).
  assert (He : c <= e /\ e <= e1 /\ e <= e2) by (unfold e; lia).
  replace (e1 - c) with ((e1 - e) + (e - c)) by lia.
  replace (e2 - c) with ((e2 - e) + (e - c)) by lia.
  rewrite !Z.pow_add_r by lia.
  pose proof (pow10_pos (e - c) ltac:(lia)) as Hp.
  rewrite !Z.mul_assoc.
  apply Bool.eq_true_iff_eq. rewrite !Z.leb_le.
  split; intros H; nia.
Qed.

Lemma strip_value (fuel : nat) (m e : Z) :
  exists k : Z, 0 <= k /\ snd (strip fuel m e) = e + k /\ m = fst (strip fuel m e) * 10 ^ k.
Proof.
  revert m e. induction fuel as [|f IH]; intros m e; simpl.
  - exists 0. rewrite Z.pow_0_r. lia.
  - destruct (Z.eqb_spec (m mod 10) 0) as [H0|H0]; simpl.
    + destruct (IH (m / 10) (e + 1)) as (k & Hk & He & Hm).
      exists (k + 1). split; [lia|]. split; [lia|].
      rewrite Z.pow_add_r, Z.pow_1_r by lia.
      pose proof (Z.div_mod m 10 ltac:(lia)) as Hd. nia.
    + exists 0. rewrite Z.pow_0_r. lia.
Qed.

Lemma canon_value (m e : Z) :
  (m = 0 /\ canon m e = (0, 0))
  \/ exists k : Z, 0 <= k /\ snd (canon m e) = e + k /\ m = fst (canon m e) * 10 ^ k.
Proof.
  unfold canon. destruct (Z.eqb_spec m 0) as [->|Hm]; [left; auto|].
  right. apply strip_value.
Qed.

(** Comparing against the canonical form is comparing against the number. *)
Lemma leb_mk_r (x : num) (m e : Z) : leb x (mk m e) = leb x (Fin m e).
Proof.
  unfold mk. destruct (canon_value m e) as [[-> Hc]|(k & Hk & He & Hm)].
  - rewrite Hc. destruct x as [m1 e1| | |]; try reflexivity.
    rewrite (leb_at m1 e1 0 0 (Z.min e1 (Z.min 0 e))) by lia.
    rewrite (leb_at m1 e1 0 e (Z.min e1 (Z.min 0 e))) by lia.
    reflexivity.
  - destruct (canon m e) as [m' e']. simpl in He, Hm. subst e'.
    destruct x as [m1 e1| | |]; try reflexivity.
    rewrite (leb_at m1 e1 m' (e + k) (Z.min e1 e)) by lia.
    rewrite (leb_at m1 e1 m e (Z.min e1 e)) by lia.
    rewrite Hm at 1.
    replace (e + k - Z.min e1 e) with (k + (e - Z.min e1 e)) by lia.
    rewrite Z.pow_add_r by lia. now rewrite Z.mul_assoc.
Qed.

Lemma max_one_ge (n : num) : is_finite n = true -> leb one (Num.max one n) = true.
Proof.
  destruct n as [m e| | |]; try discriminate. intros _.
  unfold Num.max, one. destruct (leb (Fin 1 0) (Fin m e)) eqn:E; [exact E | reflexivity].
Qed.

Lemma max_one_finite (n : num) : is_finite n = true -> is_finite (Num.max one n) = true.
Proof.
  destruct n as [m e| | |]; try discriminate. intros _.
  unfold Num.max, one. now destruct (leb (Fin 1 0) (Fin m e)).
Qed.

(** Adding 1 to a number that is at least 1 gives a number that is at
    least 1. *)
Lemma succ_ge_one (x : num) :
  is_finite x = true -> leb one x = true -> leb one (add x one) = true.
Proof.
  destruct x as [m e| | |]; try discriminate. intros _ H.
  unfold add, one, align. rewrite leb_mk_r.
  unfold one in H. rewrite (leb_at 1 0 m e (Z.min e 0)) in H by lia.
  rewrite (leb_at 1 0 _ (Z.min e 0) (Z.min e 0)) by lia.
  rewrite Z.sub_diag, Z.pow_0_r, Z.mul_1_r.
  apply Z.leb_le in H. apply Z.leb_le.
  pose proof (pow10_pos (0 - Z.min e 0) ltac:(lia)). lia.
Qed.

(* ================================================================== *)
(** * The run of normalizeData *)
(* ================================================================== *)

Lemma is_object_objlike (v : value) : is_object v = objlike v.
Proof.
  destruct v; unfold is_object; simpl; rewrite ?andb_false_r; reflexivity.
Qed.

Lemma get_objlike (v : value) (k : string) :
  objlike v = true -> get v k = Ret (get_opt v k).
Proof. destruct v; simpl; intros H; try discriminate; reflexivity. Qed.

Lemma objlike_put (k : string) (v o : value) : objlike (put k v o) = objlike o.
Proof. now destruct o. Qed.

Lemma get_opt_put_eq (k : string) (v o : value) :
  objlike o = true -> get_opt (put k v o) k = v.
Proof. destruct o; simpl; intros H; try discriminate; apply field_assign_eq. Qed.

Lemma get_opt_put_neq (k k' : string) (v o : value) :
  k <> k' -> get_opt (put k v o) k' = get_opt o k'.
Proof. intros H. destruct o; simpl; trivial; now apply field_assign_neq. Qed.

Lemma put_same (k : string) (o : value) (ps : props) :
  lookup k ps = Some (get_opt o k) -> (o = VObj ps \/ exists es, o = VArr es ps) ->
  put k (get_opt o k) o = o.
Proof.
  intros H [->|[es ->]]; simpl in *; now rewrite assign_same.
Qed.

Lemma stable_ret {A : Type} (a : A) : stable (ret a).
Proof. now intros w. Qed.

Lemma stable_lift {A : Type} (o : outcome A) : stable (lift o).
Proof. now intros w. Qed.

Lemma stable_read (k : string) : stable (read k).
Proof. now intros w. Qed.

Lemma stable_bind {A B : Type} (c : M A) (k : A -> M B) :
  stable c -> (forall a, stable (k a)) -> stable (bind c k).
Proof.
  intros Hc Hk w. unfold bind. specialize (Hc w).
  destruct (c w) as [w' [a|e]]; simpl in *; [|exact Hc].
  now rewrite Hk.
Qed.

Lemma stable_mapM {A B : Type} (f : A -> M B) (l : list A) :
  (forall a, stable (f a)) -> stable (mapM f l).
Proof.
  intros Hf. induction l as [|x r IH]; simpl.
  - apply stable_ret.
  - apply stable_bind; [apply Hf|]. intros y.
    apply stable_bind; [exact IH|]. intros ys. apply stable_ret.
Qed.

Lemma stable_if {A : Type} (b : bool) (c1 c2 : M A) :
  stable c1 -> stable c2 -> stable (if b then c1 else c2).
Proof. now destruct b. Qed.

Section Run.

Variable todayISO : string.
Variable uid_of : nat -> string.
Variable date_plus : value -> value -> option string.

Lemma stable_uid : stable (uid uid_of).
Proof. now intros w. Qed.

Create HintDb stable.
#[local] Hint Resolve stable_ret stable_lift stable_read stable_uid : stable.

Ltac stable_steps :=
  repeat first
    [ apply stable_bind; [|intros ?]
    | apply stable_if
    | apply stable_mapM; intros ?
    | solve [auto with stable] ].

Lemma stable_normalize_item (it : value) : stable (normalize_item uid_of it).
Proof. unfold normalize_item. stable_steps. Qed.

Lemma stable_normalize_invoice (inv : value) :
  stable (normalize_invoice todayISO uid_of date_plus inv).
Proof.
  unfold normalize_invoice. stable_steps.
Qed.

Lemma stable_normalize_client (c : value) : stable (normalize_client uid_of c).
Proof. unfold normalize_client. stable_steps. Qed.

Lemma normalizeData_body_prepared (w : world) :
  objlike (target w) = true ->
  normalizeData_body todayISO uid_of date_plus w
  = repair_collections todayISO uid_of date_plus (with_target (prepared (target w)) w).
Proof.
  destruct w as [d n]. simpl. intros H.
  destruct d; try discriminate; reflexivity.
Qed.

End Run.

Section RunCollections.

Variable todayISO : string.
Variable uid_of : nat -> string.
Variable date_plus : value -> value -> option string.

Let repair := repair_collections todayISO uid_of date_plus.
Let invoiceM := mapM (normalize_invoice todayISO uid_of date_plus).
Let clientM := mapM (normalize_client uid_of).

Lemma repair_collections_run (w : world) :
  objlike (target w) = true -> repair_run todayISO uid_of date_plus w (repair w).
Proof.
  intros Hobj. unfold repair, repair_collections.
  unfold bind at 1, read at 1. rewrite get_objlike by assumption.
  unfold bind at 1.
  pose proof (stable_mapM (normalize_invoice todayISO uid_of date_plus)
                (elems (get_opt (target w) "invoices"))
                (stable_normalize_invoice todayISO uid_of date_plus) w) as Hs1.
  destruct (mapM _ (elems (get_opt (target w) "invoices")) w) as [w1 [invs|e]] eqn:E1;
    simpl in Hs1.
  2:{ now apply run_invoices_throw. }
  unfold bind at 1, write at 1. unfold bind at 1, read at 1. cbn [target].
  rewrite Hs1.
  rewrite get_objlike by (now rewrite objlike_put).
  rewrite get_opt_put_neq by discriminate.
  unfold bind at 1.
  pose proof (stable_mapM (normalize_client uid_of)
                (elems (get_opt (target w) "clients"))
                (stable_normalize_client uid_of)
                (with_target (put "invoices" (VArr invs []) (target w)) w1)) as Hs2.
  unfold with_target in *.
  destruct (mapM _ (elems (get_opt (target w) "clients")) _) as [w2 [cls|e]] eqn:E2;
    simpl in Hs2.
  2:{ eapply run_clients_throw; eauto. }
  unfold bind, write, current. cbn [target issued]. rewrite Hs2.
  eapply run_done; eauto.
Qed.

(** Lines 123-153 write the keys [invoices] and [clients] only. *)
Lemma repair_collections_frame (w : world) (k : string) :
  objlike (target w) = true -> k <> "invoices" -> k <> "clients" ->
  get_opt (target (fst (repair w))) k = get_opt (target w) k.
Proof.
  intros Hobj Hi Hc.
  destruct (repair_collections_run w Hobj) as [w1 e H1 Ht|w1 w2 invs e H1 H2 Ht|w1 w2 invs cls H1 H2];
    simpl.
  - now rewrite Ht.
  - rewrite Ht. apply get_opt_put_neq. congruence.
  - rewrite !get_opt_put_neq by congruence. reflexivity.
Qed.

Lemma prepared_objlike (d : value) : objlike (prepared d) = objlike d.
Proof. unfold prepared. now rewrite !objlike_put. Qed.

Lemma prepared_frame (d : value) (k : string) :
  ~ In k ["settings"; "profile"; "clients"; "invoices"] ->
  get_opt (prepared d) k = get_opt d k.
Proof.
  simpl. intros H. unfold prepared.
  rewrite !get_opt_put_neq; trivial; intros <-; tauto.
Qed.

Lemma prepared_settings (d : value) :
  objlike d = true ->
  get_opt (prepared d) "settings" = merged base_settings (get_opt d "settings").
Proof.
  intros H. unfold prepared.
  rewrite !get_opt_put_neq by discriminate. now apply get_opt_put_eq.
Qed.

Lemma subject_objlike (raw : value) : objlike (subject raw) = true.
Proof.
  unfold subject. rewrite is_object_objlike.
  now destruct (objlike raw) eqn:E.
Qed.

Lemma normalizeData_repair (raw : value) (n : nat) :
  normalizeData todayISO uid_of date_plus raw n
  = repair (with_target (prepared (subject raw)) {| target := subject raw; issued := n |}).
Proof.
  unfold normalizeData. fold (subject raw).
  rewrite normalizeData_body_prepared; [reflexivity|]. apply subject_objlike.
Qed.

(** The value returned is the object written into, made of the prepared
    object and of the two repaired collections. *)
Lemma normalize_returns (raw : value) (n : nat) (d : value) :
  normalize todayISO uid_of date_plus raw n = Ret d ->
  target (fst (normalizeData todayISO uid_of date_plus raw n)) = d
  /\ exists (w1 w2 : world) (invs cls : list value),
       invoiceM (elems (get_opt (prepared (subject raw)) "invoices"))
         {| target := prepared (subject raw); issued := n |} = (w1, Ret invs)
       /\ clientM (elems (get_opt (prepared (subject raw)) "clients"))
            (with_target (put "invoices" (VArr invs []) (prepared (subject raw))) w1)
          = (w2, Ret cls)
       /\ d = put "clients" (VArr cls [])
                (put "invoices" (VArr invs []) (prepared (subject raw))).
Proof.
  unfold normalize. rewrite normalizeData_repair.
  assert (Hobj : objlike (target (with_target (prepared (subject raw))
                                    {| target := subject raw; issued := n |})) = true)
    by (simpl; rewrite prepared_objlike; apply subject_objlike).
  destruct (repair_collections_run _ Hobj)
    as [w1 e H1 Ht|w1 w2 invs e H1 H2 Ht|w1 w2 invs cls H1 H2];
    simpl; intros Hd; try discriminate.
  inversion Hd; subst d. split; [reflexivity|].
  exists w1, w2, invs, cls. auto.
Qed.

End RunCollections.

(* ================================================================== *)
(** * normalizeData writes into its argument *)
(* ================================================================== *)

Section Aliasing.

Variable todayISO : string.
Variable uid_of : nat -> string.
Variable date_plus : value -> value -> option string.

(** C7, as the code has it.  [normalizeData] leaves a [raw] that is not an
    object as it is.  When [raw] is an object, the function assigns
    [raw.settings], [raw.profile], [raw.clients] and [raw.invoices] in
    place: the value it returns is [raw] itself as it stands after the
    call, and every other property of [raw] is as before, also when the
    call throws. *)
Theorem normalizeData_assigns_into_raw (raw : value) (n : nat) :
  (is_object raw = false -> raw_after todayISO uid_of date_plus raw n = raw)
  /\ (is_object raw = true ->
      (forall d : value,
          normalize todayISO uid_of date_plus raw n = Ret d ->
          raw_after todayISO uid_of date_plus raw n = d)
      /\ (forall k : string,
            ~ In k written_keys ->
            get_opt (raw_after todayISO uid_of date_plus raw n) k = get_opt raw k)).
Proof.
  unfold raw_after. split; intros H; rewrite H; [reflexivity|]. split.
  - intros d Hd. now apply normalize_returns in Hd as [Hd _].
  - intros k Hk. rewrite normalizeData_repair.
    rewrite repair_collections_frame.
    + cbn [with_target target]. rewrite prepared_frame by assumption.
      unfold subject. now rewrite H.
    + cbn [with_target target]. rewrite prepared_objlike. apply subject_objlike.
    + intros ->. apply Hk. simpl. tauto.
    + intros ->. apply Hk. simpl. tauto.
Qed.

End Aliasing.

(** The statement above for a document with the single key foo. *)
Lemma normalizeData_assigns_into_raw_sample :
  is_object (VObj [("foo", VNum (Fin 1 0))]) = true
  /\ (forall d : value,
         normalize sample_today sample_uid sample_date_plus
           (VObj [("foo", VNum (Fin 1 0))]) 0 = Ret d ->
         raw_after sample_today sample_uid sample_date_plus
           (VObj [("foo", VNum (Fin 1 0))]) 0 = d)
  /\ (forall k : string,
         ~ In k written_keys ->
         get_opt (raw_after sample_today sample_uid sample_date_plus
                    (VObj [("foo", VNum (Fin 1 0))]) 0) k
         = get_opt (VObj [("foo", VNum (Fin 1 0))]) k).
Proof.
  split; [reflexivity|].
  apply (proj2 (normalizeData_assigns_into_raw sample_today sample_uid sample_date_plus
                  (VObj [("foo", VNum (Fin 1 0))]) 0)).
  reflexivity.
Defined.

(** C7 as stated fails: after [normalizeData(raw)] on the empty object
    [raw], [raw] has the four properties of a state. *)
Lemma normalizeData_modifies_empty_object :
  raw_after sample_today sample_uid sample_date_plus (VObj []) 0 = base
  /\ keys [] = []
  /\ match base with VObj ps => keys ps | _ => [] end = written_keys.
Proof. repeat split; reflexivity. Qed.

(* ================================================================== *)
(** * The invoice counter *)
(* ================================================================== *)

Lemma obind_Ret_inv {A B : Type} (c : outcome A) (k : A -> outcome B) (b : B) :
  obind c k = Ret b -> exists a : A, c = Ret a /\ k a = Ret b.
Proof. destruct c as [a|e]; simpl; [eauto | discriminate]. Qed.

Ltac obind_inv H :=
  repeat (let a := fresh "a" in let Ha := fresh "Ha" in
          apply obind_Ret_inv in H as (a & Ha & H)).

Lemma lookup_fold_assign (k : string) (ps acc : props) :
  NoDup (keys ps) ->
  lookup k (fold_left (fun a kv => assign (fst kv) (snd kv) a) ps acc)
  = match lookup k ps with Some v => Some v | None => lookup k acc end.
Proof.
  revert acc. induction ps as [|[k0 v0] r IH]; simpl; intros acc Hnd; [reflexivity|].
  inversion Hnd as [|? ? Hk Hr]; subst. rewrite IH by assumption.
  destruct (String.eqb_spec k0 k) as [->|Hne].
  - apply (proj2 (lookup_None_keys k r)) in Hk. rewrite Hk.
    apply lookup_assign_eq.
  - destruct (lookup k r); [reflexivity|]. now apply lookup_assign_neq.
Qed.

(** In [{...acc, ...o}] the properties of [o] win. *)
Lemma field_spread_obj (k : string) (acc ps : props) :
  NoDup (keys ps) ->
  field k (spread acc (VObj ps))
  = match lookup k ps with Some v => v | None => field k acc end.
Proof.
  intros H. unfold field, spread. simpl. rewrite lookup_fold_assign by assumption.
  now destruct (lookup k ps).
Qed.


Lemma counter_with_new_invoice (a settings invoices : value) (n : num) :
  counter (with_new_invoice a settings n invoices) = VNum (add n one).
Proof.
  unfold counter, with_new_invoice. cbn [get_opt].
  rewrite field_assign_neq by discriminate. rewrite field_assign_eq.
  cbn [get_opt]. apply field_assign_eq.
Qed.

Section Counter.

Variable todayISO : string.
Variable uid_of : nat -> string.
Variable date_plus : value -> value -> option string.


End Counter.



(* ================================================================== *)
(** * Records *)
(* ================================================================== *)

Lemma distinct_NoDup (l : list string) : distinct l = true -> NoDup l.
Proof.
  induction l as [|k r IH]; simpl; intros H; constructor.
  - apply andb_prop in H as [H _]. apply negb_true_iff in H.
    intros Hin. assert (existsb (String.eqb k) r = true); [|congruence].
    apply existsb_exists. exists k. split; [assumption | apply String.eqb_refl].
  - apply andb_prop in H as [_ H]. now apply IH.
Qed.

Lemma is_record_inv (v : value) :
  is_record v = true -> exists ps, v = VObj ps /\ NoDup (keys ps).
Proof.
  destruct v; try discriminate. simpl. intros H.
  eexists. split; [reflexivity | now apply distinct_NoDup].
Qed.

Lemma is_record_not_nullish (v : value) : is_record v = true -> nullish v = false.
Proof. now destruct v. Qed.

Lemma omap_map {A B : Type} (f : A -> outcome B) (g : A -> B) (l : list A) :
  (forall x, In x l -> f x = Ret (g x)) -> omap f l = Ret (map g l).
Proof.
  induction l as [|x r IH]; simpl; intros H; [reflexivity|].
  rewrite H by now left. simpl. rewrite IH by (intros; apply H; now right).
  reflexivity.
Qed.

Lemma forallb_In {A : Type} (p : A -> bool) (l : list A) (x : A) :
  forallb p l = true -> In x l -> p x = true.
Proof. intros H Hin. rewrite forallb_forall in H. now apply H. Qed.

Lemma find_by_id_total (id : value) (l : list value) :
  forallb (fun x => negb (nullish x)) l = true ->
  exists c, find_by_id id l = Ret c /\ (c = VUndef \/ In c l).
Proof.
  induction l as [|x r IH]; simpl; intros H; [eauto|].
  apply andb_prop in H as [Hx Hr]. apply negb_true_iff in Hx.
  rewrite get_not_nullish by assumption. simpl.
  destruct (strict_eq (get_opt x "id") id); [eauto|].
  destruct (IH Hr) as (c & Hc & Hin). exists c. tauto.
Qed.

Lemma remove_by_id_total (id : value) (l : list value) :
  forallb (fun x => negb (nullish x)) l = true ->
  exists l', remove_by_id id l = Ret l'.
Proof.
  induction l as [|x r IH]; simpl; intros H; [eauto|].
  apply andb_prop in H as [Hx Hr]. apply negb_true_iff in Hx.
  rewrite get_not_nullish by assumption. simpl.
  destruct (IH Hr) as (l' & ->). simpl. eauto.
Qed.

Lemma setApp_same (u : ui) : setApp (app u) u = u.
Proof. now destruct u. Qed.

(* ================================================================== *)
(** * deleteClient *)
(* ================================================================== *)

Lemma clear_client_cleared (id inv : value) :
  is_record inv = true -> clear_client id inv = Ret (cleared id inv).
Proof.
  intros H. unfold clear_client, cleared, refers_to.
  rewrite get_not_nullish by now apply is_record_not_nullish. simpl.
  apply is_record_inv in H as (ps & -> & Hnd).
  now rewrite spread_nil_obj.
Qed.

Lemma confirm_name_total (a id : value) (cls : list value) (own : props) :
  nullish a = false ->
  get_opt a "clients" = VArr cls own ->
  forallb client_ok cls = true ->
  exists s, confirm_name a id = Ret s.
Proof.
  intros Ha Hc Hok. unfold confirm_name.
  rewrite get_not_nullish, Hc by assumption. simpl.
  destruct (find_by_id_total id cls) as (c & -> & Hin).
  { apply forallb_forall. intros x Hx.
    apply (forallb_In _ _ _ Hok) in Hx. apply andb_prop in Hx as [Hx _].
    apply is_record_not_nullish in Hx. now rewrite Hx. }
  simpl. destruct Hin as [->|Hin]; [simpl; eauto|].
  apply (forallb_In _ _ _ Hok) in Hin. apply andb_prop in Hin as [_ Hn].
  destruct (or_else (get_opt c "name") (VStr "this client")); try discriminate. eauto.
Qed.

(** C8.  In a state whose invoices and clients are records, deleting a
    client (the confirmation given) returns a state with the same invoices
    in the same order, each one as it was except that an invoice that
    referred to the client has [clientId] set to the empty string; no
    other property of an invoice changes. *)
Theorem deleteClient_keeps_invoices
    (id : value) (u : ui) (invs cls : list value) (oi oc : props) :
  nullish (app u) = false ->
  get_opt (app u) "invoices" = VArr invs oi ->
  get_opt (app u) "clients" = VArr cls oc ->
  forallb is_record invs = true ->
  forallb client_ok cls = true ->
  exists u' : ui,
    deleteClient id true u = Ret u'
    /\ get_opt (app u') "invoices" = VArr (map (cleared id) invs) []
    /\ List.length (map (cleared id) invs) = List.length invs
    /\ (forall inv : value,
          In inv invs ->
          (refers_to id inv = true -> get_opt (cleared id inv) "clientId" = VStr "")
          /\ (refers_to id inv = false -> cleared id inv = inv)
          /\ (forall k : string,
                k <> "clientId" -> get_opt (cleared id inv) k = get_opt inv k)).
Proof.
  intros Ha Hi Hc Hinv Hcl.
  destruct (confirm_name_total (app u) id cls oc Ha Hc Hcl) as (s & Hs).
  assert (Hnn : forallb (fun x => negb (nullish x)) cls = true).
  { apply forallb_forall. intros x Hx.
    apply (forallb_In _ _ _ Hcl) in Hx. apply andb_prop in Hx as [Hx _].
    apply is_record_not_nullish in Hx. now rewrite Hx. }
  destruct (remove_by_id_total id cls Hnn) as (cls' & Hrm).
  unfold deleteClient. rewrite Hs. cbn [obind negb]. unfold without_client.
  rewrite !get_not_nullish by assumption. rewrite Hi, Hc. cbn [obind or_else truthy as_array].
  rewrite (omap_map _ (cleared id)).
  2:{ intros x Hx. apply clear_client_cleared. eapply forallb_In; eauto. }
  cbn [obind]. rewrite Hrm. cbn [obind].
  eexists. split; [reflexivity|]. cbn [app notify setApp get_opt].
  split; [apply field_assign_eq|]. split; [apply length_map|].
  intros inv Hin. unfold cleared.
  apply (forallb_In _ _ _ Hinv) in Hin. apply is_record_inv in Hin as (ps & -> & _).
  destruct (refers_to id (VObj ps)); repeat split; try discriminate; trivial.
  - intros _. cbn [put get_opt]. apply field_assign_eq.
  - intros k Hk. cbn [put get_opt]. apply field_assign_neq. congruence.
Qed.

(** The statement above for the deletion of the client [c1] of the sample
    state. *)
Lemma deleteClient_keeps_invoices_sample :
  nullish (app (sample_ui sample_state)) = false
  /\ get_opt (app (sample_ui sample_state)) "invoices" = VArr sample_invoices []
  /\ get_opt (app (sample_ui sample_state)) "clients" = VArr sample_clients []
  /\ forallb is_record sample_invoices = true
  /\ forallb client_ok sample_clients = true
  /\ exists u' : ui,
       deleteClient (VStr "c1") true (sample_ui sample_state) = Ret u'
       /\ get_opt (app u') "invoices" = VArr (map (cleared (VStr "c1")) sample_invoices) []
       /\ List.length (map (cleared (VStr "c1")) sample_invoices) = List.length sample_invoices
       /\ (forall inv : value,
             In inv sample_invoices ->
             (refers_to (VStr "c1") inv = true ->
              get_opt (cleared (VStr "c1") inv) "clientId" = VStr "")
             /\ (refers_to (VStr "c1") inv = false -> cleared (VStr "c1") inv = inv)
             /\ (forall k : string,
                   k <> "clientId" ->
                   get_opt (cleared (VStr "c1") inv) k = get_opt inv k)).
Proof.
  do 5 (split; [reflexivity|]).
  apply (deleteClient_keeps_invoices (VStr "c1") (sample_ui sample_state)
           sample_invoices sample_clients [] []); reflexivity.
Defined.

(* ================================================================== *)
(** * upsertInvoice *)
(* ================================================================== *)

Lemma merge_patch_patched (patch x : value) :
  nullish patch = false -> is_record x = true ->
  merge_patch patch x = Ret (patched patch x).
Proof.
  intros Hp Hx. unfold merge_patch, patched, matches.
  rewrite !get_not_nullish by (trivial; now apply is_record_not_nullish). simpl.
  apply is_record_inv in Hx as (ps & -> & Hnd).
  now rewrite spread_nil_obj.
Qed.

Lemma map_patched_none (patch : value) (l : list value) :
  forallb (fun x => negb (matches patch x)) l = true -> map (patched patch) l = l.
Proof.
  induction l as [|x r IH]; simpl; intros H; [reflexivity|].
  apply andb_prop in H as [Hx Hr]. apply negb_true_iff in Hx.
  unfold patched at 1. rewrite Hx. now rewrite IH.
Qed.

(** C10.  In a state that is a record whose invoices are records,
    [upsertInvoice(patch)] replaces every invoice whose [id] is that of the
    patch by the invoice merged with the patch, in which the properties of
    the patch win, and leaves every other invoice as it is; the list keeps
    its length and order.  When no invoice has the [id] of the patch the
    state is unchanged. *)
Theorem upsertInvoice_replaces_matching
    (patch : value) (pp ps : props) (u : ui) (invs : list value) :
  patch = VObj pp ->
  NoDup (keys pp) ->
  app u = VObj ps ->
  NoDup (keys ps) ->
  lookup "invoices" ps = Some (VArr invs []) ->
  forallb is_record invs = true ->
  upsertInvoice patch u
    = Ret (setApp (VObj (assign "invoices" (VArr (map (patched patch) invs) []) ps)) u)
  /\ List.length (map (patched patch) invs) = List.length invs
  /\ (forall x : value,
        In x invs ->
        (matches patch x = false -> patched patch x = x)
        /\ (matches patch x = true ->
            forall k : string,
              get_opt (patched patch x) k
              = match lookup k pp with Some v => v | None => get_opt x k end))
  /\ (forallb (fun x => negb (matches patch x)) invs = true ->
      upsertInvoice patch u = Ret u).
Proof.
  intros -> Hpp Ha Hps Hl Hinv.
  assert (Hup : upsertInvoice (VObj pp) u
                = Ret (setApp (VObj (assign "invoices"
                                       (VArr (map (patched (VObj pp)) invs) []) ps)) u)).
  { unfold upsertInvoice. rewrite Ha. cbn [get obind]. unfold field. rewrite Hl.
    cbn [or_else truthy as_array obind].
    rewrite (omap_map _ (patched (VObj pp))).
    2:{ intros x Hx. apply merge_patch_patched; [reflexivity|]. eapply forallb_In; eauto. }
    cbn [obind]. now rewrite spread_nil_obj. }
  split; [exact Hup|]. split; [apply length_map|]. split.
  - intros x Hx. unfold patched. split; intros ->; [reflexivity|].
    intros k. apply (forallb_In _ _ _ Hinv) in Hx.
    apply is_record_inv in Hx as (px & -> & _).
    cbn [get_opt own_props]. now apply field_spread_obj.
  - intros Hnone. rewrite Hup, map_patched_none by assumption.
    rewrite assign_same by assumption. rewrite <- Ha. now rewrite setApp_same.
Qed.

(** The statement above for a patch of the notes of the second invoice of
    the sample state. *)
Lemma upsertInvoice_replaces_matching_sample :
  NoDup (keys sample_patch_props)
  /\ NoDup (keys sample_state_props)
  /\ lookup "invoices" sample_state_props = Some (VArr sample_invoices [])
  /\ forallb is_record sample_invoices = true
  /\ upsertInvoice (VObj sample_patch_props) (sample_ui sample_state)
     = Ret (setApp (VObj (assign "invoices"
                            (VArr (map (patched (VObj sample_patch_props)) sample_invoices) [])
                            sample_state_props))
              (sample_ui sample_state)).
Proof.
  assert (H1 : NoDup (keys sample_patch_props)) by (apply distinct_NoDup; reflexivity).
  assert (H2 : NoDup (keys sample_state_props)) by (apply distinct_NoDup; reflexivity).
  do 2 (split; [assumption|]). do 2 (split; [reflexivity|]).
  apply (upsertInvoice_replaces_matching (VObj sample_patch_props) sample_patch_props
           sample_state_props (sample_ui sample_state) sample_invoices);
    trivial; reflexivity.
Defined.

(* ================================================================== *)
(** * Runs of digits *)
(* ================================================================== *)

#[local] Arguments is_digit : simpl never.

Lemma length_append (s t : string) :
  String.length (s ++ t) = (String.length s + String.length t)%nat.
Proof. induction s as [|c r IH]; simpl; [reflexivity | now rewrite IH]. Qed.

Lemma app_empty_r (s : string) : s ++ "" = s.
Proof. induction s as [|c r IH]; simpl; [reflexivity | now rewrite IH]. Qed.

Lemma app_assoc_s (s t u : string) : (s ++ t) ++ u = s ++ (t ++ u).
Proof. induction s as [|c r IH]; simpl; [reflexivity | now rewrite IH]. Qed.

Lemma only_digits_app (s t : string) :
  only_digits (s ++ t) = only_digits s && only_digits t.
Proof.
  induction s as [|c r IH]; simpl; [reflexivity|].
  now rewrite IH, andb_assoc.
Qed.

Lemma only_digits_zeros (n : nat) : only_digits (zeros n) = true.
Proof. induction n; simpl; trivial. Qed.

Lemma length_zeros (n : nat) : String.length (zeros n) = n.
Proof. induction n; simpl; auto. Qed.

Lemma span_digits_app (ds rest : string) :
  only_digits ds = true -> starts_with_digit rest = false ->
  span_digits (ds ++ rest) = (ds, rest).
Proof.
  intros Hd Hr. induction ds as [|c r IH]; simpl in *.
  - destruct rest as [|c r]; [reflexivity|]. simpl in *. now rewrite Hr.
  - apply andb_prop in Hd as [Hc Hd]. rewrite Hc, IH by assumption. reflexivity.
Qed.

Lemma span_digits_all (ds : string) :
  only_digits ds = true -> span_digits ds = (ds, "").
Proof.
  intros H. rewrite <- (app_empty_r ds) at 1. now apply span_digits_app.
Qed.

Lemma only_digits_uint (d : Decimal.uint) :
  only_digits (NilEmpty.string_of_uint d) = true.
Proof. induction d; simpl; rewrite ?IHd; reflexivity. Qed.

Lemma only_digits_digits (n : N) : only_digits (digits n) = true.
Proof. apply only_digits_uint. Qed.

Lemma string_of_uint_empty (d : Decimal.uint) :
  NilEmpty.string_of_uint d = "" -> d = Decimal.Nil.
Proof. destruct d; simpl; intros H; trivial; discriminate. Qed.

Lemma digits_nonempty (n : N) : digits n <> "".
Proof.
  unfold digits. intros H. apply string_of_uint_empty in H.
  destruct n as [|p]; simpl in H; [discriminate|].
  now apply Unsigned.to_uint_nonnil in H.
Qed.

Lemma length_pos_nonempty (s : string) : s <> "" -> (1 <= String.length s)%nat.
Proof. destruct s; simpl; [congruence | lia]. Qed.

Lemma substring_0_app (s t : string) :
  substring 0 (String.length s) (s ++ t) = s.
Proof. induction s as [|c r IH]; simpl; [now destruct t | now rewrite IH]. Qed.

Lemma substring_skip_app (s t : string) (n : nat) :
  substring (String.length s) n (s ++ t) = substring 0 n t.
Proof. induction s as [|c r IH]; simpl; [reflexivity | exact IH]. Qed.

Lemma substring_0_all (s : string) : substring 0 (String.length s) s = s.
Proof. induction s as [|c r IH]; simpl; [reflexivity | now rewrite IH]. Qed.

(** A string is its first [n] characters followed by the others. *)
Lemma substring_split (s : string) (n : nat) :
  (n <= String.length s)%nat ->
  s = substring 0 n s ++ substring n (String.length s - n) s.
Proof.
  revert n. induction s as [|c r IH]; intros n H; simpl in *.
  - destruct n; [reflexivity | lia].
  - destruct n as [|n]; simpl.
    + now rewrite substring_0_all.
    + f_equal. apply IH. lia.
Qed.

Lemma length_substring_0 (s : string) (n : nat) :
  (n <= String.length s)%nat -> String.length (substring 0 n s) = n.
Proof.
  revert n. induction s as [|c r IH]; intros n H; simpl in *.
  - destruct n; [reflexivity | lia].
  - destruct n as [|n]; simpl; [reflexivity|]. rewrite IH; lia.
Qed.

(** The two parts of a run of digits cut at [n]. *)
Lemma cut_digits (s : string) (n : nat) :
  only_digits s = true -> (n <= String.length s)%nat ->
  only_digits (substring 0 n s) = true
  /\ only_digits (substring n (String.length s - n) s) = true
  /\ String.length (substring 0 n s) = n
  /\ String.length (substring n (String.length s - n) s) = (String.length s - n)%nat.
Proof.
  intros Hd Hn. pose proof (substring_split s n Hn) as Hs.
  pose proof (length_substring_0 s n Hn) as Hl.
  assert (Hd' := Hd). rewrite Hs, only_digits_app in Hd'.
  apply andb_prop in Hd' as [H1 H2].
  assert (Hlen := f_equal String.length Hs). rewrite length_append, Hl in Hlen.
  repeat split; trivial. lia.
Qed.

(* ================================================================== *)
(** * toFixed(2) *)
(* ================================================================== *)




(* ================================================================== *)
(** * The stable sort *)
(* ================================================================== *)

Section Sorting.

Variable localeCompare : string -> string -> Z.

Hypothesis compare_total :
  forall a b : string, localeCompare a b <= 0 \/ localeCompare b a <= 0.

Hypothesis compare_trans :
  forall a b c : string,
    localeCompare a b <= 0 -> localeCompare b c <= 0 -> localeCompare a c <= 0.

Lemma insert_by_key_perm (x : string * value) (l : list (string * value)) :
  Permutation (insert_by_key localeCompare x l) (x :: l).
Proof.
  induction l as [|y r IH]; simpl; [reflexivity|].
  destruct (localeCompare (fst y) (fst x) <=? 0); [reflexivity|].
  rewrite IH. apply perm_swap.
Qed.

Lemma sort_by_key_perm (l : list (string * value)) :
  Permutation (sort_by_key localeCompare l) l.
Proof.
  induction l as [|x r IH]; simpl; [reflexivity|].
  rewrite insert_by_key_perm. now constructor.
Qed.

Lemma insert_by_key_sorted (x : string * value) (l : list (string * value)) :
  StronglySorted (before localeCompare) l -> StronglySorted (before localeCompare) (insert_by_key localeCompare x l).
Proof.
  induction 1 as [|y r Hs IH Hall]; simpl.
  - repeat constructor.
  - destruct (Z.leb_spec (localeCompare (fst y) (fst x)) 0) as [Hle|Hgt].
    + constructor; [now constructor|]. constructor; [exact Hle|].
      eapply Forall_impl; [|exact Hall]. intros z Hz. unfold before in *.
      eapply compare_trans; eauto.
    + constructor; [exact IH|].
      eapply Permutation_Forall; [symmetry; apply insert_by_key_perm|].
      constructor; [|exact Hall].
      unfold before. destruct (compare_total (fst x) (fst y)); [assumption | lia].
Qed.

Lemma sort_by_key_sorted (l : list (string * value)) :
  StronglySorted (before localeCompare) (sort_by_key localeCompare l).
Proof.
  induction l as [|x r IH]; simpl; [constructor | now apply insert_by_key_sorted].
Qed.

End Sorting.

(* ================================================================== *)
(** * exportCSV *)
(* ================================================================== *)


Lemma stringable_or_else (v : value) (s : string) :
  stringable v = true -> stringable (or_else v (VStr s)) = true.
Proof. unfold or_else. now destruct (truthy v). Qed.


Lemma sort_key_issue_key (inv : value) :
  nullish inv = false -> stringable (get_opt inv "issueDate") = true ->
  sort_key inv = Ret (issue_key inv).
Proof.
  intros Hn Hs. unfold sort_key, issue_key. rewrite get_not_nullish by assumption.
  simpl. apply (stringable_or_else _ "") in Hs. unfold stringable in Hs.
  destruct (js_String (or_else (get_opt inv "issueDate") (VStr ""))); [reflexivity | discriminate].
Qed.

Lemma fill_map_fold (cs : list value) (m : list (value * value)) :
  forallb (fun c => negb (nullish c)) cs = true ->
  fill_map cs m = Ret (fold_left (fun m c => map_set (get_opt c "id") c m) cs m).
Proof.
  revert m. induction cs as [|c r IH]; simpl; intros m H; [reflexivity|].
  apply andb_prop in H as [Hc Hr]. apply negb_true_iff in Hc.
  rewrite get_not_nullish by assumption. simpl. now apply IH.
Qed.






Lemma map_snd_combine {A B : Type} (f : B -> A) (l : list B) :
  map snd (combine (map f l) l) = l.
Proof. induction l as [|x r IH]; simpl; [reflexivity | now rewrite IH]. Qed.

Lemma combine_keyed {A B : Type} (f : B -> A) (l : list B) :
  Forall (fun p => fst p = f (snd p)) (combine (map f l) l).
Proof. induction l as [|x r IH]; simpl; constructor; trivial. Qed.






Section ExportOrder.

Variable localeCompare : string -> string -> Z.



Hypothesis compare_total :
  forall a b : string, localeCompare a b <= 0 \/ localeCompare b a <= 0.

Hypothesis compare_trans :
  forall a b c : string,
    localeCompare a b <= 0 -> localeCompare b c <= 0 -> localeCompare a c <= 0.

Lemma keyed_sorted (l : list (string * value)) :
  Forall (fun p => fst p = issue_key (snd p)) l ->
  StronglySorted (before localeCompare) l ->
  StronglySorted (newer_first localeCompare) (map snd l).
Proof.
  intros Hk Hs. induction Hs as [|p r Hs IH Hall]; simpl; constructor.
  - apply IH. now inversion Hk.
  - inversion Hk as [|? ? Hp Hr]; subst.
    apply Forall_map. rewrite Forall_forall in *. intros q Hq.
    specialize (Hall q Hq). specialize (Hr q Hq).
    unfold before, newer_first in *. now rewrite <- Hp, <- Hr.
Qed.


End ExportOrder.

Lemma sample_compare_total (a b : string) :
  sample_compare a b <= 0 \/ sample_compare b a <= 0.
Proof.
  unfold sample_compare.
  destruct (String_as_OT.compare_spec a b) as [H|H|H]; try (left; lia).
  right. unfold String_as_OT.lt in H. rewrite H. lia.
Qed.

Lemma sample_compare_trans (a b c : string) :
  sample_compare a b <= 0 -> sample_compare b c <= 0 -> sample_compare a c <= 0.
Proof.
  unfold sample_compare.
  destruct (String_as_OT.compare_spec a b) as [Hab|Hab|Hab]; try lia;
    destruct (String_as_OT.compare_spec b c) as [Hbc|Hbc|Hbc]; try lia; intros _ _.
  - unfold String_as_OT.eq in *. subst.
    destruct (String_as_OT.compare_spec c c) as [H|H|H]; try lia.
    now apply (StrictOrder_Irreflexive c) in H.
  - unfold String_as_OT.eq in *. subst. unfold String_as_OT.lt in Hbc. rewrite Hbc. lia.
  - unfold String_as_OT.eq in *. subst. unfold String_as_OT.lt in Hab. rewrite Hab. lia.
  - assert (H : String_as_OT.lt a c) by (transitivity b; assumption).
    unfold String_as_OT.lt in H. rewrite H. lia.
Qed.

Section ExportFile.

Variable localeCompare : string -> string -> Z.

Hypothesis compare_total :
  forall a b : string, localeCompare a b <= 0 \/ localeCompare b a <= 0.

Hypothesis compare_trans :
  forall a b c : string,
    localeCompare a b <= 0 -> localeCompare b c <= 0 -> localeCompare a c <= 0.


End ExportFile.


(** The file of the sample state: the newest invoice first, the name with
    a comma between quotes. *)
Example csv_of_sample_state :
  csv_text sample_compare sample_state
  = Ret (join (String newline "")
           ["invoiceNumber,issueDate,dueDate,client,status,net,vatRate,vat,gross,currency";
            "INV-0002,2026-02-01,2026-02-01,Bob,Sent,0.00,19,0.00,0.00,EUR";
            "INV-0003,2026-01-20,2026-01-20," ++ quote "Acme, Inc." ++ ",Sent,0.00,19,0.00,0.00,EUR";
            "INV-0001,2026-01-10,2026-01-10," ++ quote "Acme, Inc."
              ++ ",Sent,110.00,19,20.90,130.90,EUR"]).
Proof. vm_compute. reflexivity. Qed.


(* ================================================================== *)
(** * The canonical form of a number *)
(* ================================================================== *)

Lemma strip_canonical (fuel : nat) (m e : Z) :
  m <> 0 -> Z.abs m < 2 ^ Z.of_nat fuel ->
  fst (strip fuel m e) <> 0 /\ fst (strip fuel m e) mod 10 <> 0.
Proof.
  revert m e. induction fuel as [|f IH]; intros m e Hm Hb.
  - simpl in Hb. lia.
  - cbn [strip]. destruct (Z.eqb_spec (m mod 10) 0) as [H0|H0]; [|simpl; auto].
    pose proof (Z.div_mod m 10 ltac:(lia)) as Hd.
    apply IH; [lia|].
    rewrite Nat2Z.inj_succ, Z.pow_succ_r in Hb by lia. lia.
Qed.

Lemma mk_canonical (m e : Z) : canonical (mk m e).
Proof.
  unfold mk, canon. destruct (Z.eqb_spec m 0) as [->|Hm]; [simpl; split; congruence|].
  pose proof (strip_canonical (S (Z.to_nat (Z.log2 (Z.abs m)))) m e Hm) as H.
  destruct (strip _ m e) as [m' e']. simpl in *.
  assert (Hb : Z.abs m < 2 ^ Z.of_nat (S (Z.to_nat (Z.log2 (Z.abs m))))).
  { rewrite Nat2Z.inj_succ, Z2Nat.id by apply Z.log2_nonneg.
    apply Z.log2_spec. lia. }
  specialize (H Hb). split; [tauto|]. intros _. tauto.
Qed.

Lemma canon_of_canonical (m e : Z) : canonical (Fin m e) -> canon m e = (m, e).
Proof.
  intros [H0 H1]. unfold canon. destruct (Z.eqb_spec m 0) as [->|Hm].
  - now rewrite H0.
  - cbn [strip]. destruct (Z.eqb_spec (m mod 10) 0); [now apply H1 in Hm|reflexivity].
Qed.

Lemma mk_of_canonical (m e : Z) : canonical (Fin m e) -> mk m e = Fin m e.
Proof. intros H. unfold mk. now rewrite canon_of_canonical. Qed.

Lemma strip_pow10 (k : nat) (fuel : nat) (m e : Z) :
  m mod 10 <> 0 -> (k <= fuel)%nat ->
  strip fuel (m * 10 ^ Z.of_nat k) e = (m, e + Z.of_nat k).
Proof.
  revert fuel e. induction k as [|k IH]; intros fuel e Hm Hf.
  - rewrite Z.pow_0_r, Z.mul_1_r, Z.add_0_r.
    destruct fuel; cbn [strip]; [reflexivity|].
    destruct (Z.eqb_spec (m mod 10) 0); [contradiction | reflexivity].
  - destruct fuel as [|f]; [lia|]. cbn [strip].
    rewrite Nat2Z.inj_succ, Z.pow_succ_r by lia.
    replace (m * (10 * 10 ^ Z.of_nat k)) with ((m * 10 ^ Z.of_nat k) * 10) by ring.
    rewrite Z.mod_mul by lia. cbn [Z.eqb]. rewrite Z.div_mul by lia.
    rewrite IH by (trivial; lia). f_equal. lia.
Qed.

Lemma mk_pow10 (m k : Z) :
  m mod 10 <> 0 -> 0 <= k -> mk (m * 10 ^ k) 0 = Fin m k.
Proof.
  intros Hm Hk. unfold mk, canon.
  assert (Hm0 : m <> 0) by (intros ->; now rewrite Z.mod_0_l in Hm).
  pose proof (pow10_pos k Hk) as Hp.
  destruct (Z.eqb_spec (m * 10 ^ k) 0) as [H0|H0]; [nia|].
  rewrite <- (Z2Nat.id k) by assumption.
  rewrite strip_pow10; [reflexivity | assumption |].
  rewrite Z2Nat.id by assumption.
  assert (k <= Z.log2 (Z.abs (m * 10 ^ k))).
  { apply Z.log2_le_pow2; [lia|]. rewrite Z.abs_mul.
    assert (2 ^ k <= 10 ^ k) by (apply Z.pow_le_mono_l; lia).
    nia. }
  lia.
Qed.

(* ================================================================== *)
(** * The value of a run of digits *)
(* ================================================================== *)

Lemma digits_val_app (b : N) (s t : string) (acc : N) :
  digits_val b (s ++ t) acc = digits_val b t (digits_val b s acc).
Proof. revert acc. induction s as [|c r IH]; intros acc; simpl; [reflexivity | apply IH]. Qed.

Lemma digits_val_zeros (j : nat) (acc : N) :
  digits_val 10 (zeros j) acc = (acc * 10 ^ N.of_nat j)%N.
Proof.
  revert acc. induction j as [|j IH]; intros acc.
  - simpl. lia.
  - cbn [zeros digits_val]. rewrite IH.
    change (digit_val "0") with 0%N.
    rewrite Nat2N.inj_succ, N.pow_succ_r'. lia.
Qed.

Lemma digits_val_uint_acc (l : Decimal.uint) (acc : positive) :
  digits_val 10 (NilEmpty.string_of_uint l) (N.pos acc) = N.pos (Pos.of_uint_acc l acc).
Proof.
  revert acc. induction l; intros acc; cbn [NilEmpty.string_of_uint digits_val Pos.of_uint_acc];
    [reflexivity|..]; rewrite <- IHl; f_equal;
    match goal with
    | |- context [digit_val ?c] =>
        let v := eval vm_compute in (digit_val c) in change (digit_val c) with v
    end; lia.
Qed.

Lemma digits_val_uint (d : Decimal.uint) :
  digits_val 10 (NilEmpty.string_of_uint d) 0 = Pos.of_uint d.
Proof.
  induction d; cbn [NilEmpty.string_of_uint digits_val Pos.of_uint];
    [reflexivity | exact IHd | ..]; apply digits_val_uint_acc.
Qed.

Lemma digits_val_digits (n : N) : digits_val 10 (digits n) 0 = n.
Proof. unfold digits. rewrite digits_val_uint. apply DecimalN.Unsigned.of_to. Qed.

Lemma digits_val_leading_zeros (j : nat) (s : string) :
  digits_val 10 (zeros j ++ s) 0 = digits_val 10 s 0.
Proof. rewrite digits_val_app, digits_val_zeros. reflexivity. Qed.

(* ================================================================== *)
(** * The text of a number *)
(* ================================================================== *)

Lemma num_text_app (s t : string) : num_text (s ++ t) = num_text s && num_text t.
Proof.
  induction s as [|c r IH]; simpl; [reflexivity|]. now rewrite IH, andb_assoc.
Qed.

Lemma num_text_digits (s : string) : only_digits s = true -> num_text s = true.
Proof.
  induction s as [|c r IH]; simpl; [reflexivity|]. intros H.
  apply andb_prop in H as [Hc Hr]. unfold num_char. now rewrite Hc, IH.
Qed.

Ltac by_char c := destruct c as [[] [] [] [] [] [] [] []]; try discriminate; try reflexivity.

Lemma num_char_not_ws (c : ascii) : num_char c = true -> is_ws c = false.
Proof. intros H. vm_compute in H. by_char c. Qed.

Lemma num_char_not_comma (c : ascii) : num_char c = true -> Ascii.eqb c "," = false.
Proof. intros H. vm_compute in H. by_char c. Qed.

Lemma num_char_not_radix (c : ascii) :
  num_char c = true ->
  (Ascii.eqb c "x" || Ascii.eqb c "X") = false
  /\ (Ascii.eqb c "o" || Ascii.eqb c "O") = false
  /\ (Ascii.eqb c "b" || Ascii.eqb c "B") = false.
Proof. intros H. vm_compute in H. by_char c; repeat split. Qed.

Lemma replace_comma_num_text (s : string) : num_text s = true -> replace_comma s = s.
Proof.
  induction s as [|c r IH]; simpl; [reflexivity|]. intros H.
  apply andb_prop in H as [Hc Hr]. rewrite (num_char_not_comma c Hc). now rewrite IH.
Qed.

Lemma trim_num_text (s : string) : num_text s = true -> trim s = s.
Proof.
  intros H. unfold trim.
  assert (Hl : trim_left s = s).
  { destruct s as [|c r]; [reflexivity|]. simpl in *.
    apply andb_prop in H as [Hc _]. now rewrite (num_char_not_ws c Hc). }
  rewrite Hl. clear Hl. induction s as [|c r IH]; simpl; [reflexivity|].
  simpl in H. apply andb_prop in H as [Hc Hr].
  rewrite (num_char_not_ws c Hc). cbn [andb]. now rewrite IH.
Qed.

Lemma radix_literal_num_text (s : string) : num_text s = true -> radix_literal s = None.
Proof.
  destruct s as [|c [|p r]]; [reflexivity| |].
  - intros _. unfold radix_literal. by_char c.
  - cbn [num_text]. intros H. apply andb_prop in H as [_ H]. apply andb_prop in H as [Hp _].
    destruct (num_char_not_radix p Hp) as (Hx & Ho & Hb).
    unfold radix_literal. rewrite Hx, Ho, Hb. cbn [N.eqb]. by_char c.
Qed.

(* ================================================================== *)
(** * Reading the text of a number back *)
(* ================================================================== *)

Lemma digit_split_sign (c : ascii) (r : string) :
  is_digit c = true -> split_sign (String c r) = (false, String c r).
Proof. intros H. vm_compute in H. by_char c. Qed.

Lemma digit_not_Infinity (c : ascii) (r : string) :
  is_digit c = true -> (String c r =? "Infinity")%string = false.
Proof. intros H. vm_compute in H. by_char c. Qed.

Lemma split_sign_text (neg : bool) (body : string) :
  starts_with_digit body = true -> split_sign (sign_text neg ++ body) = (neg, body).
Proof.
  intros H. destruct neg; [reflexivity|]. cbn [sign_text append].
  destruct body as [|c r]; [discriminate|]. now apply digit_split_sign.
Qed.

Lemma exponent_part_text (ex : option (bool * string)) :
  exp_ok ex -> exponent_part (exp_text ex) = Some (exp_value ex).
Proof.
  destruct ex as [[eneg eds]|]; [|reflexivity]. intros [Hd Hne].
  cbn [exp_text exponent_part]. cbn [Ascii.eqb Bool.eqb orb].
  assert (Hs : split_sign ((if eneg then "-" else "+") ++ eds) = (eneg, eds))
    by now destruct eneg.
  rewrite Hs, span_digits_all by assumption.
  destruct eds as [|c r]; [congruence|]. reflexivity.
Qed.

Lemma exp_text_no_digit (ex : option (bool * string)) :
  starts_with_digit (exp_text ex) = false.
Proof. now destruct ex as [[? ?]|]. Qed.

Lemma exp_text_no_dot (ex : option (bool * string)) :
  match exp_text ex with
  | String "." r => span_digits r
  | _ => ("", exp_text ex)
  end = ("", exp_text ex).
Proof. now destruct ex as [[? ?]|]. Qed.

Lemma decimal_literal_shape
    (neg hasdot : bool) (ip fp : string) (ex : option (bool * string)) :
  only_digits ip = true -> ip <> "" ->
  only_digits fp = true -> (hasdot = false -> fp = "") ->
  exp_ok ex ->
  decimal_literal (sign_text neg ++ ip ++ frac_text hasdot fp ++ exp_text ex)
  = mk (let v := Z.of_N (digits_val 10 (ip ++ fp) 0) in if neg then - v else v)
       (exp_value ex - Z.of_nat (String.length fp)).
Proof.
  intros Hip Hne Hfp Hdot Hex. unfold decimal_literal.
  assert (Hstart : starts_with_digit (ip ++ frac_text hasdot fp ++ exp_text ex) = true).
  { destruct ip as [|c r]; [congruence|]. simpl in *. now apply andb_prop in Hip as [Hc _]. }
  rewrite split_sign_text by assumption.
  assert (Hinf : (ip ++ frac_text hasdot fp ++ exp_text ex =? "Infinity")%string = false).
  { destruct ip as [|c r]; [congruence|]. cbn [append]. apply digit_not_Infinity.
    simpl in Hip. now apply andb_prop in Hip as [Hc _]. }
  rewrite Hinf.
  rewrite span_digits_app.
  2:{ assumption. }
  2:{ destruct hasdot; [reflexivity | apply exp_text_no_digit]. }
  assert (Hfrac : match frac_text hasdot fp ++ exp_text ex with
                  | String "." r => span_digits r
                  | _ => ("", frac_text hasdot fp ++ exp_text ex)
                  end = (fp, exp_text ex)).
  { destruct hasdot; cbn [frac_text append].
    - apply span_digits_app; [assumption | apply exp_text_no_digit].
    - rewrite (Hdot eq_refl). apply exp_text_no_dot. }
  rewrite Hfrac.
  destruct ip as [|c r]; [congruence|]. cbn [String.eqb andb].
  rewrite exponent_part_text by assumption. reflexivity.
Qed.

Lemma layout_shape (s : string) (e : Z) :
  only_digits s = true -> s <> "" ->
  exists (hasdot : bool) (ip fp : string) (ex : option (bool * string)),
    layout s e = ip ++ frac_text hasdot fp ++ exp_text ex
    /\ only_digits ip = true /\ ip <> ""
    /\ only_digits fp = true /\ (hasdot = false -> fp = "")
    /\ exp_ok ex
    /\ ((digits_val 10 (ip ++ fp) 0 = digits_val 10 s 0
         /\ exp_value ex - Z.of_nat (String.length fp) = e)
        \/ (0 <= e
            /\ digits_val 10 (ip ++ fp) 0 = (digits_val 10 s 0 * 10 ^ Z.to_N e)%N
            /\ exp_value ex - Z.of_nat (String.length fp) = 0)).
Proof.
  intros Hd Hne. pose proof (length_pos_nonempty s Hne) as Hlen.
  unfold layout.
  set (k := Z.of_nat (String.length s)). set (n := k + e).
  destruct ((k <=? n) && (n <=? 21)) eqn:Ca.
  { (* digits followed by zeros *)
    apply andb_prop in Ca as [C1 C2]. apply Z.leb_le in C1, C2.
    exists false, (s ++ zeros (Z.to_nat (n - k))), "", None.
    cbn [frac_text exp_text exp_value exp_ok String.length append].
    rewrite !app_empty_r.
    repeat split; trivial.
    - now rewrite only_digits_app, Hd, only_digits_zeros.
    - destruct s; [congruence | discriminate].
    - right. split; [lia|]. split; [|reflexivity].
      rewrite digits_val_app, digits_val_zeros. f_equal. f_equal.
      unfold n. lia. }
  destruct ((0 <? n) && (n <=? 21)) eqn:Cb.
  { (* a period inside the digits *)
    apply andb_prop in Cb as [C1 C2]. apply Z.ltb_lt in C1. apply Z.leb_le in C2.
    apply andb_false_iff in Ca as [Ca|Ca]; [apply Z.leb_gt in Ca | apply Z.leb_gt in Ca; lia].
    assert (Hn : (Z.to_nat n <= String.length s)%nat) by (unfold k in *; lia).
    destruct (cut_digits s (Z.to_nat n) Hd Hn) as (H1 & H2 & H3 & H4).
    replace (Z.to_nat (k - n)) with (String.length s - Z.to_nat n)%nat by (unfold k; lia).
    exists true, (substring 0 (Z.to_nat n) s),
      (substring (Z.to_nat n) (String.length s - Z.to_nat n) s), None.
    cbn [frac_text exp_text exp_value exp_ok].
    rewrite app_empty_r.
    repeat split; trivial.
    - intros Hempty. rewrite Hempty in H3. simpl in H3. lia.
    - discriminate.
    - left. split; [now rewrite <- substring_split|].
      rewrite H4. unfold n, k in *. lia. }
  destruct ((-6 <? n) && (n <=? 0)) eqn:Cc.
  { (* zeros after the period *)
    apply andb_prop in Cc as [C1 C2]. apply Z.ltb_lt in C1. apply Z.leb_le in C2.
    exists true, "0", (zeros (Z.to_nat (- n)) ++ s), None.
    cbn [frac_text exp_text exp_value exp_ok].
    rewrite app_empty_r.
    split; [reflexivity|].
    repeat split; trivial.
    - discriminate.
    - now rewrite only_digits_app, only_digits_zeros.
    - discriminate.
    - left. split.
      + change ("0" ++ zeros (Z.to_nat (- n)) ++ s) with (zeros (S (Z.to_nat (- n))) ++ s).
        apply digits_val_leading_zeros.
      + rewrite length_append, length_zeros. unfold n, k in *. lia. }
  (* exponent notation *)
  set (ex := n - 1).
  assert (Hex : exp_ok (Some ((ex <? 0), digits (Z.abs_N ex)))).
  { split; [apply only_digits_digits | apply digits_nonempty]. }
  assert (Hval : exp_value (Some ((ex <? 0), digits (Z.abs_N ex))) = ex).
  { cbn [exp_value]. rewrite digits_val_digits.
    destruct (Z.ltb_spec ex 0); lia. }
  destruct s as [|c [|c2 r]]; [congruence| |].
  - exists false, (String c ""), "", (Some ((ex <? 0), digits (Z.abs_N ex))).
    split; [reflexivity|]. split; [exact Hd|]. split; [discriminate|].
    split; [reflexivity|]. split; [reflexivity|]. split; [exact Hex|].
    left. split; [reflexivity|]. rewrite Hval. unfold ex, n, k. simpl String.length. lia.
  - exists true, (String c ""), (String c2 r), (Some ((ex <? 0), digits (Z.abs_N ex))).
    simpl in Hd. apply andb_prop in Hd as [Hc Hd].
    split; [reflexivity|].
    split; [simpl; now rewrite Hc|]. split; [discriminate|].
    split; [exact Hd|]. split; [discriminate|]. split; [exact Hex|].
    left. split; [reflexivity|]. rewrite Hval. unfold ex, n, k.
    cbn [String.length]. lia.
Qed.

Lemma num_text_shape (neg hasdot : bool) (ip fp : string) (ex : option (bool * string)) :
  only_digits ip = true -> only_digits fp = true -> exp_ok ex ->
  num_text (sign_text neg ++ ip ++ frac_text hasdot fp ++ exp_text ex) = true.
Proof.
  intros Hip Hfp Hex. rewrite !num_text_app.
  rewrite (num_text_digits ip Hip).
  assert (H1 : num_text (sign_text neg) = true) by now destruct neg.
  assert (H2 : num_text (frac_text hasdot fp) = true).
  { destruct hasdot; [|reflexivity]. cbn [frac_text num_text].
    now rewrite (num_text_digits fp Hfp). }
  assert (H3 : num_text (exp_text ex) = true).
  { destruct ex as [[eneg eds]|]; [|reflexivity]. destruct Hex as [He _].
    cbn [exp_text num_text]. rewrite num_text_app, (num_text_digits eds He).
    now destruct eneg. }
  now rewrite H1, H2, H3.
Qed.

(** [toNumber] gives back a finite number in canonical form. *)
Lemma toNumber_number (x : num) :
  is_finite x = true -> canonical x -> toNumber (VNum x) = Ret x.
Proof.
  destruct x as [m e| | |]; try discriminate. intros _ Hc.
  unfold toNumber. cbn [nullish_else js_String obind].
  unfold number_to_string. rewrite (canon_of_canonical m e Hc).
  destruct (Z.eqb_spec m 0) as [->|Hm].
  { destruct Hc as [He _]. rewrite (He eq_refl). reflexivity. }
  destruct Hc as [_ Hmod]. specialize (Hmod Hm).
  fold (sign_text (m <? 0)).
  destruct (layout_shape (digits (Z.abs_N m)) e (only_digits_digits _) (digits_nonempty _))
    as (hasdot & ip & fp & ex & -> & Hip & Hne & Hfp & Hdot & Hex & Hval).
  pose proof (num_text_shape (m <? 0) hasdot ip fp ex Hip Hfp Hex) as Hnt.
  rewrite replace_comma_num_text by assumption.
  unfold string_to_number. rewrite trim_num_text by assumption.
  rewrite radix_literal_num_text by assumption.
  assert (Hnonempty : String.eqb (sign_text (m <? 0) ++ ip ++ frac_text hasdot fp ++ exp_text ex) ""
                      = false).
  { destruct (m <? 0); [reflexivity|]. destruct ip; [congruence | reflexivity]. }
  rewrite Hnonempty.
  rewrite decimal_literal_shape by assumption.
  rewrite digits_val_digits in Hval.
  assert (Hres : mk (let v := Z.of_N (digits_val 10 (ip ++ fp) 0) in
                     if m <? 0 then - v else v)
                    (exp_value ex - Z.of_nat (String.length fp)) = Fin m e).
  { destruct Hval as [[Hv He]|(He0 & Hv & He)]; rewrite Hv, He; cbn zeta.
    - replace (if m <? 0 then - Z.of_N (Z.abs_N m) else Z.of_N (Z.abs_N m)) with m
        by (destruct (Z.ltb_spec m 0); lia).
      apply mk_of_canonical. split; [intros; contradiction | auto].
    - replace (if m <? 0 then - Z.of_N (Z.abs_N m * 10 ^ Z.to_N e)
               else Z.of_N (Z.abs_N m * 10 ^ Z.to_N e)) with (m * 10 ^ e).
      + now apply mk_pow10.
      + rewrite N2Z.inj_mul, N2Z.inj_pow, Z2N.id by assumption.
        change (Z.of_N 10) with 10. destruct (Z.ltb_spec m 0); lia. }
  now rewrite Hres.
Qed.

Lemma string_to_number_canonical (s : string) : canonical (string_to_number s).
Proof.
  unfold string_to_number. destruct (trim s =? "")%string; [simpl; split; congruence|].
  destruct (radix_literal (trim s)) as [x|] eqn:E.
  - unfold radix_literal in E.
    destruct (trim s) as [|c [|p r]]; try discriminate.
    + by_char c; discriminate.
    + assert (Hx : x = NaN \/ exists z, x = of_Z z).
      { by_char c.
        all: try discriminate E.
        destruct (N.eqb _ 0); [discriminate|].
        destruct (_ || _); inversion E; eauto. }
      destruct Hx as [->|[z ->]]; [exact I | apply mk_canonical].
  - unfold decimal_literal.
    destruct (split_sign (trim s)) as [neg u].
    destruct (u =? "Infinity")%string; [now destruct neg|].
    destruct (span_digits u) as [ip r1].
    destruct (match r1 with String "." r => span_digits r | _ => ("", r1) end) as [fp r2].
    destruct ((ip =? "")%string && (fp =? "")%string); [exact I|].
    destruct (exponent_part r2); [apply mk_canonical | exact I].
Qed.

Lemma toNumber_canonical (v : value) (n : num) : toNumber v = Ret n -> canonical n.
Proof.
  unfold toNumber. destruct (js_String _); simpl; [|discriminate].
  intros H. inversion H.
  destruct (is_finite (string_to_number _)) eqn:E;
    [apply string_to_number_canonical | simpl; split; congruence].
Qed.

(* ================================================================== *)
(** * Merging twice *)
(* ================================================================== *)

Lemma copy_cons (k : string) (v : value) (xs acc : props) :
  copy ((k, v) :: xs) acc = copy xs (assign k v acc).
Proof. reflexivity. Qed.

Lemma copy_app (xs ys acc : props) : copy (xs ++ ys)%list acc = copy ys (copy xs acc).
Proof. unfold copy. apply fold_left_app. Qed.

Lemma assign_NoDup (k : string) (v : value) (ps : props) :
  NoDup (keys ps) -> NoDup (keys (assign k v ps)).
Proof.
  intros H. destruct (in_dec string_dec k (keys ps)) as [Hin|Hout].
  - now rewrite keys_assign_in.
  - rewrite assign_fresh by assumption. unfold keys. rewrite map_app. simpl.
    apply NoDup_app; [assumption | repeat constructor; auto |].
    intros x Hx [<-|[]]. contradiction.
Qed.

Lemma copy_NoDup (xs acc : props) : NoDup (keys acc) -> NoDup (keys (copy xs acc)).
Proof.
  revert acc. induction xs as [|[k v] r IH]; intros acc H; [assumption|].
  rewrite copy_cons. apply IH. now apply assign_NoDup.
Qed.

Lemma assign_app_in (k : string) (v : value) (s1 s2 : props) :
  In k (keys s1) -> assign k v (s1 ++ s2)%list = (assign k v s1 ++ s2)%list.
Proof.
  induction s1 as [|[k' v'] r IH]; simpl; intros H; [tauto|].
  destruct (String.eqb_spec k' k) as [->|Hne]; [reflexivity|].
  simpl. f_equal. apply IH. destruct H; [contradiction | assumption].
Qed.

Lemma assign_app_out (k : string) (v : value) (s1 s2 : props) :
  ~ In k (keys s1) -> assign k v (s1 ++ s2)%list = (s1 ++ assign k v s2)%list.
Proof.
  induction s1 as [|[k' v'] r IH]; simpl; intros H; [reflexivity|].
  destruct (String.eqb_spec k' k) as [->|Hne]; [tauto|].
  f_equal. apply IH. tauto.
Qed.

(** What is copied onto [acc] starts with the keys of [acc]. *)
Lemma copy_decomp (xs acc : props) :
  exists s1 s2 : props, copy xs acc = (s1 ++ s2)%list /\ keys s1 = keys acc.
Proof.
  induction xs as [|[k v] r IH] using rev_ind.
  - exists acc, []. now rewrite app_nil_r.
  - destruct IH as (s1 & s2 & Hc & Hk). rewrite copy_app, Hc. cbn [copy fold_left fst snd].
    destruct (in_dec string_dec k (keys s1)) as [Hin|Hout].
    + exists (assign k v s1), s2. rewrite assign_app_in by assumption.
      split; [reflexivity|]. now rewrite keys_assign_in.
    + exists s1, (assign k v s2). now rewrite assign_app_out.
Qed.

Lemma copy_cons_other (k : string) (v : value) (xs acc : props) :
  ~ In k (keys xs) -> copy xs ((k, v) :: acc) = (k, v) :: copy xs acc.
Proof.
  revert acc v. induction xs as [|[k' v'] r IH]; intros acc v H; [reflexivity|].
  rewrite !copy_cons. simpl in *.
  destruct (String.eqb_spec k k') as [->|Hne]; [tauto|].
  apply IH. tauto.
Qed.

Lemma copy_same_keys (s acc : props) :
  keys s = keys acc -> NoDup (keys s) -> copy s acc = s.
Proof.
  revert acc. induction s as [|[k v] r IH]; intros acc Hk Hnd.
  - destruct acc; [reflexivity | discriminate].
  - destruct acc as [|[k' b] accr]; [discriminate|]. simpl in Hk.
    inversion Hk; subst k'. inversion Hnd; subst.
    rewrite copy_cons. simpl. rewrite String.eqb_refl.
    rewrite copy_cons_other by assumption. f_equal. now apply IH.
Qed.

Lemma NoDup_app_disjoint {A : Type} (l1 l2 : list A) (a : A) :
  NoDup (l1 ++ l2) -> In a l1 -> In a l2 -> False.
Proof.
  induction l1 as [|x r IH]; simpl; intros Hnd H1 H2; [contradiction|].
  inversion Hnd as [|? ? Hx Hr]; subst. destruct H1 as [->|H1].
  - apply Hx. apply in_or_app. now right.
  - now apply IH.
Qed.

Lemma copy_absorb (xs acc : props) :
  NoDup (keys acc) -> copy (copy xs acc) acc = copy xs acc.
Proof.
  intros Hnd. pose proof (copy_NoDup xs acc Hnd) as Hs.
  destruct (copy_decomp xs acc) as (s1 & s2 & Hc & Hk). rewrite Hc in *.
  unfold keys in Hs. rewrite map_app in Hs.
  rewrite copy_app.
  rewrite (copy_same_keys s1 acc); [|assumption | eapply NoDup_app_remove_r; eauto].
  unfold copy. apply fold_assign_fresh; [eapply NoDup_app_remove_l; eauto|].
  intros k Hin2 Hin1. eapply NoDup_app_disjoint; eauto.
Qed.

(** Merging the result of a merge over the same base changes nothing. *)
Lemma merged_twice (base_ps : props) (x : value) :
  merged base_ps (merged base_ps x) = merged base_ps x.
Proof.
  unfold merged. cbn [or_else truthy]. f_equal.
  unfold spread at 1 2 4. cbn [own_props].
  apply (copy_absorb (own_props (or_else x (VObj []))) (spread [] (VObj base_ps))).
  apply (copy_NoDup base_ps []). constructor.
Qed.

(* ================================================================== *)
(** * Repaired entries *)
(* ================================================================== *)

Local Open Scope monad_scope.

Lemma soft_or_else (v : value) : soft (or_else v (VStr "")).
Proof. unfold soft, or_else. destruct (truthy v) eqn:E; [now rewrite E | reflexivity]. Qed.

Lemma plain_number_toNumber (v : value) (n : num) :
  toNumber v = Ret n -> plain_number (VNum n).
Proof.
  intros H. exists n. split; [reflexivity|]. split.
  - eapply toNumber_finite; eauto.
  - eapply toNumber_canonical; eauto.
Qed.

Lemma bind_Ret_inv {A B : Type} (c : M A) (k : A -> M B) (w w' : world) (b : B) :
  bind c k w = (w', Ret b) ->
  exists (a : A) (w1 : world), c w = (w1, Ret a) /\ k a w1 = (w', Ret b).
Proof.
  unfold bind. destruct (c w) as [w1 [a|e]]; [eauto | discriminate].
Qed.

Lemma lift_Ret_inv {A : Type} (o : outcome A) (w w' : world) (a : A) :
  lift o w = (w', Ret a) -> o = Ret a /\ w' = w.
Proof. unfold lift. intros H. inversion H. auto. Qed.

Lemma ret_inv {A : Type} (a b : A) (w w' : world) :
  ret a w = (w', Ret b) -> b = a /\ w' = w.
Proof. unfold ret. intros H. inversion H. auto. Qed.

Lemma mapM_fixed {A : Type} (f : A -> M A) (l : list A) :
  Forall (fun x => forall w, f x w = (w, Ret x)) l ->
  forall w, mapM f l w = (w, Ret l).
Proof.
  induction 1 as [|x r Hx Hr IH]; intros w; [reflexivity|].
  cbn [mapM]. unfold bind. rewrite Hx, IH. reflexivity.
Qed.

Lemma mapM_Forall {A B : Type} (f : A -> M B) (P : B -> Prop) (l : list A) :
  (forall x w w' o, f x w = (w', Ret o) -> P o) ->
  forall w w' l', mapM f l w = (w', Ret l') -> Forall P l'.
Proof.
  intros Hf. induction l as [|x r IH]; intros w w' l' H.
  - apply ret_inv in H as [-> _]. constructor.
  - cbn [mapM] in H.
    apply bind_Ret_inv in H as (y & w1 & Hy & H).
    apply bind_Ret_inv in H as (ys & w2 & Hys & H).
    apply ret_inv in H as [-> _]. constructor; eauto.
Qed.

Ltac monad_inv H :=
  repeat match type of H with
    | bind _ _ _ = (_, Ret _) =>
        let a := fresh "a" in let w := fresh "w" in let Ha := fresh "Ha" in
        apply bind_Ret_inv in H as (a & w & Ha & H);
        try (apply lift_Ret_inv in Ha as [Ha ->])
    | ret _ _ = (_, Ret _) => apply ret_inv in H as [-> ->]
    end.

Section Fixed.

Variable todayISO : string.
Variable uid_of : nat -> string.
Variable date_plus : value -> value -> option string.

Hypothesis today_nonempty : todayISO <> "".
Hypothesis uid_nonempty : forall n : nat, uid_of n <> "".
Hypothesis date_plus_nonempty :
  forall (iso days : value) (s : string), date_plus iso days = Some s -> s <> "".

Lemma truthy_VStr (s : string) : s <> "" -> truthy (VStr s) = true.
Proof. destruct s; [congruence | reflexivity]. Qed.

Lemma id_or_uid (id0 id : value) (w w' : world) :
  (if truthy id0 then ret id0 else uid uid_of) w = (w', Ret id) -> truthy id = true.
Proof.
  destruct (truthy id0) eqn:E; intros H.
  - apply ret_inv in H as [-> _]. exact E.
  - unfold uid in H. inversion H. apply truthy_VStr, uid_nonempty.
Qed.

Lemma normalize_item_normal (it : value) (w w' : world) (o : value) :
  normalize_item uid_of it w = (w', Ret o) -> item_normal o.
Proof.
  unfold normalize_item. intros H. monad_inv H.
  repeat match goal with
         | Hn : toNumber _ = Ret ?n |- context [is_finite ?n] =>
             rewrite (toNumber_finite _ _ Hn)
         end.
  match goal with Hi : _ _ = (_, Ret ?i) |- _ => apply id_or_uid in Hi end.
  do 5 eexists. split; [reflexivity|].
  repeat split; eauto using soft_or_else, plain_number_toNumber.
Qed.

Lemma plain_number_fixed (v : value) :
  plain_number v -> exists x, v = VNum x /\ toNumber v = Ret x /\ is_finite x = true.
Proof.
  intros (x & -> & Hf & Hc). exists x. split; [reflexivity|].
  split; [now apply toNumber_number | assumption].
Qed.

Lemma normalize_item_fixed (o : value) :
  item_normal o -> forall w, normalize_item uid_of o w = (w, Ret o).
Proof.
  intros (id & desc & qty & unit & price & -> & Hid & Hdesc & Hqty & Hunit & Hprice) w.
  apply plain_number_fixed in Hqty as (q & -> & Hq & Hqf).
  apply plain_number_fixed in Hprice as (p & -> & Hp & Hpf).
  unfold normalize_item, bind, lift, ret. cbn [get field lookup String.eqb Ascii.eqb Bool.eqb].
  rewrite Hid, Hq, Hp, Hqf, Hpf. unfold soft in *. now rewrite Hdesc, Hunit.
Qed.

Lemma blank_item_normal (n : nat) : item_normal (blank_item (VStr (uid_of n))).
Proof.
  assert (Hn : forall m, m = 0 \/ m = 1 -> plain_number (VNum (Fin m 0))).
  { intros m Hm. exists (Fin m 0). split; [reflexivity|]. split; [reflexivity|].
    simpl. destruct Hm as [-> | ->]; split; intros; try reflexivity; try discriminate.
    congruence. }
  unfold blank_item. do 5 eexists. split; [reflexivity|].
  split; [now apply truthy_VStr, uid_nonempty|]. split; [reflexivity|].
  split; [apply Hn; now right|]. split; [reflexivity|]. apply Hn; now left.
Qed.

Lemma addDaysISO_truthy (iso days : value) :
  truthy iso = true -> truthy (addDaysISO date_plus iso days) = true.
Proof.
  intros H. unfold addDaysISO. destruct (date_plus iso days) as [s|] eqn:E; [|exact H].
  apply truthy_VStr. eapply date_plus_nonempty; eauto.
Qed.

Lemma or_else_today_truthy (v : value) : truthy (or_else v (VStr todayISO)) = true.
Proof.
  unfold or_else. destruct (truthy v) eqn:E; [exact E | now apply truthy_VStr].
Qed.

Lemma includes_status (status : value) :
  includes STATUS (if includes STATUS status then status else VStr "Draft") = true.
Proof. destruct (includes STATUS status) eqn:E; [exact E | reflexivity]. Qed.

Lemma typeof_string_notes (notes : value) :
  typeof_string (if typeof_string notes then notes else VStr "") = true.
Proof. destruct (typeof_string notes) eqn:E; [exact E | reflexivity]. Qed.

Lemma normalize_invoice_normal (inv : value) (w w' : world) (o : value) :
  normalize_invoice todayISO uid_of date_plus inv w = (w', Ret o) -> invoice_normal o.
Proof.
  unfold normalize_invoice. intros H. monad_inv H.
  repeat match goal with
         | Hn : toNumber _ = Ret ?n |- _ =>
             rewrite (toNumber_finite _ _ Hn) in *; apply plain_number_toNumber in Hn
         end.
  match goal with Hi : (if truthy _ then ret _ else uid _) _ = _ |- _ => apply id_or_uid in Hi end.
  match goal with Hd : (if truthy ?d then ret ?d else _) _ = (_, Ret ?due) |- _ =>
    assert (Hdue : truthy due = true)
  end.
  { match goal with Hd : (if truthy ?d then _ else _) _ = _ |- _ =>
      destruct (truthy d) eqn:Ed; monad_inv Hd
    end.
    - exact Ed.
    - apply addDaysISO_truthy, or_else_today_truthy. }
  match goal with Hi : _ = (_, Ret ?items) |- _ =>
    match type of Hi with context [isArray] => assert (Hitems : Forall item_normal items) end
  end.
  { match goal with Hi : _ = (_, Ret _) |- _ =>
      match type of Hi with context [isArray ?its] =>
        destruct (isArray its); [eapply mapM_Forall; [|exact Hi]; apply normalize_item_normal|];
        monad_inv Hi
      end
    end.
    match goal with Hu : Ret (VStr (uid_of _)) = Ret _ |- _ => inversion Hu end.
    constructor; [apply blank_item_normal | constructor]. }
  match goal with Hr : ret _ _ = _ |- _ => apply ret_inv in Hr as [-> _] end.
  do 9 eexists. split; [reflexivity|].
  repeat split; eauto using soft_or_else, or_else_today_truthy, includes_status,
    typeof_string_notes.
Qed.

Lemma normalize_invoice_fixed (o : value) :
  invoice_normal o ->
  forall w, normalize_invoice todayISO uid_of date_plus o w = (w, Ret o).
Proof.
  intros (id & number & issue & due & client & status & rate & notes & items & -> & Hid
          & Hnumber & Hissue & Hdue & Hclient & Hstatus & Hrate & Hitems & Hnotes) w.
  apply plain_number_fixed in Hrate as (r & -> & Hr & Hrf).
  unfold normalize_invoice, bind, lift, ret.
  cbn [get field lookup String.eqb Ascii.eqb Bool.eqb isArray elems].
  rewrite Hid, Hdue, Hr, Hrf.
  rewrite (mapM_fixed (normalize_item uid_of) items).
  2:{ eapply Forall_impl; [|exact Hitems]. intros it Hit. now apply normalize_item_fixed. }
  unfold soft in *. rewrite Hnumber, Hclient, Hstatus, Hnotes.
  unfold or_else. now rewrite Hissue.
Qed.

Lemma normalize_client_normal (c : value) (w w' : world) (o : value) :
  normalize_client uid_of c w = (w', Ret o) -> client_normal o.
Proof.
  unfold normalize_client. intros H. monad_inv H.
  match goal with Hi : (if truthy _ then ret _ else uid _) _ = _ |- _ => apply id_or_uid in Hi end.
  do 7 eexists. split; [reflexivity|].
  repeat split; eauto using soft_or_else.
Qed.

Lemma normalize_client_fixed (o : value) :
  client_normal o -> forall w, normalize_client uid_of o w = (w, Ret o).
Proof.
  intros (id & name & address & email & phone & contact & notes & -> & Hid
          & Hname & Haddress & Hemail & Hphone & Hcontact & Hnotes) w.
  unfold normalize_client, bind, lift, ret.
  cbn [get field lookup String.eqb Ascii.eqb Bool.eqb].
  rewrite Hid. unfold soft in *.
  now rewrite Hname, Haddress, Hemail, Hphone, Hcontact, Hnotes.
Qed.

End Fixed.

Lemma put_get_same (k : string) (o v : value) :
  get_opt o k = v -> v <> VUndef -> put k v o = o.
Proof.
  intros H Hv.
  assert (Hl : forall ps, field k ps = v -> assign k v ps = ps).
  { intros ps Hf. apply assign_same. unfold field in Hf.
    destruct (lookup k ps); congruence. }
  destruct o; simpl in *; try congruence; now rewrite Hl.
Qed.

Lemma merged_not_undefined (base_ps : props) (x : value) : merged base_ps x <> VUndef.
Proof. discriminate. Qed.

Lemma prepared_fixed (d : value) : is_prepared d -> prepared d = d.
Proof.
  intros ((s & Hs) & (p & Hp) & Hc & Hi). unfold prepared.
  rewrite Hs, merged_twice, <- Hs.
  rewrite (put_get_same "settings" d) by (trivial; rewrite Hs; discriminate).
  rewrite Hp, merged_twice, <- Hp.
  rewrite (put_get_same "profile" d) by (trivial; rewrite Hp; discriminate).
  unfold array_or_empty. rewrite Hc.
  rewrite (put_get_same "clients" d) by (trivial; destruct (get_opt d "clients"); discriminate).
  rewrite Hi.
  apply put_get_same; [reflexivity | destruct (get_opt d "invoices"); discriminate].
Qed.

Section Idempotence.

Variable todayISO : string.
Variable uid_of : nat -> string.
Variable date_plus : value -> value -> option string.

Hypothesis today_nonempty : todayISO <> "".
Hypothesis uid_nonempty : forall n : nat, uid_of n <> "".
Hypothesis date_plus_nonempty :
  forall (iso days : value) (s : string), date_plus iso days = Some s -> s <> "".

(** The repair of a state whose entries are repaired already. *)
Lemma repair_collections_fixed (d : value) (invs cls : list value) (n : nat) :
  objlike d = true ->
  get_opt d "invoices" = VArr invs [] ->
  get_opt d "clients" = VArr cls [] ->
  Forall invoice_normal invs ->
  Forall client_normal cls ->
  repair_collections todayISO uid_of date_plus {| target := d; issued := n |}
  = ({| target := d; issued := n |}, Ret d).
Proof.
  intros Hobj Hi Hc Hinvs Hcls.
  assert (Hpi : put "invoices" (VArr invs []) d = d)
    by (apply put_get_same; [assumption | discriminate]).
  assert (Hpc : put "clients" (VArr cls []) d = d)
    by (apply put_get_same; [assumption | discriminate]).
  unfold repair_collections, bind, read, write, current. cbn [target issued].
  rewrite get_objlike, Hi by assumption. cbn [elems].
  rewrite (mapM_fixed (normalize_invoice todayISO uid_of date_plus) invs).
  2:{ eapply Forall_impl; [|exact Hinvs]. intros o Ho. now apply normalize_invoice_fixed. }
  cbn [target issued]. rewrite Hpi.
  rewrite get_objlike, Hc by assumption. cbn [elems].
  rewrite (mapM_fixed (normalize_client uid_of) cls).
  2:{ eapply Forall_impl; [|exact Hcls]. intros o Ho. now apply normalize_client_fixed. }
  cbn [target issued]. now rewrite Hpc.
Qed.

(** C4.  With the clock and the identifier generator of the environment
    (a date and identifiers that are not empty), the state that
    [normalizeData] returns for a document is returned unchanged when it is
    normalized again, whatever the number of identifiers handed out in
    between: no identifier, date or number is produced anew. *)
Theorem normalizeData_idempotent (raw : value) (n n' : nat) (d : value) :
  normalize todayISO uid_of date_plus raw n = Ret d ->
  normalize todayISO uid_of date_plus d n' = Ret d.
Proof.
  intros H.
  apply normalize_returns in H as (_ & w1 & w2 & invs & cls & Hinv & Hcl & Hd).
  assert (Hinvs : Forall invoice_normal invs).
  { eapply mapM_Forall; [|exact Hinv]. intros x w w' o. now apply normalize_invoice_normal. }
  assert (Hcls : Forall client_normal cls).
  { eapply mapM_Forall; [|exact Hcl]. intros x w w' o. now apply normalize_client_normal. }
  pose proof (subject_objlike raw) as Hsub.
  set (p := prepared (subject raw)) in *.
  assert (Hp : objlike p = true) by (unfold p; now rewrite prepared_objlike).
  assert (Hobj : objlike d = true) by (subst d; now rewrite !objlike_put).
  assert (Hdi : get_opt d "invoices" = VArr invs []).
  { subst d. rewrite get_opt_put_neq by discriminate. apply get_opt_put_eq. assumption. }
  assert (Hdc : get_opt d "clients" = VArr cls []).
  { subst d. apply get_opt_put_eq. now rewrite objlike_put. }
  assert (Hprep : is_prepared d).
  { split; [|split; [|split]].
    - exists (get_opt (subject raw) "settings"). subst d.
      rewrite !get_opt_put_neq by discriminate. unfold p. now apply prepared_settings.
    - exists (get_opt (subject raw) "profile"). subst d.
      rewrite !get_opt_put_neq by discriminate. unfold p, prepared.
      rewrite !get_opt_put_neq by discriminate.
      rewrite get_opt_put_eq by now rewrite objlike_put.
      now rewrite get_opt_put_neq by discriminate.
    - now rewrite Hdc.
    - now rewrite Hdi. }
  unfold normalize. rewrite normalizeData_repair.
  assert (Hs : subject d = d) by (unfold subject; now rewrite is_object_objlike, Hobj).
  rewrite Hs, (prepared_fixed d Hprep). unfold with_target. cbn [issued].
  now rewrite (repair_collections_fixed d invs cls n').
Qed.

End Idempotence.

Lemma sample_uid_nonempty (n : nat) : sample_uid n <> "".
Proof. discriminate. Qed.

Lemma sample_date_plus_nonempty (iso days : value) (s : string) :
  sample_date_plus iso days = Some s -> s <> "".
Proof.
  unfold sample_date_plus. destruct iso; try discriminate.
  destruct (js_String days); [|discriminate].
  intros H. inversion H. destruct s0; discriminate.
Qed.

(** The statement above for the sample document. *)
Lemma normalizeData_idempotent_sample :
  normalize sample_today sample_uid sample_date_plus sample_document 0 = Ret sample_repaired
  /\ normalize sample_today sample_uid sample_date_plus sample_repaired 7 = Ret sample_repaired.
Proof.
  assert (H : normalize sample_today sample_uid sample_date_plus sample_document 0
              = Ret sample_repaired) by (vm_compute; reflexivity).
  split; [exact H|].
  apply (normalizeData_idempotent sample_today sample_uid sample_date_plus
           ltac:(discriminate) sample_uid_nonempty sample_date_plus_nonempty
           sample_document 0 7 sample_repaired H).
Defined.

(* ================================================================== *)
(** * Documents that normalizeData repairs *)
(* ================================================================== *)

Lemma returns_ret {A : Type} (a : A) : returns (ret a).
Proof. intros w _. now exists w, a. Qed.

Lemma returns_lift {A : Type} (o : outcome A) (a : A) : o = Ret a -> returns (lift o).
Proof. intros -> w _. now exists w, a. Qed.

Lemma returns_uid (uid_of : nat -> string) : returns (uid uid_of).
Proof. intros w _. unfold uid. eauto. Qed.

Lemma returns_bind {A B : Type} (c : M A) (k : A -> M B) :
  returns c -> stable c -> (forall a, returns (k a)) -> returns (bind c k).
Proof.
  intros Hc Hs Hk w Hw. unfold bind.
  destruct (Hc w Hw) as (w1 & a & E). specialize (Hs w). rewrite E in *. simpl in Hs.
  apply Hk. now rewrite Hs.
Qed.

Lemma returns_mapM {A B : Type} (f : A -> M B) (l : list A) :
  (forall x, In x l -> returns (f x)) -> (forall x, stable (f x)) -> returns (mapM f l).
Proof.
  intros Hf Hs. induction l as [|x r IH]; cbn [mapM]; [apply returns_ret|].
  apply returns_bind; [apply Hf; now left | apply Hs|]. intros y.
  apply returns_bind; [apply IH; intros; apply Hf; now right | now apply stable_mapM|].
  intros ys. apply returns_ret.
Qed.

Lemma returns_if {A : Type} (b : bool) (c1 c2 : M A) :
  returns c1 -> returns c2 -> returns (if b then c1 else c2).
Proof. now destruct b. Qed.

Lemma returns_read_settings {A : Type} (k : value -> M A) :
  (forall s, nullish s = false -> returns (k s)) -> returns (bind (read "settings") k).
Proof.
  intros Hk w Hw. unfold bind, read.
  assert (Hg : get (target w) "settings" = Ret (get_opt (target w) "settings")).
  { destruct (target w); simpl in *; try discriminate; reflexivity. }
  rewrite Hg. now apply Hk.
Qed.

Lemma returns_bind_lift {A B : Type} (o : outcome A) (a : A) (k : A -> M B) :
  o = Ret a -> returns (k a) -> returns (bind (lift o) k).
Proof. intros -> Hk w Hw. unfold bind, lift. now apply Hk. Qed.

Ltac prove_stable :=
  repeat first
    [ apply stable_ret | apply stable_lift | apply stable_read | apply stable_uid
    | apply stable_if | apply stable_mapM; intros ? | apply stable_normalize_item
    | apply stable_bind; [|intros ?] ].

Ltac returns_steps :=
  repeat first
    [ match goal with |- stable _ => solve [prove_stable] end
    | apply returns_ret
    | apply returns_uid
    | eapply returns_bind_lift;
      [ first [ apply get_not_nullish; assumption | apply toNumber_coerce; assumption ] | cbv beta ]
    | eapply returns_lift; apply get_not_nullish; assumption
    | apply returns_if
    | apply returns_read_settings; intros ? ?
    | apply returns_bind; [| |intros ?] ].

Section Totality.

Variable todayISO : string.
Variable uid_of : nat -> string.
Variable date_plus : value -> value -> option string.

Lemma returns_normalize_item (it : value) :
  line_ok it = true -> returns (normalize_item uid_of it).
Proof.
  unfold line_ok. intros H.
  apply andb_prop in H as [H Hp]. apply andb_prop in H as [Hn Hq].
  apply negb_true_iff in Hn. unfold normalize_item. returns_steps.
Qed.

Lemma returns_normalize_invoice (inv : value) :
  repairable_invoice inv = true -> returns (normalize_invoice todayISO uid_of date_plus inv).
Proof.
  unfold repairable_invoice. intros H.
  apply andb_prop in H as [H Hr]. apply andb_prop in H as [Hn Hl].
  apply negb_true_iff in Hn. unfold normalize_invoice. returns_steps.
  apply returns_mapM; [|intros ?; apply stable_normalize_item].
  intros it Hit. apply returns_normalize_item.
  unfold lines, items_of in Hl.
  destruct (get_opt inv "items"); try contradiction; simpl in *.
  eapply forallb_In; eauto.
Qed.

Lemma returns_normalize_client (c : value) :
  nullish c = false -> returns (normalize_client uid_of c).
Proof.
  intros Hn. unfold normalize_client. returns_steps.
Qed.

End Totality.

Lemma elems_array_or_empty (v : value) : elems (array_or_empty v) = elems v.
Proof. now destruct v. Qed.

Lemma prepared_invoices (d : value) :
  objlike d = true ->
  get_opt (prepared d) "invoices" = array_or_empty (get_opt d "invoices").
Proof.
  intros H. unfold prepared.
  rewrite get_opt_put_eq by now rewrite !objlike_put.
  now rewrite !get_opt_put_neq by discriminate.
Qed.

Lemma prepared_clients (d : value) :
  objlike d = true ->
  get_opt (prepared d) "clients" = array_or_empty (get_opt d "clients").
Proof.
  intros H. unfold prepared.
  rewrite get_opt_put_neq by discriminate.
  rewrite get_opt_put_eq by now rewrite !objlike_put.
  now rewrite !get_opt_put_neq by discriminate.
Qed.

Section Returns.

Variable todayISO : string.
Variable uid_of : nat -> string.
Variable date_plus : value -> value -> option string.

(** [normalizeData] returns a state for every document whose entries it
    can repair: in particular for every value that is not an object, for
    the empty object, and for every object whose [clients] and [invoices]
    are not arrays or are arrays of objects with line items that are
    objects and numeric fields that are numbers, strings, booleans, [null]
    or missing. *)
Theorem normalizeData_returns (raw : value) (n : nat) :
  repairable raw = true ->
  exists d : value, normalize todayISO uid_of date_plus raw n = Ret d.
Proof.
  unfold repairable. intros H. apply andb_prop in H as [Hi Hc].
  pose proof (subject_objlike raw) as Hsub.
  set (p := prepared (subject raw)).
  assert (Hp : objlike p = true) by (unfold p; now rewrite prepared_objlike).
  assert (Hset : nullish (get_opt p "settings") = false)
    by (unfold p; now rewrite prepared_settings).
  destruct (returns_mapM (normalize_invoice todayISO uid_of date_plus)
              (elems (get_opt p "invoices"))) with (w := {| target := p; issued := n |})
    as (w1 & invs & E1).
  { intros x Hx. apply returns_normalize_invoice.
    unfold p in Hx. rewrite prepared_invoices, elems_array_or_empty in Hx by assumption.
    eapply forallb_In; eauto. }
  { intros x. apply stable_normalize_invoice. }
  { exact Hset. }
  assert (Hw1 : target w1 = p).
  { pose proof (stable_mapM (normalize_invoice todayISO uid_of date_plus)
                  (elems (get_opt p "invoices"))
                  (stable_normalize_invoice todayISO uid_of date_plus)
                  {| target := p; issued := n |}) as Hs.
    now rewrite E1 in Hs. }
  destruct (returns_mapM (normalize_client uid_of) (elems (get_opt p "clients")))
    with (w := {| target := put "invoices" (VArr invs []) p; issued := issued w1 |})
    as (w2 & cls & E2).
  { intros x Hx. apply returns_normalize_client.
    unfold p in Hx. rewrite prepared_clients, elems_array_or_empty in Hx by assumption.
    apply negb_true_iff. eapply (forallb_In (fun c => negb (nullish c))); eauto. }
  { intros x. apply stable_normalize_client. }
  { cbn [target]. now rewrite get_opt_put_neq by discriminate. }
  unfold normalize. rewrite normalizeData_repair. fold p.
  unfold with_target, repair_collections, bind, read, write, current. cbn [target issued].
  rewrite (get_objlike p) by assumption. rewrite E1. rewrite Hw1.
  rewrite get_objlike by now rewrite objlike_put.
  rewrite get_opt_put_neq by discriminate. rewrite E2.
  cbn [snd]. eauto.
Qed.

End Returns.

(** The statement above for the sample document. *)
Lemma normalizeData_returns_sample :
  repairable sample_document = true
  /\ exists d : value,
       normalize sample_today sample_uid sample_date_plus sample_document 0 = Ret d.
Proof.
  split; [reflexivity|].
  apply (normalizeData_returns sample_today sample_uid sample_date_plus sample_document 0).
  reflexivity.
Defined.

(* ================================================================== *)
(** * toNumber: commas, and numbers read again *)
(* ================================================================== *)

Lemma has_comma_app (s t : string) : has_comma (s ++ t) = has_comma s || has_comma t.
Proof.
  unfold has_comma. induction s as [|c r IH]; simpl; [reflexivity|].
  now rewrite IH, orb_assoc.
Qed.

Lemma has_comma_count (s : string) : has_comma s = negb (count_char "," s =? 0)%nat.
Proof.
  unfold has_comma. induction s as [|c r IH]; simpl; [reflexivity|].
  rewrite IH. destruct (Ascii.eqb c ","); reflexivity.
Qed.

Lemma replace_comma_none (s : string) : has_comma s = false -> replace_comma s = s.
Proof.
  unfold has_comma. induction s as [|c r IH]; simpl; [reflexivity|].
  destruct (Ascii.eqb c ","); [discriminate|]. simpl. intros H. now rewrite IH.
Qed.

Lemma replace_comma_first (s t : string) :
  has_comma s = false -> replace_comma (s ++ String "," t) = s ++ String "." t.
Proof.
  unfold has_comma. induction s as [|c r IH]; simpl; [reflexivity|].
  destruct (Ascii.eqb c ","); [discriminate|]. simpl. intros H. now rewrite IH.
Qed.

Lemma replace_comma_second (s : string) :
  (2 <= count_char "," s)%nat -> has_comma (replace_comma s) = true.
Proof.
  unfold has_comma. induction s as [|c r IH]; simpl; [lia|].
  destruct (Ascii.eqb c ",") eqn:E; simpl.
  - intros H. fold (has_comma r). rewrite has_comma_count.
    destruct (count_char "," r); [lia | reflexivity].
  - rewrite E. simpl. exact IH.
Qed.

Lemma has_comma_trim_left (s : string) : has_comma (trim_left s) = has_comma s.
Proof.
  unfold has_comma. induction s as [|c r IH]; simpl; [reflexivity|].
  destruct (is_ws c) eqn:E; [|reflexivity].
  rewrite IH. destruct (Ascii.eqb_spec c ","); [subst; discriminate | reflexivity].
Qed.

Lemma has_comma_trim_right (s : string) : has_comma (trim_right s) = has_comma s.
Proof.
  unfold has_comma. induction s as [|c r IH]; simpl; [reflexivity|].
  destruct (is_ws c) eqn:E; simpl.
  - destruct (String.eqb_spec (trim_right r) "") as [H0|H0].
    + rewrite H0 in IH. simpl in *. rewrite <- IH.
      destruct (Ascii.eqb_spec c ","); [subst; discriminate | reflexivity].
    + simpl. now rewrite IH.
  - now rewrite IH.
Qed.

Lemma has_comma_trim (s : string) : has_comma (trim s) = has_comma s.
Proof. unfold trim. now rewrite has_comma_trim_right, has_comma_trim_left. Qed.

Lemma has_comma_span_digits (s : string) :
  has_comma (snd (span_digits s)) = has_comma s.
Proof.
  unfold has_comma. induction s as [|c r IH]; simpl; [reflexivity|].
  destruct (is_digit c) eqn:E; [|reflexivity].
  destruct (span_digits r) as [d t]. simpl in *. rewrite IH.
  destruct (Ascii.eqb_spec c ","); [subst; discriminate | reflexivity].
Qed.

Lemma has_comma_nonempty (s : string) : has_comma s = true -> (s =? "")%string = false.
Proof. destruct s; [discriminate | reflexivity]. Qed.

Lemma all_digits_comma (b : N) (s : string) :
  (b <= 16)%N -> has_comma s = true -> all_digits b s = false.
Proof.
  intros Hb. unfold all_digits, has_comma. intros H. apply negb_false_iff.
  induction s as [|c r IH]; simpl in *; [discriminate|].
  destruct (Ascii.eqb_spec c ",") as [->|Hc]; simpl in *.
  - replace (digit_val ",") with 36%N by reflexivity.
    destruct (N.ltb_spec 36 b); [lia | reflexivity].
  - rewrite IH by assumption. apply orb_true_r.
Qed.

Lemma has_comma_split_sign (s : string) : has_comma (snd (split_sign s)) = has_comma s.
Proof.
  destruct s as [|c r]; [reflexivity|]. unfold split_sign, has_comma.
  by_char c.
Qed.

Lemma has_comma_tail (c : ascii) (r : string) :
  Ascii.eqb c "," = false -> has_comma (String c r) = has_comma r.
Proof. intros H. unfold has_comma. simpl. now rewrite H. Qed.

Lemma exponent_part_comma (s : string) : has_comma s = true -> exponent_part s = None.
Proof.
  destruct s as [|c r]; [discriminate|]. intros H. unfold exponent_part.
  destruct (Ascii.eqb c "e" || Ascii.eqb c "E") eqn:E; [|reflexivity].
  assert (Hr : has_comma r = true).
  { rewrite has_comma_tail in H; [exact H|].
    destruct (Ascii.eqb_spec c ","); [subst; discriminate | reflexivity]. }
  pose proof (has_comma_split_sign r) as Hs. rewrite Hr in Hs.
  destruct (split_sign r) as [neg r']. simpl in Hs.
  pose proof (has_comma_span_digits r') as Hsp.
  destruct (span_digits r') as [ds rest]. simpl in Hsp. rewrite Hs in Hsp.
  rewrite (has_comma_nonempty rest Hsp). now rewrite orb_true_r.
Qed.

Lemma decimal_literal_comma (t : string) : has_comma t = true -> decimal_literal t = NaN.
Proof.
  intros H. unfold decimal_literal.
  pose proof (has_comma_split_sign t) as Hs. rewrite H in Hs.
  destruct (split_sign t) as [neg u]. simpl in Hs.
  destruct (String.eqb_spec u "Infinity") as [->|_]; [discriminate|].
  pose proof (has_comma_span_digits u) as H1. rewrite Hs in H1.
  destruct (span_digits u) as [ip r1]. simpl in H1.
  assert (H2 : has_comma (snd (match r1 with
                               | String "." r => span_digits r
                               | _ => ("", r1)
                               end)) = true).
  { destruct r1 as [|c r]; [discriminate|].
    destruct (Ascii.eqb_spec c ".") as [->|Hc].
    - rewrite has_comma_span_digits. rewrite has_comma_tail in H1; [exact H1 | reflexivity].
    - replace (match String c r with String "." r0 => span_digits r0 | _ => ("", String c r) end)
        with ("", String c r); [exact H1|].
      clear -Hc. by_char c. congruence. }
  destruct (match r1 with String "." r => span_digits r | _ => ("", r1) end) as [fp r2].
  simpl in H2. rewrite (exponent_part_comma r2 H2).
  now destruct ((ip =? "")%string && (fp =? "")%string).
Qed.

Lemma radix_literal_comma (t : string) (x : num) :
  has_comma t = true -> radix_literal t = Some x -> x = NaN.
Proof.
  intros H. unfold radix_literal.
  destruct t as [|c [|p r]]; [discriminate | by_char c |].
  destruct (Ascii.eqb_spec c "0") as [->|Hc0].
  2:{ by_char c. congruence. }
  set (b := (if Ascii.eqb p "x" || Ascii.eqb p "X" then 16
             else if Ascii.eqb p "o" || Ascii.eqb p "O" then 8
             else if Ascii.eqb p "b" || Ascii.eqb p "B" then 2 else 0)%N).
  assert (Hb : (b <= 16)%N).
  { unfold b. repeat match goal with |- context [if ?c then _ else _] => destruct c end; lia. }
  destruct (N.eqb b 0) eqn:Eb; [discriminate|].
  assert (Hp : Ascii.eqb p "," = false).
  { destruct (Ascii.eqb_spec p ",") as [->|]; [|reflexivity]. discriminate Eb. }
  assert (Hr : has_comma r = true).
  { rewrite !has_comma_tail in H by (reflexivity || assumption). exact H. }
  rewrite (all_digits_comma b r Hb Hr). rewrite orb_true_r. congruence.
Qed.

Lemma string_to_number_comma (s : string) :
  has_comma s = true -> string_to_number s = NaN.
Proof.
  intros H. unfold string_to_number.
  rewrite <- has_comma_trim in H. rewrite (has_comma_nonempty _ H).
  destruct (radix_literal (trim s)) as [x|] eqn:E.
  - eapply radix_literal_comma; eauto.
  - now apply decimal_literal_comma.
Qed.

(** [toNumber] reads one comma as a decimal point: a string with a single
    comma gives the number of the string with a period in its place.  It
    replaces the first comma only: a string with two commas or more (a
    number written with separators of thousands, say) gives 0. *)
Theorem toNumber_commas :
  (forall s t : string,
      count_char "," s = O -> count_char "," t = O ->
      toNumber (VStr (s ++ String "," t)) = toNumber (VStr (s ++ String "." t)))
  /\ (forall s : string,
        (2 <= count_char "," s)%nat -> toNumber (VStr s) = Ret zero).
Proof.
  split.
  - intros s t Hs Ht. unfold toNumber. cbn [nullish_else js_String obind].
    assert (Hs' : has_comma s = false) by (rewrite has_comma_count, Hs; reflexivity).
    assert (Ht' : has_comma t = false) by (rewrite has_comma_count, Ht; reflexivity).
    rewrite replace_comma_first by assumption.
    rewrite replace_comma_none; [reflexivity|].
    rewrite has_comma_app, Hs'. now rewrite has_comma_tail.
  - intros s H. unfold toNumber. cbn [nullish_else js_String obind].
    now rewrite string_to_number_comma by now apply replace_comma_second.
Qed.

(** [toNumber] applied to its own result changes nothing: what it returns
    is a finite number, and the text of that number reads back as the
    number. *)
Theorem toNumber_idempotent (v : value) (n : num) :
  toNumber v = Ret n -> is_finite n = true /\ toNumber (VNum n) = Ret n.
Proof.
  intros H. split; [eapply toNumber_finite; eauto|].
  apply toNumber_number; [eapply toNumber_finite | eapply toNumber_canonical]; eauto.
Qed.

(** The statement above for a rate written with a comma. *)
Lemma toNumber_idempotent_sample :
  toNumber (VStr "19,5") = Ret (Fin 195 (-1))
  /\ is_finite (Fin 195 (-1)) = true
  /\ toNumber (VNum (Fin 195 (-1))) = Ret (Fin 195 (-1)).
Proof.
  split; [reflexivity|].
  apply (toNumber_idempotent (VStr "19,5") (Fin 195 (-1))). reflexivity.
Defined.

(** The statement above for a rate with a decimal comma and for an amount
    with a separator of thousands. *)
Lemma toNumber_commas_sample :
  toNumber (VStr "19,5") = toNumber (VStr "19.5")
  /\ toNumber (VStr "1,234,5") = Ret zero.
Proof.
  split.
  - apply (proj1 toNumber_commas "19" "5"); reflexivity.
  - apply (proj2 toNumber_commas "1,234,5"). apply Nat.leb_le. reflexivity.
Defined.

(* ================================================================== *)
(** * States in normal form *)
(* ================================================================== *)

Local Open Scope monad_scope.

Section NormalForm.

Variable todayISO : string.
Variable uid_of : nat -> string.
Variable date_plus : value -> value -> option string.

Hypothesis today_nonempty : todayISO <> "".
Hypothesis uid_nonempty : forall n : nat, uid_of n <> "".
Hypothesis date_plus_nonempty :
  forall (iso days : value) (s : string), date_plus iso days = Some s -> s <> "".

(** What [normalizeData] returns is in normal form. *)
Lemma normalize_normal_state (raw : value) (n : nat) (d : value) :
  normalize todayISO uid_of date_plus raw n = Ret d -> normal_state d.
Proof.
  intros H.
  apply normalize_returns in H as (_ & w1 & w2 & invs & cls & Hinv & Hcl & Hd).
  assert (Hinvs : Forall invoice_normal invs).
  { eapply mapM_Forall; [|exact Hinv]. intros x w w' o.
    now apply normalize_invoice_normal. }
  assert (Hcls : Forall client_normal cls).
  { eapply mapM_Forall; [|exact Hcl]. intros x w w' o.
    now apply normalize_client_normal. }
  pose proof (subject_objlike raw) as Hsub.
  set (p := prepared (subject raw)) in *.
  assert (Hp : objlike p = true) by (unfold p; now rewrite prepared_objlike).
  assert (Hobj : objlike d = true) by (subst d; now rewrite !objlike_put).
  assert (Hdi : get_opt d "invoices" = VArr invs []).
  { subst d. rewrite get_opt_put_neq by discriminate. apply get_opt_put_eq. assumption. }
  assert (Hdc : get_opt d "clients" = VArr cls []).
  { subst d. apply get_opt_put_eq. now rewrite objlike_put. }
  split; [assumption|]. split.
  - split; [|split; [|split]].
    + exists (get_opt (subject raw) "settings"). subst d.
      rewrite !get_opt_put_neq by discriminate. unfold p. now apply prepared_settings.
    + exists (get_opt (subject raw) "profile"). subst d.
      rewrite !get_opt_put_neq by discriminate. unfold p, prepared.
      rewrite !get_opt_put_neq by discriminate.
      rewrite get_opt_put_eq by now rewrite objlike_put.
      now rewrite get_opt_put_neq by discriminate.
    + now rewrite Hdc.
    + now rewrite Hdi.
  - exists invs, cls. auto.
Qed.

(** [normalizeData] returns a state in normal form as it is. *)
Lemma normal_state_fixed (d : value) (n : nat) :
  normal_state d -> normalize todayISO uid_of date_plus d n = Ret d.
Proof.
  intros (Hobj & Hprep & invs & cls & Hdi & Hdc & Hinvs & Hcls).
  unfold normalize. rewrite normalizeData_repair.
  assert (Hs : subject d = d) by (unfold subject; now rewrite is_object_objlike, Hobj).
  rewrite Hs, (prepared_fixed d Hprep). unfold with_target. cbn [issued].
  now rewrite (repair_collections_fixed todayISO uid_of date_plus d invs cls n).
Qed.

Lemma plain_number_finite (v : value) : plain_number v -> finite_number v = true.
Proof. intros (x & -> & Hf & _). exact Hf. Qed.

Lemma item_normal_valid (it : value) :
  item_normal it ->
  has_keys item_keys it
  /\ truthy (get_opt it "id") = true
  /\ finite_number (get_opt it "qty") = true
  /\ finite_number (get_opt it "unitPrice") = true.
Proof.
  intros (id & desc & qty & unit & price & -> & Hid & _ & Hqty & _ & Hprice).
  split; [eexists; split; reflexivity|].
  repeat split; simpl; auto using plain_number_finite.
Qed.

(** The invariants of the entries of a state.  In a state that
    [normalizeData] returns, an invoice is an object with the nine keys of
    an invoice and no other; its identifier and its two dates are truthy,
    its status is one of the four, its rate a finite number, its notes a
    string, and its items an array of objects with the five keys of a
    line item, a truthy identifier and a quantity and a unit price that
    are finite numbers.  A client is an object with the seven keys of a
    client and a truthy identifier.  A property of an entry of the
    document under any other key is not in the state. *)
Theorem normalizeData_entries_valid (raw : value) (n : nat) (d : value) :
  normalize todayISO uid_of date_plus raw n = Ret d ->
  (forall inv : value,
      In inv (elems (get_opt d "invoices")) ->
      has_keys invoice_keys inv
      /\ truthy (get_opt inv "id") = true
      /\ truthy (get_opt inv "issueDate") = true
      /\ truthy (get_opt inv "dueDate") = true
      /\ includes STATUS (get_opt inv "status") = true
      /\ finite_number (get_opt inv "vatRate") = true
      /\ typeof_string (get_opt inv "notes") = true
      /\ isArray (get_opt inv "items") = true
      /\ (forall it : value,
            In it (elems (get_opt inv "items")) ->
            has_keys item_keys it
            /\ truthy (get_opt it "id") = true
            /\ finite_number (get_opt it "qty") = true
            /\ finite_number (get_opt it "unitPrice") = true))
  /\ (forall c : value,
        In c (elems (get_opt d "clients")) ->
        has_keys client_keys c /\ truthy (get_opt c "id") = true).
Proof.
  intros H. apply normalize_normal_state in H
    as (_ & _ & invs & cls & Hdi & Hdc & Hinvs & Hcls).
  rewrite Hdi, Hdc. cbn [elems]. split.
  - intros inv Hin. rewrite Forall_forall in Hinvs. specialize (Hinvs inv Hin).
    destruct Hinvs as (id & number & issue & due & client & status & rate & notes & items
                       & -> & Hid & _ & Hissue & Hdue & _ & Hstatus & Hrate & Hitems & Hnotes).
    split; [eexists; split; reflexivity|].
    cbn [get_opt field lookup String.eqb Ascii.eqb Bool.eqb elems isArray].
    repeat (split; [solve [auto using plain_number_finite]|]).
    intros it Hit. rewrite Forall_forall in Hitems. now apply item_normal_valid, Hitems.
  - intros c Hin. rewrite Forall_forall in Hcls. specialize (Hcls c Hin).
    destruct Hcls as (id & name & address & email & phone & contact & notes & -> & Hid & _).
    split; [eexists; split; reflexivity | exact Hid].
Qed.

End NormalForm.

(** The statement above for the sample document. *)
Lemma normalizeData_entries_valid_sample :
  normalize sample_today sample_uid sample_date_plus sample_document 0 = Ret sample_repaired
  /\ (forall inv : value,
        In inv (elems (get_opt sample_repaired "invoices")) ->
        has_keys invoice_keys inv
        /\ truthy (get_opt inv "id") = true
        /\ truthy (get_opt inv "issueDate") = true
        /\ truthy (get_opt inv "dueDate") = true
        /\ includes STATUS (get_opt inv "status") = true
        /\ finite_number (get_opt inv "vatRate") = true
        /\ typeof_string (get_opt inv "notes") = true
        /\ isArray (get_opt inv "items") = true
        /\ (forall it : value,
              In it (elems (get_opt inv "items")) ->
              has_keys item_keys it
              /\ truthy (get_opt it "id") = true
              /\ finite_number (get_opt it "qty") = true
              /\ finite_number (get_opt it "unitPrice") = true))
  /\ (forall c : value,
        In c (elems (get_opt sample_repaired "clients")) ->
        has_keys client_keys c /\ truthy (get_opt c "id") = true).
Proof.
  assert (H : normalize sample_today sample_uid sample_date_plus sample_document 0
              = Ret sample_repaired) by (vm_compute; reflexivity).
  split; [exact H|].
  apply (normalizeData_entries_valid sample_today sample_uid sample_date_plus
           ltac:(discriminate) sample_uid_nonempty sample_date_plus_nonempty
           sample_document 0 sample_repaired H).
Defined.

(* ================================================================== *)
(** * What normalizeData keeps *)
(* ================================================================== *)

Lemma get_Ret (v : value) (k : string) (x : value) :
  get v k = Ret x -> x = get_opt v k.
Proof. destruct v; simpl; intros H; inversion H; reflexivity. Qed.

Lemma coerce_toNumber (v : value) (n : num) : toNumber v = Ret n -> coerce v = n.
Proof. intros H. unfold coerce. now rewrite H. Qed.

Lemma mapM_Forall2 {A B : Type} (f : A -> M B) (R : A -> B -> Prop) (l : list A) :
  (forall x w w' o, f x w = (w', Ret o) -> R x o) ->
  forall w w' l', mapM f l w = (w', Ret l') -> Forall2 R l l'.
Proof.
  intros Hf. induction l as [|x r IH]; intros w w' l' H.
  - apply ret_inv in H as [-> _]. constructor.
  - cbn [mapM] in H.
    apply bind_Ret_inv in H as (y & w1 & Hy & H).
    apply bind_Ret_inv in H as (ys & w2 & Hys & H).
    apply ret_inv in H as [-> _]. constructor; eauto.
Qed.

Ltac reads :=
  repeat match goal with
         | H : get ?v ?k = Ret ?a |- _ => apply get_Ret in H; subst a
         | H : toNumber ?v = Ret ?n |- _ =>
             pose proof (toNumber_finite _ _ H); apply coerce_toNumber in H; subst n
         end.

Lemma or_else_kept (v dflt : value) : truthy v = true -> or_else v dflt = v.
Proof. intros H. unfold or_else. now rewrite H. Qed.

Section Kept.

Variable todayISO : string.
Variable uid_of : nat -> string.
Variable date_plus : value -> value -> option string.

Lemma id_or_uid_kept (id0 id : value) (w w' : world) :
  (if truthy id0 then ret id0 else uid uid_of) w = (w', Ret id) ->
  truthy id0 = true -> id = id0.
Proof. intros H Ht. rewrite Ht in H. now apply ret_inv in H as [-> _]. Qed.

Lemma normalize_item_kept (it : value) (w w' : world) (o : value) :
  normalize_item uid_of it w = (w', Ret o) -> item_kept it o.
Proof.
  unfold normalize_item. intros H. monad_inv H. reads.
  match goal with Hi : (if truthy _ then _ else _) _ = _ |- _ =>
    pose proof (id_or_uid_kept _ _ _ _ Hi) as Hid end.
  repeat match goal with Hf : is_finite _ = true |- _ => rewrite Hf; clear Hf end.
  split; [|split; reflexivity].
  intros k [<-|[<-|[<-|[]]]] Hk; cbn [get_opt field lookup String.eqb Ascii.eqb Bool.eqb];
    auto using or_else_kept.
Qed.

Lemma normalize_invoice_kept (inv : value) (w w' : world) (o : value) :
  normalize_invoice todayISO uid_of date_plus inv w = (w', Ret o) -> invoice_kept inv o.
Proof.
  unfold normalize_invoice. intros H. monad_inv H. reads.
  match goal with Hi : (if truthy (get_opt inv "id") then _ else _) _ = _ |- _ =>
    pose proof (id_or_uid_kept _ _ _ _ Hi) as Hid end.
  match goal with Hd : (if truthy (get_opt inv "dueDate") then _ else _) _ = (_, Ret ?due) |- _ =>
    assert (Hdue : truthy (get_opt inv "dueDate") = true -> due = get_opt inv "dueDate")
      by (intros Ht; rewrite Ht in Hd; now apply ret_inv in Hd as [-> _])
  end.
  match goal with Hf : is_finite _ = true |- _ => rewrite Hf in *; clear Hf end.
  match goal with Hr : ret (VNum _) _ = (_, Ret ?r) |- _ => apply ret_inv in Hr as [-> _] end.
  match goal with Hi : _ = (_, Ret ?items) |- _ =>
    match type of Hi with context [isArray] =>
      assert (Hitems : isArray (get_opt inv "items") = true ->
                       Forall2 item_kept (elems (get_opt inv "items")) items)
    end
  end.
  { intros Ha.
    match goal with Hi : _ = (_, Ret _) |- _ =>
      match type of Hi with context [isArray] => rewrite Ha in Hi;
        eapply mapM_Forall2; [|exact Hi]; apply normalize_item_kept
      end
    end. }
  split; [|split; [|split; [|split]]];
    cbn [get_opt field lookup String.eqb Ascii.eqb Bool.eqb elems].
  - intros k [<-|[<-|[<-|[<-|[<-|[]]]]]] Hk;
      cbn [get_opt field lookup String.eqb Ascii.eqb Bool.eqb];
      auto using or_else_kept.
  - intros Hs. now rewrite Hs.
  - intros Hs. now rewrite Hs.
  - reflexivity.
  - exact Hitems.
Qed.

Lemma normalize_client_kept (c : value) (w w' : world) (o : value) :
  normalize_client uid_of c w = (w', Ret o) -> client_kept c o.
Proof.
  unfold normalize_client. intros H. monad_inv H. reads.
  match goal with Hi : (if truthy _ then _ else _) _ = _ |- _ =>
    pose proof (id_or_uid_kept _ _ _ _ Hi) as Hid end.
  intros k [<-|[<-|[<-|[<-|[<-|[<-|[<-|[]]]]]]]] Hk;
    cbn [get_opt field lookup String.eqb Ascii.eqb Bool.eqb];
    auto using or_else_kept.
Qed.

(** What [normalizeData] keeps.  The state it returns for an object has
    the invoices and the clients of the object, as many and in the same
    order ([invoices] or [clients] that is not an array counting as
    empty).  An invoice keeps its identifier, number, dates and client
    reference when they are truthy, its status when it is one of the four
    and its notes when they are a string; its rate becomes the number
    [toNumber] reads.  Its line items, when they are an array, are kept in
    number and order, with their truthy identifier, description and unit,
    and the quantity and price that [toNumber] reads.  A client keeps every
    truthy field. *)
Theorem normalizeData_keeps_entries (raw : value) (n : nat) (d : value) :
  is_object raw = true ->
  normalize todayISO uid_of date_plus raw n = Ret d ->
  Forall2 invoice_kept (elems (get_opt raw "invoices")) (elems (get_opt d "invoices"))
  /\ Forall2 client_kept (elems (get_opt raw "clients")) (elems (get_opt d "clients")).
Proof.
  intros Hraw H.
  apply normalize_returns in H as (_ & w1 & w2 & invs & cls & Hinv & Hcl & Hd).
  assert (Hs : subject raw = raw) by (unfold subject; now rewrite Hraw).
  rewrite Hs in *.
  assert (Hobj : objlike raw = true) by now rewrite <- is_object_objlike.
  rewrite prepared_invoices, elems_array_or_empty in Hinv by assumption.
  rewrite prepared_clients, elems_array_or_empty in Hcl by assumption.
  assert (Hp : objlike (prepared raw) = true) by now rewrite prepared_objlike.
  subst d.
  rewrite get_opt_put_neq by discriminate.
  rewrite !get_opt_put_eq by now rewrite ?objlike_put.
  cbn [elems]. split.
  - eapply mapM_Forall2; [|exact Hinv]. apply normalize_invoice_kept.
  - eapply mapM_Forall2; [|exact Hcl]. apply normalize_client_kept.
Qed.

End Kept.

(** The statement above for the sample document. *)
Lemma normalizeData_keeps_entries_sample :
  is_object sample_document = true
  /\ normalize sample_today sample_uid sample_date_plus sample_document 0 = Ret sample_repaired
  /\ Forall2 invoice_kept (elems (get_opt sample_document "invoices"))
       (elems (get_opt sample_repaired "invoices"))
  /\ Forall2 client_kept (elems (get_opt sample_document "clients"))
       (elems (get_opt sample_repaired "clients")).
Proof.
  assert (H : normalize sample_today sample_uid sample_date_plus sample_document 0
              = Ret sample_repaired) by (vm_compute; reflexivity).
  split; [reflexivity|]. split; [exact H|].
  apply (normalizeData_keeps_entries sample_today sample_uid sample_date_plus
           sample_document 0 sample_repaired eq_refl H).
Defined.

(* ================================================================== *)
(** * The settings, the profile and the state at start *)
(* ================================================================== *)

Lemma prepared_profile (d : value) :
  objlike d = true ->
  get_opt (prepared d) "profile" = merged base_profile (get_opt d "profile").
Proof.
  intros H. unfold prepared.
  rewrite !get_opt_put_neq by discriminate.
  rewrite get_opt_put_eq by now rewrite objlike_put.
  now rewrite get_opt_put_neq by discriminate.
Qed.

Lemma merged_falsy (base_ps : props) (x : value) :
  NoDup (keys base_ps) -> truthy x = false -> merged base_ps x = VObj base_ps.
Proof.
  intros Hnd H. unfold merged, or_else. rewrite H.
  unfold spread at 1. cbn [own_props fold_left]. now rewrite spread_nil_obj.
Qed.

Lemma merged_field (base_ps s : props) (k : string) :
  NoDup (keys base_ps) -> NoDup (keys s) ->
  get_opt (merged base_ps (VObj s)) k
  = match lookup k s with Some v => v | None => field k base_ps end.
Proof.
  intros Hb Hs. unfold merged. cbn [or_else truthy get_opt].
  rewrite field_spread_obj by assumption. now rewrite spread_nil_obj.
Qed.

Lemma base_settings_NoDup : NoDup (keys base_settings).
Proof. apply distinct_NoDup. reflexivity. Qed.

Lemma base_profile_NoDup : NoDup (keys base_profile).
Proof. apply distinct_NoDup. reflexivity. Qed.

Section Sections.

Variable todayISO : string.
Variable uid_of : nat -> string.
Variable date_plus : value -> value -> option string.
Variable JSON_parse : string -> option value.

Lemma normalize_sections (raw : value) (n : nat) (d : value) :
  normalize todayISO uid_of date_plus raw n = Ret d ->
  get_opt d "settings" = merged base_settings (get_opt (subject raw) "settings")
  /\ get_opt d "profile" = merged base_profile (get_opt (subject raw) "profile").
Proof.
  intros H.
  apply normalize_returns in H as (_ & w1 & w2 & invs & cls & _ & _ & ->).
  rewrite !get_opt_put_neq by discriminate.
  split; [apply prepared_settings | apply prepared_profile]; apply subject_objlike.
Qed.

(** The settings and the profile of the state that [normalizeData] returns
    for an object are a shallow merge: a key that the settings of the
    object have keeps the value it has there, whatever the value; any other
    key of the defaults has its default.  Settings that are missing or
    falsy give the defaults.  The same holds of the profile. *)
Theorem normalizeData_merges_defaults (raw : value) (n : nat) (d : value) :
  is_object raw = true ->
  normalize todayISO uid_of date_plus raw n = Ret d ->
  (truthy (get_opt raw "settings") = false -> get_opt d "settings" = VObj base_settings)
  /\ (forall s : props,
        get_opt raw "settings" = VObj s -> NoDup (keys s) ->
        forall k : string,
          get_opt (get_opt d "settings") k
          = match lookup k s with Some v => v | None => field k base_settings end)
  /\ (truthy (get_opt raw "profile") = false -> get_opt d "profile" = VObj base_profile)
  /\ (forall p : props,
        get_opt raw "profile" = VObj p -> NoDup (keys p) ->
        forall k : string,
          get_opt (get_opt d "profile") k
          = match lookup k p with Some v => v | None => field k base_profile end).
Proof.
  intros Hraw H. apply normalize_sections in H as [Hs Hp].
  assert (Hsub : subject raw = raw) by (unfold subject; now rewrite Hraw).
  rewrite Hsub in *. rewrite Hs, Hp.
  split; [|split; [|split]].
  - apply merged_falsy, base_settings_NoDup.
  - intros s -> Hnd k. apply merged_field; [apply base_settings_NoDup | assumption].
  - apply merged_falsy, base_profile_NoDup.
  - intros p -> Hnd k. apply merged_field; [apply base_profile_NoDup | assumption].
Qed.

Lemma normalize_non_object (raw : value) (n : nat) :
  is_object raw = false -> normalize todayISO uid_of date_plus raw n = Ret base.
Proof.
  intros H. unfold normalize, normalizeData. rewrite H. reflexivity.
Qed.

(** The state at start.  With nothing stored, with the empty string, with
    a text that [JSON.parse] rejects and with the text of a value that is
    not an object ([null], a number, a string, a boolean), the application
    starts in the default state: the default settings, an empty profile,
    no client and no invoice. *)
Theorem initial_app_defaults (n : nat) :
  initial_app todayISO uid_of date_plus JSON_parse None n = Ret base
  /\ initial_app todayISO uid_of date_plus JSON_parse (Some "") n = Ret base
  /\ (forall s : string,
        JSON_parse s = None ->
        initial_app todayISO uid_of date_plus JSON_parse (Some s) n = Ret base)
  /\ (forall (s : string) (v : value),
        JSON_parse s = Some v -> is_object v = false ->
        initial_app todayISO uid_of date_plus JSON_parse (Some s) n = Ret base).
Proof.
  unfold initial_app. split; [|split; [|split]].
  - now apply normalize_non_object.
  - now apply normalize_non_object.
  - intros s H. apply normalize_non_object. unfold safeParse. rewrite H.
    now destruct (truthy (VStr s)).
  - intros s v H Hv. apply normalize_non_object. unfold safeParse. rewrite H.
    destruct (truthy (VStr s)); [|reflexivity].
    destruct v; try reflexivity; exact Hv.
Qed.

End Sections.

(** The statement above for the sample document, whose settings hold a
    currency only. *)
Lemma normalizeData_merges_defaults_sample :
  is_object sample_document = true
  /\ normalize sample_today sample_uid sample_date_plus sample_document 0 = Ret sample_repaired
  /\ get_opt (get_opt sample_repaired "settings") "currency" = VStr "USD"
  /\ get_opt (get_opt sample_repaired "settings") "defaultVatRate" = VNum (Fin 19 0)
  /\ get_opt sample_repaired "profile" = VObj base_profile.
Proof.
  assert (H : normalize sample_today sample_uid sample_date_plus sample_document 0
              = Ret sample_repaired) by (vm_compute; reflexivity).
  pose proof (normalizeData_merges_defaults sample_today sample_uid sample_date_plus
                sample_document 0 sample_repaired eq_refl H) as (_ & Hs & Hp & _).
  split; [reflexivity|]. split; [exact H|].
  split; [|split].
  - apply (Hs [("currency", VStr "USD")] eq_refl). apply distinct_NoDup. reflexivity.
  - apply (Hs [("currency", VStr "USD")] eq_refl). apply distinct_NoDup. reflexivity.
  - apply Hp. reflexivity.
Defined.

(* ================================================================== *)
(** * calcTotals on entries that are null *)
(* ================================================================== *)

Lemma reduce_lines_throws (items : list value) (it : value) (s : num) :
  In it items -> nullish it = true -> reduce_lines items s = Throw TypeError.
Proof.
  revert s. induction items as [|x r IH]; intros s Hin Hn; [contradiction|].
  cbn [reduce_lines]. destruct Hin as [->|Hin].
  - destruct it; try discriminate; reflexivity.
  - destruct (add_line s x) as [s'|[]]; simpl; [now apply IH | reflexivity].
Qed.

(** [calcTotals] throws a [TypeError] for an invoice that is [null] or
    [undefined], and for an invoice one of whose line items is. *)
Theorem calcTotals_throws_on_null (inv : value) :
  (nullish inv = true -> calcTotals inv = Throw TypeError)
  /\ (forall it : value,
        In it (lines inv) -> nullish it = true -> calcTotals inv = Throw TypeError).
Proof.
  split.
  - destruct inv; try discriminate; reflexivity.
  - intros it Hin Hn. unfold calcTotals.
    destruct (nullish inv) eqn:E; [destruct inv; try discriminate; reflexivity|].
    rewrite get_not_nullish by assumption. cbn [obind].
    fold (lines inv). now rewrite (reduce_lines_throws (lines inv) it zero Hin Hn).
Qed.

(** The statement above for an invoice whose second line item is [null]. *)
Lemma calcTotals_throws_on_null_sample :
  In VNull (lines (VObj [("items", VArr [VObj [("qty", VNum (Fin 1 0))]; VNull] [])]))
  /\ nullish VNull = true
  /\ calcTotals (VObj [("items", VArr [VObj [("qty", VNum (Fin 1 0))]; VNull] [])])
     = Throw TypeError.
Proof.
  split; [right; left; reflexivity|]. split; [reflexivity|].
  apply (proj2 (calcTotals_throws_on_null
                  (VObj [("items", VArr [VObj [("qty", VNum (Fin 1 0))]; VNull] [])])) VNull).
  - right; left; reflexivity.
  - reflexivity.
Defined.

(* ================================================================== *)
(** * The editor of an invoice *)
(* ================================================================== *)

Lemma as_array_or_else_items (its : value) (items : list value) :
  as_array (or_else its (VArr [] [])) = Ret items -> items = items_of its.
Proof.
  unfold or_else. destruct its; simpl; try destruct (negb _); simpl;
    try destruct b; simpl; intros H; inversion H; reflexivity.
Qed.

Lemma toNumber_again (v : value) (n : num) : toNumber v = Ret n -> toNumber (VNum n) = Ret n.
Proof.
  intros H. apply toNumber_number; [eapply toNumber_finite | eapply toNumber_canonical]; eauto.
Qed.

Lemma saved_item_line (it it' : value) (s : num) :
  saved_item it = Ret it' ->
  add_line s it' = add_line s it /\ exists r, add_line s it = Ret r.
Proof.
  unfold saved_item. intros H. obind_inv H. inversion H; subst it'. clear H.
  unfold add_line. rewrite Ha, Ha1. cbn [obind]. rewrite Ha0, Ha2. cbn [obind get].
  rewrite field_assign_neq by discriminate. rewrite field_assign_eq.
  rewrite (toNumber_again _ _ Ha0). cbn [obind].
  rewrite field_assign_eq. rewrite (toNumber_again _ _ Ha2). cbn [obind].
  split; [reflexivity | eauto].
Qed.

Lemma saved_items_lines (items items' : list value) :
  omap saved_item items = Ret items' ->
  forall s : num,
    reduce_lines items' s = reduce_lines items s /\ exists r, reduce_lines items s = Ret r.
Proof.
  revert items'. induction items as [|it r IH]; intros items' H s.
  - inversion H. simpl. eauto.
  - cbn [omap] in H. obind_inv H. inversion H; subst items'. clear H.
    destruct (saved_item_line it a s Ha) as (Heq & x & Hx).
    cbn [reduce_lines]. rewrite Heq, Hx. cbn [obind]. now apply IH.
Qed.

(** The totals of the editor are the totals of what it saves: when the
    button Save builds an invoice from the draft, [calcTotals] returns for
    the draft, and returns the same totals for the invoice that is saved. *)
Theorem saved_invoice_totals (draft inv : value) :
  saved_of draft = Ret inv ->
  calcTotals inv = calcTotals draft /\ exists t : totals, calcTotals draft = Ret t.
Proof.
  unfold saved_of. intros H. obind_inv H. inversion H; subst inv. clear H.
  apply as_array_or_else_items in Ha2. subst a2.
  unfold calcTotals. cbn [get]. rewrite field_assign_eq. cbn [obind items_of].
  rewrite Ha1. cbn [obind].
  destruct (saved_items_lines _ _ Ha3 zero) as (Heq & r & Hr).
  rewrite Heq, Hr. cbn [obind].
  rewrite field_assign_neq by discriminate. rewrite field_assign_eq.
  rewrite (toNumber_again _ _ Ha0). rewrite Ha. cbn [obind]. rewrite Ha0. cbn [obind].
  split; [reflexivity | eauto].
Qed.

(** The statement above for a draft with a quantity typed as a string and
    a rate typed with a comma. *)
Lemma saved_invoice_totals_sample :
  saved_of (VObj [("id", VStr "0001"); ("vatRate", VStr "19,5");
                  ("items", VArr [VObj [("id", VStr "l1"); ("qty", VStr "2");
                                        ("unitPrice", VNum (Fin 125 (-1)))]] [])])
  = Ret (VObj [("id", VStr "0001"); ("vatRate", VNum (Fin 195 (-1)));
               ("items", VArr [VObj [("id", VStr "l1"); ("qty", VNum (Fin 2 0));
                                     ("unitPrice", VNum (Fin 125 (-1)))]] [])])
  /\ calcTotals (VObj [("id", VStr "0001"); ("vatRate", VNum (Fin 195 (-1)));
                       ("items", VArr [VObj [("id", VStr "l1"); ("qty", VNum (Fin 2 0));
                                             ("unitPrice", VNum (Fin 125 (-1)))]] [])])
     = calcTotals (VObj [("id", VStr "0001"); ("vatRate", VStr "19,5");
                         ("items", VArr [VObj [("id", VStr "l1"); ("qty", VStr "2");
                                               ("unitPrice", VNum (Fin 125 (-1)))]] [])]).
Proof.
  assert (H : saved_of (VObj [("id", VStr "0001"); ("vatRate", VStr "19,5");
                              ("items", VArr [VObj [("id", VStr "l1"); ("qty", VStr "2");
                                                    ("unitPrice", VNum (Fin 125 (-1)))]] [])])
              = Ret (VObj [("id", VStr "0001"); ("vatRate", VNum (Fin 195 (-1)));
                           ("items", VArr [VObj [("id", VStr "l1"); ("qty", VNum (Fin 2 0));
                                                 ("unitPrice", VNum (Fin 125 (-1)))]] [])]))
    by (vm_compute; reflexivity).
  split; [exact H|].
  exact (proj1 (saved_invoice_totals _ _ H)).
Defined.

Lemma omap_fixed {A : Type} (f : A -> outcome A) (l : list A) :
  Forall (fun x => f x = Ret x) l -> omap f l = Ret l.
Proof.
  induction 1 as [|x r Hx Hr IH]; [reflexivity|].
  cbn [omap]. rewrite Hx. cbn [obind]. rewrite IH. reflexivity.
Qed.

Lemma or_else_zero (v : value) : plain_number v -> or_else v (VNum zero) = v.
Proof.
  intros (x & -> & Hf & Hc). unfold or_else. cbn [truthy].
  destruct x as [m e| | |]; try discriminate. cbn [is_zero is_nan]. rewrite orb_false_r.
  destruct (Z.eqb_spec m 0) as [->|Hm]; [|reflexivity].
  destruct Hc as [He _]. now rewrite (He eq_refl).
Qed.

Lemma saved_item_fixed (it : value) : item_normal it -> saved_item it = Ret it.
Proof.
  intros (id & desc & qty & unit & price & -> & _ & _ & Hqty & _ & Hprice).
  apply plain_number_fixed in Hqty as (q & -> & Hq & _).
  apply plain_number_fixed in Hprice as (p & -> & Hp & _).
  unfold saved_item. cbn [get field lookup String.eqb Ascii.eqb Bool.eqb obind].
  rewrite Hq. cbn [obind]. rewrite Hp. reflexivity.
Qed.

Lemma draft_item_fixed (it : value) : item_normal it -> draft_item it = Ret it.
Proof.
  intros (id & desc & qty & unit & price & -> & _ & _ & Hqty & _ & Hprice).
  pose proof (or_else_zero _ Hqty) as Hqz. pose proof (or_else_zero _ Hprice) as Hpz.
  apply plain_number_fixed in Hqty as (q & -> & Hq & _).
  apply plain_number_fixed in Hprice as (p & -> & Hp & _).
  unfold draft_item. cbn [get field lookup String.eqb Ascii.eqb Bool.eqb obind].
  rewrite Hq. cbn [obind]. rewrite Hp. cbn [obind]. rewrite Hqz, Hpz. reflexivity.
Qed.

Lemma saved_of_fixed (inv : value) : invoice_normal inv -> saved_of inv = Ret inv.
Proof.
  intros (id & number & issue & due & client & status & rate & notes & items & -> & _
          & _ & _ & _ & _ & _ & Hrate & Hitems & _).
  apply plain_number_fixed in Hrate as (r & -> & Hr & _).
  unfold saved_of. cbn [get field lookup String.eqb Ascii.eqb Bool.eqb obind].
  rewrite Hr. cbn [obind or_else truthy as_array].
  rewrite (omap_fixed saved_item items).
  2:{ eapply Forall_impl; [|exact Hitems]. intros it Hit. now apply saved_item_fixed. }
  reflexivity.
Qed.

Lemma invoice_normal_rate (inv x : value) :
  invoice_normal inv -> plain_number x -> invoice_normal (put "vatRate" x inv).
Proof.
  intros (id & number & issue & due & client & status & rate & notes & items & -> & H) Hx.
  do 9 eexists. split; [reflexivity|]. tauto.
Qed.

Lemma draft_of_fixed (inv dv : value) :
  invoice_normal inv -> stringable dv = true ->
  draft_of inv dv
  = Ret (if truthy (get_opt inv "vatRate") then inv
         else put "vatRate" (VNum (coerce dv)) inv).
Proof.
  intros (id & number & issue & due & client & status & rate & notes & items & -> & _
          & _ & _ & _ & _ & _ & Hrate & Hitems & _) Hdv.
  apply plain_number_fixed in Hrate as (r & -> & Hr & _).
  unfold draft_of. cbn [get get_opt field lookup String.eqb Ascii.eqb Bool.eqb obind].
  rewrite Hr. cbn [obind].
  rewrite (toNumber_coerce _ Hdv).
  destruct (truthy (VNum r)); cbn [obind or_else truthy as_array];
    (rewrite (omap_fixed draft_item items);
     [reflexivity
     | eapply Forall_impl; [|exact Hitems]; intros it Hit; now apply draft_item_fixed]).
Qed.

Section Editor.

Variable todayISO : string.
Variable uid_of : nat -> string.
Variable date_plus : value -> value -> option string.

Hypothesis today_nonempty : todayISO <> "".
Hypothesis uid_nonempty : forall n : nat, uid_of n <> "".
Hypothesis date_plus_nonempty :
  forall (iso days : value) (s : string), date_plus iso days = Some s -> s <> "".

(** Opening an invoice in the editor and saving it untouched.  For an
    invoice of a state that [normalizeData] has returned, and a default
    rate that has a string form, the draft of the editor is the invoice
    itself when the rate of the invoice is not 0; when it is 0 the draft
    has the default rate of the settings in its place.  Saving the draft
    gives the draft: an invoice at the rate 0 comes back with the default
    rate. *)
Theorem editor_round_trip (raw : value) (n : nat) (d inv dv : value) :
  normalize todayISO uid_of date_plus raw n = Ret d ->
  In inv (elems (get_opt d "invoices")) ->
  stringable dv = true ->
  draft_of inv dv = Ret (reopened inv dv)
  /\ saved_of (reopened inv dv) = Ret (reopened inv dv).
Proof.
  intros H Hin Hdv.
  apply (normalize_normal_state todayISO uid_of date_plus
           today_nonempty uid_nonempty date_plus_nonempty) in H
    as (_ & _ & invs & cls & Hdi & _ & Hinvs & _).
  rewrite Hdi in Hin. cbn [elems] in Hin.
  rewrite Forall_forall in Hinvs. specialize (Hinvs inv Hin).
  split; [now apply draft_of_fixed|].
  apply saved_of_fixed. unfold reopened.
  destruct (truthy (get_opt inv "vatRate")); [assumption|].
  apply invoice_normal_rate; [assumption|].
  unfold stringable in Hdv. destruct (js_String dv) eqn:E; [|discriminate].
  apply (plain_number_toNumber dv). apply toNumber_coerce. unfold stringable. now rewrite E.
Qed.

End Editor.

(** The statement above for the invoice that [normalizeData] builds from
    the empty object in the sample document, whose rate is 0, and the
    default rate 19. *)
Lemma editor_round_trip_sample :
  normalize sample_today sample_uid sample_date_plus sample_document 0 = Ret sample_repaired
  /\ In (repaired_empty_invoice sample_today sample_uid sample_date_plus 3)
        (elems (get_opt sample_repaired "invoices"))
  /\ stringable (VNum (Fin 19 0)) = true
  /\ reopened (repaired_empty_invoice sample_today sample_uid sample_date_plus 3)
       (VNum (Fin 19 0))
     = put "vatRate" (VNum (Fin 19 0))
         (repaired_empty_invoice sample_today sample_uid sample_date_plus 3)
  /\ draft_of (repaired_empty_invoice sample_today sample_uid sample_date_plus 3)
       (VNum (Fin 19 0))
     = Ret (reopened (repaired_empty_invoice sample_today sample_uid sample_date_plus 3)
              (VNum (Fin 19 0)))
  /\ saved_of (reopened (repaired_empty_invoice sample_today sample_uid sample_date_plus 3)
                 (VNum (Fin 19 0)))
     = Ret (reopened (repaired_empty_invoice sample_today sample_uid sample_date_plus 3)
              (VNum (Fin 19 0))).
Proof.
  assert (H : normalize sample_today sample_uid sample_date_plus sample_document 0
              = Ret sample_repaired) by (vm_compute; reflexivity).
  assert (Hin : In (repaired_empty_invoice sample_today sample_uid sample_date_plus 3)
                  (elems (get_opt sample_repaired "invoices")))
    by (right; left; reflexivity).
  split; [exact H|]. split; [exact Hin|]. split; [reflexivity|]. split; [reflexivity|].
  apply (editor_round_trip sample_today sample_uid sample_date_plus
           ltac:(discriminate) sample_uid_nonempty sample_date_plus_nonempty
           sample_document 0 sample_repaired _ (VNum (Fin 19 0)) H Hin eq_refl).
Defined.

(* ================================================================== *)
(** * Records and states *)
(* ================================================================== *)

Lemma NoDup_distinct (l : list string) : NoDup l -> distinct l = true.
Proof.
  induction 1 as [|k r Hk Hr IH]; [reflexivity|]. simpl. rewrite IH, andb_true_r.
  apply negb_true_iff. destruct (existsb (String.eqb k) r) eqn:E; [|reflexivity].
  apply existsb_exists in E as (x & Hx & He). apply String.eqb_eq in He. now subst x.
Qed.

(** [{...a, k: v}] on a record [a]. *)
Lemma record_spread (a : value) (k : string) (v : value) :
  is_record a = true -> VObj (assign k v (spread [] a)) = put k v a.
Proof.
  intros H. apply is_record_inv in H as (ps & -> & Hnd).
  now rewrite spread_nil_obj.
Qed.

Lemma is_record_put (a : value) (k : string) (v : value) :
  is_record a = true -> is_record (put k v a) = true.
Proof.
  intros H. apply is_record_inv in H as (ps & -> & Hnd). cbn [put is_record].
  now apply NoDup_distinct, assign_NoDup.
Qed.

Lemma is_record_objlike (a : value) : is_record a = true -> objlike a = true.
Proof. now destruct a. Qed.

Lemma remove_by_id_without (id : value) (l : list value) :
  all_entries l = true -> remove_by_id id l = Ret (without_id id l).
Proof.
  unfold all_entries, without_id.
  induction l as [|x r IH]; simpl; intros H; [reflexivity|].
  apply andb_prop in H as [Hx Hr]. apply negb_true_iff in Hx.
  rewrite get_not_nullish by assumption. cbn [obind]. rewrite IH by assumption.
  cbn [obind]. unfold has_id. now destruct (strict_eq (get_opt x "id") id).
Qed.

Lemma find_by_id_none (id : value) (l : list value) :
  all_entries l = true -> existsb (has_id id) l = false -> find_by_id id l = Ret VUndef.
Proof.
  unfold all_entries.
  induction l as [|x r IH]; simpl; intros H He; [reflexivity|].
  apply andb_prop in H as [Hx Hr]. apply negb_true_iff in Hx.
  apply orb_false_iff in He as [He1 He2].
  rewrite get_not_nullish by assumption. cbn [obind]. unfold has_id in He1.
  rewrite He1. now apply IH.
Qed.

Lemma all_entries_filter (p : value -> bool) (l : list value) :
  all_entries l = true -> all_entries (filter p l) = true.
Proof.
  unfold all_entries. intros H. apply forallb_forall. intros x Hx.
  apply filter_In in Hx as [Hx _]. now apply (forallb_In _ _ _ H).
Qed.

Lemma without_id_none (id : value) (l : list value) :
  existsb (has_id id) (without_id id l) = false.
Proof.
  unfold without_id. induction l as [|x r IH]; simpl; [reflexivity|].
  destruct (has_id id x) eqn:E; simpl; [exact IH|]. now rewrite E, IH.
Qed.

(* ================================================================== *)
(** * deleteInvoice *)
(* ================================================================== *)

Lemma deleteInvoice_parts (id : value) (u : ui) (invs : list value) (own : props) :
  is_record (app u) = true ->
  get_opt (app u) "invoices" = VArr invs own ->
  all_entries invs = true ->
  exists u' : ui,
    deleteInvoice id true u = Ret u'
    /\ app u' = put "invoices" (VArr (without_id id invs) []) (app u).
Proof.
  intros Ha Hi Hn. unfold deleteInvoice. cbn [negb].
  rewrite get_objlike by now apply is_record_objlike. rewrite Hi.
  cbn [obind or_else truthy as_array]. rewrite remove_by_id_without by assumption.
  cbn [obind]. rewrite record_spread by assumption.
  eexists. split; [reflexivity|]. cbn [app notify]. now destruct (strict_eq _ _).
Qed.

(** Without the confirmation [deleteInvoice] does nothing.  With it, in a
    state that is a record with an array of invoices none of which is
    [null] or [undefined], it removes every invoice that has the
    identifier and keeps the others, in their order; no other property of
    the state changes; the active invoice is cleared when it had the
    identifier, and kept otherwise; one notice is raised, also when no
    invoice has the identifier.  Afterwards no invoice can be found under
    the identifier. *)
Theorem deleteInvoice_removes_matching
    (id : value) (u : ui) (invs : list value) (own : props) :
  is_record (app u) = true ->
  get_opt (app u) "invoices" = VArr invs own ->
  all_entries invs = true ->
  deleteInvoice id false u = Ret u
  /\ exists u' : ui,
       deleteInvoice id true u = Ret u'
       /\ get_opt (app u') "invoices" = VArr (without_id id invs) []
       /\ (forall k : string, k <> "invoices" -> get_opt (app u') k = get_opt (app u) k)
       /\ activeInvoiceId u'
          = (if strict_eq (activeInvoiceId u) id then VNull else activeInvoiceId u)
       /\ notices u' = "Deleted" :: notices u
       /\ find_by_id id (without_id id invs) = Ret VUndef.
Proof.
  intros Ha Hi Hn. split; [reflexivity|].
  unfold deleteInvoice. cbn [negb].
  rewrite get_objlike by now apply is_record_objlike. rewrite Hi.
  cbn [obind or_else truthy as_array]. rewrite remove_by_id_without by assumption.
  cbn [obind]. rewrite record_spread by assumption.
  eexists. split; [reflexivity|].
  assert (Happ : forall v, app (if strict_eq (activeInvoiceId u) id
                                then setActiveInvoiceId VNull (setApp v u)
                                else setApp v u) = v)
    by (intros v; now destruct (strict_eq _ _)).
  cbn [app notify notices activeInvoiceId]. rewrite Happ.
  split; [apply get_opt_put_eq; now apply is_record_objlike|].
  split; [intros k Hk; apply get_opt_put_neq; congruence|].
  split; [now destruct (strict_eq _ _)|].
  split; [now destruct (strict_eq _ _)|].
  apply find_by_id_none; [now apply all_entries_filter | apply without_id_none].
Qed.

(** The statement above for the first invoice of the sample state. *)
Lemma deleteInvoice_removes_matching_sample :
  is_record (app (sample_ui sample_state)) = true
  /\ get_opt (app (sample_ui sample_state)) "invoices" = VArr sample_invoices []
  /\ all_entries sample_invoices = true
  /\ without_id (VStr "0001") sample_invoices
     = [sample_invoice_of "0002" "2026-02-01" "c2" (VArr [] []);
        sample_invoice_of "0003" "2026-01-20" "c1" (VArr [] [])]
  /\ deleteInvoice (VStr "0001") false (sample_ui sample_state) = Ret (sample_ui sample_state)
  /\ exists u' : ui,
       deleteInvoice (VStr "0001") true (sample_ui sample_state) = Ret u'
       /\ get_opt (app u') "invoices" = VArr (without_id (VStr "0001") sample_invoices) []
       /\ (forall k : string,
             k <> "invoices" -> get_opt (app u') k = get_opt (app (sample_ui sample_state)) k)
       /\ activeInvoiceId u'
          = (if strict_eq (activeInvoiceId (sample_ui sample_state)) (VStr "0001")
             then VNull else activeInvoiceId (sample_ui sample_state))
       /\ notices u' = "Deleted" :: notices (sample_ui sample_state)
       /\ find_by_id (VStr "0001") (without_id (VStr "0001") sample_invoices) = Ret VUndef.
Proof.
  split; [reflexivity|]. split; [reflexivity|]. split; [reflexivity|]. split; [reflexivity|].
  apply (deleteInvoice_removes_matching (VStr "0001") (sample_ui sample_state)
           sample_invoices []); reflexivity.
Defined.

(* ================================================================== *)
(** * deleteClient: the clients *)
(* ================================================================== *)

Lemma client_ok_entries (cls : list value) :
  forallb client_ok cls = true -> all_entries cls = true.
Proof.
  intros H. apply forallb_forall. intros x Hx.
  apply (forallb_In _ _ _ H) in Hx. apply andb_prop in Hx as [Hx _].
  apply is_record_not_nullish in Hx. now rewrite Hx.
Qed.

Lemma without_client_record (id a : value) (invs cls : list value) (oi oc : props) :
  is_record a = true ->
  get_opt a "invoices" = VArr invs oi ->
  get_opt a "clients" = VArr cls oc ->
  forallb is_record invs = true ->
  all_entries cls = true ->
  without_client id a
  = Ret (put "invoices" (VArr (map (cleared id) invs) [])
           (put "clients" (VArr (without_id id cls) []) a)).
Proof.
  intros Ha Hi Hc Hinv Hcl. unfold without_client.
  pose proof (is_record_objlike a Ha) as Hobj.
  rewrite !get_objlike by assumption. rewrite Hi, Hc.
  cbn [obind or_else truthy as_array].
  rewrite (omap_map _ (cleared id)).
  2:{ intros x Hx. apply clear_client_cleared. eapply forallb_In; eauto. }
  cbn [obind]. rewrite remove_by_id_without by assumption. cbn [obind].
  apply is_record_inv in Ha as (ps & -> & Hnd). now rewrite spread_nil_obj.
Qed.

(** Without the confirmation [deleteClient] does nothing.  With it, in a
    state that is a record whose invoices are records and whose clients
    are records with a name that is a string or missing, it removes every
    client that has the identifier and keeps the others, in their order;
    the settings, the profile and the active invoice stay as they are; one
    notice is raised.  Afterwards no client can be found under the
    identifier. *)
Theorem deleteClient_removes_client
    (id : value) (u : ui) (invs cls : list value) (oi oc : props) :
  is_record (app u) = true ->
  get_opt (app u) "invoices" = VArr invs oi ->
  get_opt (app u) "clients" = VArr cls oc ->
  forallb is_record invs = true ->
  forallb client_ok cls = true ->
  deleteClient id false u = Ret u
  /\ exists u' : ui,
       deleteClient id true u = Ret u'
       /\ get_opt (app u') "clients" = VArr (without_id id cls) []
       /\ (forall k : string,
             k <> "clients" -> k <> "invoices" -> get_opt (app u') k = get_opt (app u) k)
       /\ activeInvoiceId u' = activeInvoiceId u
       /\ notices u' = "Client deleted" :: notices u
       /\ find_by_id id (without_id id cls) = Ret VUndef.
Proof.
  intros Ha Hi Hc Hinv Hcl.
  pose proof (client_ok_entries cls Hcl) as Hn.
  destruct (confirm_name_total (app u) id cls oc (is_record_not_nullish _ Ha) Hc Hcl)
    as (s & Hs).
  unfold deleteClient. rewrite Hs. cbn [obind negb]. split; [reflexivity|].
  rewrite (without_client_record id (app u) invs cls oi oc) by assumption.
  cbn [obind]. eexists. split; [reflexivity|].
  cbn [app notify setApp notices activeInvoiceId].
  pose proof (is_record_objlike _ Ha) as Hobj.
  split; [rewrite get_opt_put_neq by discriminate; now apply get_opt_put_eq|].
  split; [intros k H1 H2; rewrite !get_opt_put_neq by congruence; reflexivity|].
  split; [reflexivity|]. split; [reflexivity|].
  apply find_by_id_none; [now apply all_entries_filter | apply without_id_none].
Qed.

(** The statement above for the client [c1] of the sample state. *)
Lemma deleteClient_removes_client_sample :
  is_record (app (sample_ui sample_state)) = true
  /\ get_opt (app (sample_ui sample_state)) "invoices" = VArr sample_invoices []
  /\ get_opt (app (sample_ui sample_state)) "clients" = VArr sample_clients []
  /\ forallb is_record sample_invoices = true
  /\ forallb client_ok sample_clients = true
  /\ without_id (VStr "c1") sample_clients = [sample_client "c2" "Bob"]
  /\ deleteClient (VStr "c1") false (sample_ui sample_state) = Ret (sample_ui sample_state)
  /\ exists u' : ui,
       deleteClient (VStr "c1") true (sample_ui sample_state) = Ret u'
       /\ get_opt (app u') "clients" = VArr (without_id (VStr "c1") sample_clients) []
       /\ (forall k : string,
             k <> "clients" -> k <> "invoices" ->
             get_opt (app u') k = get_opt (app (sample_ui sample_state)) k)
       /\ activeInvoiceId u' = activeInvoiceId (sample_ui sample_state)
       /\ notices u' = "Client deleted" :: notices (sample_ui sample_state)
       /\ find_by_id (VStr "c1") (without_id (VStr "c1") sample_clients) = Ret VUndef.
Proof.
  do 6 (split; [reflexivity|]).
  apply (deleteClient_removes_client (VStr "c1") (sample_ui sample_state)
           sample_invoices sample_clients [] []); reflexivity.
Defined.

(* ================================================================== *)
(** * Deletions in a state in normal form *)
(* ================================================================== *)

Lemma is_prepared_put (k : string) (v d : value) :
  k <> "settings" -> k <> "profile" -> isArray v = true ->
  objlike d = true -> is_prepared d -> is_prepared (put k v d).
Proof.
  intros H1 H2 Hv Hobj (Hs & Hp & Hc & Hi).
  unfold is_prepared. rewrite !(get_opt_put_neq k) by congruence.
  split; [assumption|]. split; [assumption|].
  split.
  - destruct (string_dec k "clients") as [->|Hk].
    + now rewrite get_opt_put_eq.
    + now rewrite get_opt_put_neq.
  - destruct (string_dec k "invoices") as [->|Hk].
    + now rewrite get_opt_put_eq.
    + now rewrite get_opt_put_neq.
Qed.

Lemma normal_state_put_invoices (d : value) (invs : list value) :
  normal_state d -> Forall invoice_normal invs ->
  normal_state (put "invoices" (VArr invs []) d).
Proof.
  intros (Hobj & Hprep & invs0 & cls & Hdi & Hdc & Hinvs & Hcls) H.
  split; [now rewrite objlike_put|].
  split; [apply is_prepared_put; trivial; discriminate|].
  exists invs, cls. rewrite get_opt_put_eq by assumption.
  rewrite get_opt_put_neq by discriminate. auto.
Qed.

Lemma normal_state_put_clients (d : value) (cls : list value) :
  normal_state d -> Forall client_normal cls ->
  normal_state (put "clients" (VArr cls []) d).
Proof.
  intros (Hobj & Hprep & invs & cls0 & Hdi & Hdc & Hinvs & Hcls) H.
  split; [now rewrite objlike_put|].
  split; [apply is_prepared_put; trivial; discriminate|].
  exists invs, cls. rewrite get_opt_put_eq by assumption.
  rewrite get_opt_put_neq by discriminate. auto.
Qed.

Lemma invoice_normal_record (inv : value) : invoice_normal inv -> is_record inv = true.
Proof.
  intros (id & number & issue & due & client & status & rate & notes & items & -> & _).
  reflexivity.
Qed.

Lemma client_normal_record (c : value) : client_normal c -> is_record c = true.
Proof.
  intros (id & name & address & email & phone & contact & notes & -> & _). reflexivity.
Qed.

Lemma Forall_forallb {A : Type} (P : A -> Prop) (p : A -> bool) (l : list A) :
  (forall x, P x -> p x = true) -> Forall P l -> forallb p l = true.
Proof.
  intros H Hl. apply forallb_forall. intros x Hx.
  rewrite Forall_forall in Hl. auto.
Qed.

Lemma Forall_filter {A : Type} (P : A -> Prop) (p : A -> bool) (l : list A) :
  Forall P l -> Forall P (filter p l).
Proof.
  intros H. apply Forall_forall. intros x Hx. apply filter_In in Hx as [Hx _].
  rewrite Forall_forall in H. auto.
Qed.

Lemma invoice_normal_cleared (id inv : value) :
  invoice_normal inv -> invoice_normal (cleared id inv).
Proof.
  intros H. unfold cleared. destruct (refers_to id inv); [|assumption].
  destruct H as (i & number & issue & due & client & status & rate & notes & items & -> & H).
  do 9 eexists. split; [reflexivity|].
  repeat match goal with H : _ /\ _ |- _ => destruct H end.
  repeat split; trivial.
Qed.

Section Deletions.

Variable todayISO : string.
Variable uid_of : nat -> string.
Variable date_plus : value -> value -> option string.

Hypothesis today_nonempty : todayISO <> "".
Hypothesis uid_nonempty : forall n : nat, uid_of n <> "".
Hypothesis date_plus_nonempty :
  forall (iso days : value) (s : string), date_plus iso days = Some s -> s <> "".

(** Deletions keep the normal form.  In a state that is a record and that
    [normalizeData] returns as it is, [deleteInvoice] returns a state that
    [normalizeData] returns as it is; so does [deleteClient] when the
    names of the clients are strings.  Loading such a state again changes
    nothing in it. *)
Theorem deletions_keep_normal_form (id : value) (u : ui) (n n' : nat) :
  is_record (app u) = true ->
  normalize todayISO uid_of date_plus (app u) n = Ret (app u) ->
  (exists u' : ui,
      deleteInvoice id true u = Ret u'
      /\ normalize todayISO uid_of date_plus (app u') n' = Ret (app u'))
  /\ (forallb client_ok (elems (get_opt (app u) "clients")) = true ->
      exists u' : ui,
        deleteClient id true u = Ret u'
        /\ normalize todayISO uid_of date_plus (app u') n' = Ret (app u')).
Proof.
  intros Ha H.
  apply (normalize_normal_state todayISO uid_of date_plus
           today_nonempty uid_nonempty date_plus_nonempty) in H.
  pose proof H as (Hobj & Hprep & invs & cls & Hdi & Hdc & Hinvs & Hcls).
  assert (Hrec : forallb is_record invs = true)
    by (eapply Forall_forallb; [|exact Hinvs]; apply invoice_normal_record).
  assert (Hent : all_entries invs = true).
  { eapply Forall_forallb; [|exact Hinvs]. intros x Hx.
    apply invoice_normal_record, is_record_not_nullish in Hx. now rewrite Hx. }
  split.
  - destruct (deleteInvoice_parts id u invs [] Ha Hdi Hent) as (u' & Hu' & Happ).
    exists u'. split; [assumption|]. rewrite Happ.
    apply normal_state_fixed, normal_state_put_invoices; [assumption|].
    now apply Forall_filter.
  - rewrite Hdc. cbn [elems]. intros Hok.
    destruct (confirm_name_total (app u) id cls [] (is_record_not_nullish _ Ha) Hdc Hok)
      as (s & Hs).
    unfold deleteClient. rewrite Hs. cbn [obind negb].
    rewrite (without_client_record id (app u) invs cls [] []);
      trivial; [|now apply client_ok_entries].
    cbn [obind]. eexists. split; [reflexivity|]. cbn [app notify setApp].
    apply normal_state_fixed, normal_state_put_invoices.
    + apply normal_state_put_clients; [assumption | now apply Forall_filter].
    + apply Forall_forall. intros x Hx. apply in_map_iff in Hx as (y & <- & Hy).
      apply invoice_normal_cleared. rewrite Forall_forall in Hinvs. auto.
Qed.

End Deletions.

(** The statement above for the first invoice of the repaired sample
    document. *)
Lemma deletions_keep_normal_form_sample :
  is_record (app (sample_ui sample_repaired)) = true
  /\ normalize sample_today sample_uid sample_date_plus (app (sample_ui sample_repaired)) 7
     = Ret (app (sample_ui sample_repaired))
  /\ (exists u' : ui,
        deleteInvoice (VStr "id0") true (sample_ui sample_repaired) = Ret u'
        /\ normalize sample_today sample_uid sample_date_plus (app u') 9 = Ret (app u'))
  /\ (forallb client_ok (elems (get_opt (app (sample_ui sample_repaired)) "clients")) = true ->
      exists u' : ui,
        deleteClient (VStr "id0") true (sample_ui sample_repaired) = Ret u'
        /\ normalize sample_today sample_uid sample_date_plus (app u') 9 = Ret (app u')).
Proof.
  assert (H : normalize sample_today sample_uid sample_date_plus
                (app (sample_ui sample_repaired)) 7
              = Ret (app (sample_ui sample_repaired))) by (vm_compute; reflexivity).
  split; [reflexivity|]. split; [exact H|].
  apply (deletions_keep_normal_form sample_today sample_uid sample_date_plus
           ltac:(discriminate) sample_uid_nonempty sample_date_plus_nonempty
           (VStr "id0") (sample_ui sample_repaired) 7 9 eq_refl H).
Defined.

(* ================================================================== *)
(** * upsertClient *)
(* ================================================================== *)

Lemma findIndex_first_index (client : value) (l : list value) (i : nat) :
  all_entries l = true -> nullish client = false ->
  findIndex_by_id client l i
  = Ret (option_map (fun j => (i + j)%nat) (first_index (has_id (get_opt client "id")) l)).
Proof.
  unfold all_entries. revert i.
  induction l as [|x r IH]; simpl; intros i H Hc; [reflexivity|].
  apply andb_prop in H as [Hx Hr]. apply negb_true_iff in Hx.
  rewrite !get_not_nullish by assumption. cbn [obind]. unfold has_id at 1.
  destruct (strict_eq (get_opt x "id") (get_opt client "id")).
  - simpl. now rewrite Nat.add_0_r.
  - rewrite IH by assumption.
    destruct (first_index _ r) as [j|]; simpl; [|reflexivity].
    now rewrite Nat.add_succ_r.
Qed.

Lemma first_index_exists (p : value -> bool) (l : list value) :
  first_index p l = None <-> existsb p l = false.
Proof.
  induction l as [|x r IH]; simpl; [tauto|].
  destruct (p x); simpl; [split; discriminate|].
  destruct (first_index p r); simpl; [split; [discriminate | intros H; apply IH in H; discriminate] | tauto].
Qed.

Lemma set_index_first (p : value -> bool) (v : value) (l : list value) (j : nat) :
  first_index p l = Some j -> set_index j v l = replace_first p v l.
Proof.
  revert j. induction l as [|x r IH]; simpl; intros j H; [discriminate|].
  destruct (p x).
  - inversion H. reflexivity.
  - destruct (first_index p r) as [j'|]; [|discriminate]. inversion H. simpl.
    f_equal. now apply IH.
Qed.

Lemma find_replace_first (id v : value) (l : list value) :
  all_entries l = true -> nullish v = false -> has_id id v = true ->
  existsb (has_id id) l = true ->
  find_by_id id (replace_first (has_id id) v l) = Ret v.
Proof.
  unfold all_entries. intros Hl Hv Hid.
  induction l as [|x r IH]; simpl in *; intros He; [discriminate|].
  apply andb_prop in Hl as [Hx Hr]. apply negb_true_iff in Hx.
  destruct (has_id id x) eqn:E; cbn [find_by_id].
  - rewrite get_not_nullish by assumption. cbn [obind]. unfold has_id in Hid. now rewrite Hid.
  - rewrite get_not_nullish by assumption. cbn [obind]. unfold has_id in E. rewrite E.
    now apply IH.
Qed.

Lemma replace_first_same (p : value -> bool) (v : value) (l : list value) :
  p v = true -> replace_first p v (replace_first p v l) = replace_first p v l.
Proof.
  intros Hv. induction l as [|x r IH]; simpl; [reflexivity|].
  destruct (p x) eqn:E; simpl.
  - now rewrite Hv.
  - now rewrite E, IH.
Qed.

Lemma existsb_replace_first (p : value -> bool) (v : value) (l : list value) :
  p v = true -> existsb p l = true -> existsb p (replace_first p v l) = true.
Proof.
  intros Hv. induction l as [|x r IH]; simpl; [discriminate|].
  destruct (p x) eqn:E; simpl.
  - now rewrite Hv.
  - rewrite E. exact IH.
Qed.

Lemma length_replace_first (p : value -> bool) (v : value) (l : list value) :
  List.length (replace_first p v l) = List.length l.
Proof.
  induction l as [|x r IH]; simpl; [reflexivity|].
  destruct (p x); simpl; [reflexivity | now rewrite IH].
Qed.

Lemma upserted_twice (client : value) (cls : list value) :
  has_id (get_opt client "id") client = true ->
  upserted client (upserted client cls) = upserted client cls.
Proof.
  intros Hid. unfold upserted.
  destruct (existsb (has_id (get_opt client "id")) cls) eqn:E.
  - rewrite existsb_replace_first by assumption. now apply replace_first_same.
  - cbn [existsb replace_first]. now rewrite Hid.
Qed.

Lemma assign_assign (k : string) (v v' : value) (ps : props) :
  assign k v (assign k v' ps) = assign k v ps.
Proof.
  induction ps as [|[k0 v0] r IH]; simpl.
  - now rewrite String.eqb_refl.
  - destruct (String.eqb_spec k0 k) as [->|Hne]; simpl.
    + now rewrite String.eqb_refl.
    + destruct (String.eqb_spec k0 k); [contradiction|]. now rewrite IH.
Qed.

Lemma put_put (k : string) (v v' a : value) : put k v (put k v' a) = put k v a.
Proof. destruct a; simpl; trivial; now rewrite assign_assign. Qed.

Lemma upsertClient_parts (client : value) (u : ui) (cls : list value) (own : props) :
  is_record (app u) = true ->
  get_opt (app u) "clients" = VArr cls own ->
  all_entries cls = true ->
  nullish client = false ->
  upsertClient client u
  = Ret (setApp (put "clients" (VArr (upserted client cls) []) (app u)) u).
Proof.
  intros Ha Hc Hn Hcl. unfold upsertClient.
  rewrite get_objlike by now apply is_record_objlike. rewrite Hc.
  cbn [obind or_else truthy iterate].
  rewrite findIndex_first_index by assumption. cbn [obind].
  rewrite record_spread by assumption. unfold upserted.
  destruct (first_index (has_id (get_opt client "id")) cls) as [j|] eqn:E.
  - cbn [option_map Nat.add].
    assert (He : existsb (has_id (get_opt client "id")) cls = true).
    { destruct (existsb _ cls) eqn:E'; [reflexivity|].
      apply first_index_exists in E'. congruence. }
    rewrite He. now rewrite (set_index_first _ _ _ _ E).
  - apply first_index_exists in E. now rewrite E.
Qed.

(** In a state that is a record with an array of clients none of which is
    [null] or [undefined], [upsertClient(client)] puts the client in the
    place of the first client that has its identifier, the others staying
    as and where they are, or in front of all clients when none has it; no
    other property of the state changes.  When the identifier of the
    client is equal to itself (any string is), the client is the one found
    under its identifier afterwards, and a second [upsertClient] of the
    same client changes nothing. *)
Theorem upsertClient_replaces_or_prepends
    (client : value) (u : ui) (cls : list value) (own : props) :
  is_record (app u) = true ->
  get_opt (app u) "clients" = VArr cls own ->
  all_entries cls = true ->
  nullish client = false ->
  exists u' : ui,
    upsertClient client u = Ret u'
    /\ get_opt (app u') "clients" = VArr (upserted client cls) []
    /\ (forall k : string, k <> "clients" -> get_opt (app u') k = get_opt (app u) k)
    /\ List.length (upserted client cls)
       = (if existsb (has_id (get_opt client "id")) cls
          then List.length cls else S (List.length cls))
    /\ (has_id (get_opt client "id") client = true ->
        find_by_id (get_opt client "id") (upserted client cls) = Ret client
        /\ upsertClient client u' = Ret u').
Proof.
  intros Ha Hc Hn Hcl.
  pose proof (is_record_objlike _ Ha) as Hobj.
  rewrite (upsertClient_parts client u cls own) by assumption.
  eexists. split; [reflexivity|]. cbn [app setApp].
  split; [now apply get_opt_put_eq|].
  split; [intros k Hk; apply get_opt_put_neq; congruence|].
  split.
  { unfold upserted. destruct (existsb _ cls); [apply length_replace_first | reflexivity]. }
  intros Hid. split.
  - unfold upserted. destruct (existsb (has_id (get_opt client "id")) cls) eqn:E.
    + now apply find_replace_first.
    + cbn [find_by_id]. rewrite get_not_nullish by assumption. cbn [obind].
      unfold has_id in Hid. now rewrite Hid.
  - rewrite (upsertClient_parts client _ (upserted client cls) []).
    + cbn [app setApp]. rewrite put_put, upserted_twice by assumption.
      reflexivity.
    + cbn [app setApp]. now apply is_record_put.
    + cbn [app setApp]. now apply get_opt_put_eq.
    + unfold upserted, all_entries in *. destruct (existsb _ cls).
      * apply forallb_forall. intros x Hx.
        assert (Hin : x = client \/ In x cls).
        { clear -Hx. induction cls as [|y r IH]; simpl in Hx; [contradiction|].
          destruct (has_id _ y); simpl in Hx.
          - destruct Hx as [<-|Hx]; [now left | right; now right].
          - destruct Hx as [<-|Hx]; [right; now left|].
            destruct (IH Hx); [now left | right; now right]. }
        destruct Hin as [->|Hin]; [now rewrite Hcl | now apply (forallb_In _ _ _ Hn)].
      * simpl. now rewrite Hcl, Hn.
    + assumption.
Qed.

(** The statement above for a new address of the client [c2] of the sample
    state. *)
Lemma upsertClient_replaces_or_prepends_sample :
  is_record (app (sample_ui sample_state)) = true
  /\ get_opt (app (sample_ui sample_state)) "clients" = VArr sample_clients []
  /\ all_entries sample_clients = true
  /\ nullish sample_edited_client = false
  /\ upserted sample_edited_client sample_clients
     = [sample_client "c1" "Acme, Inc."; sample_edited_client]
  /\ exists u' : ui,
       upsertClient sample_edited_client (sample_ui sample_state) = Ret u'
       /\ get_opt (app u') "clients" = VArr (upserted sample_edited_client sample_clients) []
       /\ (forall k : string,
             k <> "clients" -> get_opt (app u') k = get_opt (app (sample_ui sample_state)) k)
       /\ List.length (upserted sample_edited_client sample_clients)
          = (if existsb (has_id (get_opt sample_edited_client "id")) sample_clients
             then List.length sample_clients else S (List.length sample_clients))
       /\ (has_id (get_opt sample_edited_client "id") sample_edited_client = true ->
           find_by_id (get_opt sample_edited_client "id")
             (upserted sample_edited_client sample_clients)
           = Ret sample_edited_client
           /\ upsertClient sample_edited_client u' = Ret u').
Proof.
  do 5 (split; [reflexivity|]).
  apply (upsertClient_replaces_or_prepends sample_edited_client
           (sample_ui sample_state) sample_clients []); reflexivity.
Defined.

(* ================================================================== *)
(** * Entries put into a state in normal form *)
(* ================================================================== *)

Lemma Forall_replace_first {P : value -> Prop} (p : value -> bool) (v : value) (l : list value) :
  P v -> Forall P l -> Forall P (replace_first p v l).
Proof.
  intros Hv. induction 1 as [|x r Hx Hr IH]; simpl; [constructor|].
  destruct (p x); constructor; auto.
Qed.

Lemma Forall_upserted {P : value -> Prop} (client : value) (cls : list value) :
  P client -> Forall P cls -> Forall P (upserted client cls).
Proof.
  intros Hc Hl. unfold upserted. destruct (existsb _ cls).
  - now apply Forall_replace_first.
  - now constructor.
Qed.

(** An invoice in normal form merged with another one is the other one. *)
Lemma patched_normal (patch x : value) :
  invoice_normal patch -> invoice_normal x -> invoice_normal (patched patch x).
Proof.
  intros Hp Hx. unfold patched. destruct (matches patch x); [|assumption].
  destruct Hx as (i & number & issue & due & client & status & rate & notes & items & -> & _).
  destruct Hp as (i' & number' & issue' & due' & client' & status' & rate' & notes' & items'
                  & -> & Hp).
  do 9 eexists. split; [reflexivity | exact Hp].
Qed.

Section Upserts.

Variable todayISO : string.
Variable uid_of : nat -> string.
Variable date_plus : value -> value -> option string.

Hypothesis today_nonempty : todayISO <> "".
Hypothesis uid_nonempty : forall n : nat, uid_of n <> "".
Hypothesis date_plus_nonempty :
  forall (iso days : value) (s : string), date_plus iso days = Some s -> s <> "".

(** Upserts of entries in normal form keep the normal form.  In a state
    that is a record and that [normalizeData] returns as it is,
    [upsertClient] of a client in normal form and [upsertInvoice] of an
    invoice in normal form return a state that [normalizeData] returns as
    it is. *)
Theorem upserts_keep_normal_form (client inv : value) (u : ui) (n n' : nat) :
  is_record (app u) = true ->
  normalize todayISO uid_of date_plus (app u) n = Ret (app u) ->
  (client_normal client ->
   exists u' : ui,
     upsertClient client u = Ret u'
     /\ normalize todayISO uid_of date_plus (app u') n' = Ret (app u'))
  /\ (invoice_normal inv ->
      exists u' : ui,
        upsertInvoice inv u = Ret u'
        /\ normalize todayISO uid_of date_plus (app u') n' = Ret (app u')).
Proof.
  intros Ha H.
  apply (normalize_normal_state todayISO uid_of date_plus
           today_nonempty uid_nonempty date_plus_nonempty) in H.
  pose proof H as (Hobj & Hprep & invs & cls & Hdi & Hdc & Hinvs & Hcls).
  split.
  - intros Hc.
    rewrite (upsertClient_parts client u cls []); trivial.
    + eexists. split; [reflexivity|]. cbn [app setApp].
      apply normal_state_fixed, normal_state_put_clients; [assumption|].
      now apply Forall_upserted.
    + eapply Forall_forallb; [|exact Hcls]. intros x Hx.
      apply client_normal_record, is_record_not_nullish in Hx. now rewrite Hx.
    + now apply is_record_not_nullish, client_normal_record.
  - intros Hi. unfold upsertInvoice.
    rewrite get_objlike by assumption. rewrite Hdi.
    cbn [obind or_else truthy as_array].
    rewrite (omap_map _ (patched inv)).
    2:{ intros x Hx. apply merge_patch_patched.
        - now apply is_record_not_nullish, invoice_normal_record.
        - apply invoice_normal_record. rewrite Forall_forall in Hinvs. auto. }
    cbn [obind]. rewrite record_spread by assumption.
    eexists. split; [reflexivity|]. cbn [app setApp].
    apply normal_state_fixed, normal_state_put_invoices; [assumption|].
    apply Forall_forall. intros x Hx. apply in_map_iff in Hx as (y & <- & Hy).
    apply patched_normal; [assumption|]. rewrite Forall_forall in Hinvs. auto.
Qed.

End Upserts.

Lemma plain_number_of (m e : Z) :
  (m = 0 -> e = 0) -> (m <> 0 -> m mod 10 <> 0) -> plain_number (VNum (Fin m e)).
Proof. intros H0 H1. exists (Fin m e). repeat split; assumption. Qed.

Lemma sample_client_normal (id name : string) :
  id <> "" -> client_normal (sample_client id name).
Proof.
  intros Hid. unfold sample_client. do 7 eexists. split; [reflexivity|].
  split; [now apply truthy_VStr|].
  split; [unfold soft, or_else; simpl; now destruct name|].
  repeat split; reflexivity.
Qed.

Lemma repaired_empty_invoice_normal (n : nat) :
  invoice_normal (repaired_empty_invoice sample_today sample_uid sample_date_plus n).
Proof.
  unfold repaired_empty_invoice. do 9 eexists. split; [reflexivity|].
  split; [reflexivity|]. split; [reflexivity|]. split; [reflexivity|].
  split; [reflexivity|]. split; [reflexivity|]. split; [reflexivity|].
  split; [apply plain_number_of; [reflexivity | congruence]|].
  split; [|reflexivity].
  constructor; [|constructor].
  apply (blank_item_normal sample_uid sample_uid_nonempty).
Qed.

(** The statement above for a client and an invoice put into the repaired
    sample document. *)
Lemma upserts_keep_normal_form_sample :
  is_record (app (sample_ui sample_repaired)) = true
  /\ normalize sample_today sample_uid sample_date_plus (app (sample_ui sample_repaired)) 7
     = Ret (app (sample_ui sample_repaired))
  /\ client_normal (sample_client "c9" "Bob")
  /\ invoice_normal (repaired_empty_invoice sample_today sample_uid sample_date_plus 3)
  /\ (exists u' : ui,
        upsertClient (sample_client "c9" "Bob") (sample_ui sample_repaired) = Ret u'
        /\ normalize sample_today sample_uid sample_date_plus (app u') 9 = Ret (app u'))
  /\ (exists u' : ui,
        upsertInvoice (repaired_empty_invoice sample_today sample_uid sample_date_plus 3)
          (sample_ui sample_repaired) = Ret u'
        /\ normalize sample_today sample_uid sample_date_plus (app u') 9 = Ret (app u')).
Proof.
  assert (H : normalize sample_today sample_uid sample_date_plus
                (app (sample_ui sample_repaired)) 7
              = Ret (app (sample_ui sample_repaired))) by (vm_compute; reflexivity).
  assert (Hc : client_normal (sample_client "c9" "Bob"))
    by (apply sample_client_normal; discriminate).
  pose proof (repaired_empty_invoice_normal 3) as Hi.
  split; [reflexivity|]. split; [exact H|]. split; [exact Hc|]. split; [exact Hi|].
  destruct (upserts_keep_normal_form sample_today sample_uid sample_date_plus
              ltac:(discriminate) sample_uid_nonempty sample_date_plus_nonempty
              (sample_client "c9" "Bob")
              (repaired_empty_invoice sample_today sample_uid sample_date_plus 3)
              (sample_ui sample_repaired) 7 9 eq_refl H) as [H1 H2].
  split; [exact (H1 Hc) | exact (H2 Hi)].
Defined.

(* ================================================================== *)
(** * createInvoice *)
(* ================================================================== *)

Lemma stringable_Ret (v : value) :
  stringable v = true -> exists s, js_String v = Ret s.
Proof. unfold stringable. destruct (js_String v); [eauto | discriminate]. Qed.

Lemma settings_ok_inv (s : value) :
  settings_ok s = true ->
  nullish s = false
  /\ stringable (get_opt s "nextInvoiceNumber") = true
  /\ stringable (get_opt s "invoicePrefix") = true
  /\ stringable (get_opt s "defaultDueDays") = true
  /\ stringable (get_opt s "defaultVatRate") = true.
Proof.
  unfold settings_ok. cbn [forallb]. rewrite !andb_true_iff, negb_true_iff. tauto.
Qed.

Lemma next_number_take (s : value) :
  settings_ok s = true -> next_number s = Ret (number_to_take s).
Proof.
  intros H. apply settings_ok_inv in H as (Hn & H1 & _).
  unfold next_number, number_to_take. rewrite get_not_nullish by assumption. cbn [obind].
  now rewrite (toNumber_coerce _ H1).
Qed.

Lemma invoice_number_returns (s : value) (n : num) :
  settings_ok s = true -> exists t, invoice_number s n = Ret t /\ t <> "".
Proof.
  intros H. apply settings_ok_inv in H as (Hn & _ & H2 & _).
  unfold invoice_number. rewrite get_not_nullish by assumption. cbn [obind].
  destruct (stringable_Ret _ (stringable_or_else _ "INV" H2)) as (p & ->). cbn [obind].
  eexists. split; [reflexivity|].
  destruct (String.eqb (trim p) ""); [discriminate|].
  destruct (trim p); discriminate.
Qed.

Section Creation.

Variable todayISO : string.
Variable uid_of : nat -> string.
Variable date_plus : value -> value -> option string.

Lemma default_due_returns (s : value) :
  settings_ok s = true ->
  exists days, default_due todayISO date_plus s = Ret (addDaysISO date_plus (VStr todayISO) days).
Proof.
  intros H. apply settings_ok_inv in H as (Hn & _ & _ & H3 & _).
  unfold default_due. rewrite get_not_nullish by assumption. cbn [obind].
  rewrite (toNumber_coerce _ H3). cbn [obind]. eauto.
Qed.

(** In a state whose settings [createInvoice] can read and whose invoices
    are an array, [createInvoice] returns: the new invoice stands in front
    of the invoices there were, which stay as and where they are; it has
    the next identifier, the date of the day as issue date, no client, the
    status Draft, the default rate of the settings as [toNumber] reads it,
    one blank line and empty notes.  The counter of the settings becomes
    the number taken plus one.  The new invoice is the active invoice,
    which the editor opens; no notice is raised. *)
Theorem createInvoice_opens_new_invoice (u : ui) (invs : list value) (own : props) :
  nullish (app u) = false ->
  settings_ok (get_opt (app u) "settings") = true ->
  get_opt (app u) "invoices" = VArr invs own ->
  exists (u' : ui) (inv : value),
    createInvoice todayISO uid_of date_plus u = Ret u'
    /\ get_opt (app u') "invoices" = VArr (inv :: invs) []
    /\ get_opt inv "id" = VStr (uid_of (uids u))
    /\ get_opt inv "issueDate" = VStr todayISO
    /\ get_opt inv "clientId" = VStr ""
    /\ get_opt inv "status" = VStr "Draft"
    /\ get_opt inv "vatRate"
       = VNum (coerce (get_opt (get_opt (app u) "settings") "defaultVatRate"))
    /\ get_opt inv "items" = VArr [blank_item (VStr (uid_of (S (uids u))))] []
    /\ get_opt inv "notes" = VStr ""
    /\ counter (app u') = VNum (add (number_to_take (get_opt (app u) "settings")) one)
    /\ activeInvoiceId u' = VStr (uid_of (uids u))
    /\ activeInvoice u' = Ret inv
    /\ invoiceModalOpen u' = true
    /\ notices u' = notices u
    /\ uids u' = S (S (uids u)).
Proof.
  intros Ha Hs Hi.
  pose proof (settings_ok_inv _ Hs) as (Hn & _ & _ & _ & H4).
  unfold createInvoice. rewrite get_not_nullish by assumption. cbn [obind].
  rewrite next_number_take by assumption. cbn [obind].
  destruct (invoice_number_returns _ (number_to_take (get_opt (app u) "settings")) Hs)
    as (t & -> & _).
  cbn [obind].
  destruct (default_due_returns _ Hs) as (days & ->). cbn [obind].
  rewrite get_not_nullish by assumption. cbn [obind].
  rewrite (toNumber_coerce _ H4). cbn [obind].
  unfold cons_invoices. rewrite get_not_nullish by assumption. rewrite Hi.
  cbn [obind or_else truthy iterate].
  eexists. eexists. split; [reflexivity|].
  cbn [app setApp setInvoiceModalOpen setActiveInvoiceId setUids
         activeInvoiceId invoiceModalOpen notices uids].
  assert (Hinv : get_opt (with_new_invoice (app u) (get_opt (app u) "settings")
                            (number_to_take (get_opt (app u) "settings"))
                            (VArr (VObj [("id", VStr (uid_of (uids u)));
                                         ("invoiceNumber", VStr t);
                                         ("issueDate", VStr todayISO);
                                         ("dueDate", addDaysISO date_plus (VStr todayISO) days);
                                         ("clientId", VStr "");
                                         ("status", VStr "Draft");
                                         ("vatRate",
                                          VNum (coerce (get_opt (get_opt (app u) "settings")
                                                          "defaultVatRate")));
                                         ("items",
                                          VArr [blank_item (VStr (uid_of (S (uids u))))] []);
                                         ("notes", VStr "")] :: invs) [])) "invoices"
                 = VArr (VObj [("id", VStr (uid_of (uids u)));
                               ("invoiceNumber", VStr t);
                               ("issueDate", VStr todayISO);
                               ("dueDate", addDaysISO date_plus (VStr todayISO) days);
                               ("clientId", VStr "");
                               ("status", VStr "Draft");
                               ("vatRate",
                                VNum (coerce (get_opt (get_opt (app u) "settings")
                                                "defaultVatRate")));
                               ("items", VArr [blank_item (VStr (uid_of (S (uids u))))] []);
                               ("notes", VStr "")] :: invs) []).
  { unfold with_new_invoice. cbn [get_opt]. apply field_assign_eq. }
  split; [exact Hinv|].
  do 7 (split; [reflexivity|]).
  split; [apply counter_with_new_invoice|].
  split; [reflexivity|].
  split.
  { unfold activeInvoice.
    cbn [app activeInvoiceId setApp setInvoiceModalOpen setActiveInvoiceId setUids].
    rewrite get_not_nullish by reflexivity. rewrite Hinv.
    cbn [obind as_array find_by_id get field lookup String.eqb Ascii.eqb Bool.eqb strict_eq].
    now rewrite String.eqb_refl. }
  repeat split; reflexivity.
Qed.

End Creation.

(** The statement above for the sample state. *)
Lemma createInvoice_opens_new_invoice_sample :
  nullish (app (sample_ui sample_state)) = false
  /\ settings_ok (get_opt (app (sample_ui sample_state)) "settings") = true
  /\ get_opt (app (sample_ui sample_state)) "invoices" = VArr sample_invoices []
  /\ exists (u' : ui) (inv : value),
       createInvoice sample_today sample_uid sample_date_plus (sample_ui sample_state) = Ret u'
       /\ get_opt (app u') "invoices" = VArr (inv :: sample_invoices) []
       /\ get_opt inv "id" = VStr (sample_uid (uids (sample_ui sample_state)))
       /\ get_opt inv "issueDate" = VStr sample_today
       /\ get_opt inv "clientId" = VStr ""
       /\ get_opt inv "status" = VStr "Draft"
       /\ get_opt inv "vatRate"
          = VNum (coerce (get_opt (get_opt (app (sample_ui sample_state)) "settings")
                            "defaultVatRate"))
       /\ get_opt inv "items"
          = VArr [blank_item (VStr (sample_uid (S (uids (sample_ui sample_state)))))] []
       /\ get_opt inv "notes" = VStr ""
       /\ counter (app u')
          = VNum (add (number_to_take (get_opt (app (sample_ui sample_state)) "settings")) one)
       /\ activeInvoiceId u' = VStr (sample_uid (uids (sample_ui sample_state)))
       /\ activeInvoice u' = Ret inv
       /\ invoiceModalOpen u' = true
       /\ notices u' = notices (sample_ui sample_state)
       /\ uids u' = S (S (uids (sample_ui sample_state))).
Proof.
  do 3 (split; [reflexivity|]).
  apply (createInvoice_opens_new_invoice sample_today sample_uid sample_date_plus
           (sample_ui sample_state) sample_invoices []); reflexivity.
Defined.

(* ================================================================== *)
(** * The numbers of consecutive invoices *)
(* ================================================================== *)

Lemma add_one_neq (x : num) : is_finite x = true -> add x one <> x.
Proof.
  destruct x as [m e| | |]; try discriminate. intros _ H.
  unfold add, one, align in H.
  set (e0 := Z.min e 0) in *.
  set (s := m * 10 ^ (e - e0) + 1 * 10 ^ (0 - e0)) in *.
  assert (Hl : leb (Fin s e0) (mk s e0) = true).
  { rewrite leb_mk_r, (leb_at s e0 s e0 e0) by lia. apply Z.leb_refl. }
  rewrite H in Hl. rewrite (leb_at s e0 m e e0) in Hl by (unfold e0; lia).
  apply Z.leb_le in Hl. rewrite Z.sub_diag, Z.pow_0_r, Z.mul_1_r in Hl.
  pose proof (pow10_pos (0 - e0) ltac:(unfold e0; lia)). unfold s in Hl. lia.
Qed.

Lemma max_one_id (x : num) : leb one x = true -> Num.max one x = x.
Proof.
  intros H. destruct x; try discriminate; unfold Num.max, one in *;
    try rewrite H; reflexivity.
Qed.

Lemma num_text_zeros (j : nat) : num_text (zeros j) = true.
Proof. apply num_text_digits, only_digits_zeros. Qed.

Lemma zeros_nonempty_app (j : nat) (s : string) : s <> "" -> zeros j ++ s <> "".
Proof. destruct j; simpl; [trivial | discriminate]. Qed.

(** Zeros in front of the text of a number from 1 on do not change the
    number read. *)
Lemma string_to_number_padded (x : num) (j : nat) :
  is_finite x = true -> canonical x -> leb one x = true ->
  string_to_number (zeros j ++ number_to_string x) = string_to_number (number_to_string x).
Proof.
  destruct x as [m e| | |]; try discriminate. intros _ Hc Hge.
  assert (Hm : 0 < m).
  { unfold one in Hge. rewrite (leb_at 1 0 m e (Z.min e 0)) in Hge by lia.
    apply Z.leb_le in Hge.
    pose proof (pow10_pos (0 - Z.min e 0) ltac:(lia)).
    pose proof (pow10_pos (e - Z.min e 0) ltac:(lia)). nia. }
  unfold number_to_string. rewrite (canon_of_canonical m e Hc).
  destruct (Z.eqb_spec m 0) as [->|_]; [lia|].
  destruct (Z.ltb_spec m 0) as [Hneg|_]; [lia|]. cbn [append].
  destruct (layout_shape (digits (Z.abs_N m)) e (only_digits_digits _) (digits_nonempty _))
    as (hasdot & ip & fp & ex & -> & Hip & Hne & Hfp & Hdot & Hex & _).
  pose proof (num_text_shape false hasdot ip fp ex Hip Hfp Hex) as Hnt.
  cbn [sign_text append] in Hnt.
  assert (Hnt' : num_text (zeros j ++ ip ++ frac_text hasdot fp ++ exp_text ex) = true)
    by now rewrite num_text_app, num_text_zeros.
  unfold string_to_number.
  rewrite !trim_num_text, !radix_literal_num_text by assumption.
  assert (H1 : String.eqb (ip ++ frac_text hasdot fp ++ exp_text ex) "" = false)
    by (destruct ip; [congruence | reflexivity]).
  assert (H2 : String.eqb (zeros j ++ ip ++ frac_text hasdot fp ++ exp_text ex) "" = false).
  { destruct j; [exact H1 | reflexivity]. }
  rewrite H1, H2.
  pose proof (decimal_literal_shape false hasdot ip fp ex Hip Hne Hfp Hdot Hex) as D1.
  pose proof (decimal_literal_shape false hasdot (zeros j ++ ip) fp ex) as D2.
  cbn [sign_text append] in D1, D2.
  rewrite app_assoc_s in D2. rewrite D1, D2.
  - rewrite app_assoc_s. now rewrite digits_val_leading_zeros.
  - now rewrite only_digits_app, only_digits_zeros.
  - destruct j; simpl; [assumption | discriminate].
  - assumption.
  - assumption.
  - assumption.
Qed.

Lemma string_to_number_text (x : num) :
  is_finite x = true -> canonical x -> leb one x = true ->
  string_to_number (number_to_string x) = x.
Proof.
  intros Hf Hc Hge. pose proof (toNumber_number x Hf Hc) as H.
  unfold toNumber in H. cbn [nullish_else js_String obind] in H.
  assert (Hr : replace_comma (number_to_string x) = number_to_string x).
  { destruct x as [m e| | |]; try discriminate.
    unfold number_to_string. rewrite (canon_of_canonical m e Hc).
    destruct (Z.eqb_spec m 0); [reflexivity|]. fold (sign_text (m <? 0)).
    destruct (layout_shape (digits (Z.abs_N m)) e (only_digits_digits _) (digits_nonempty _))
      as (hasdot & ip & fp & ex & -> & Hip & Hne & Hfp & Hdot & Hex & _).
    apply replace_comma_num_text. now apply num_text_shape. }
  rewrite Hr in H. inversion H as [H'].
  destruct (is_finite (string_to_number (number_to_string x))) eqn:E; [now rewrite H'|].
  subst x. discriminate.
Qed.

(** The padded texts of two numbers from 1 on differ when the numbers
    do. *)
Lemma padded_text_injective (x y : num) (k : nat) :
  is_finite x = true -> canonical x -> leb one x = true ->
  is_finite y = true -> canonical y -> leb one y = true ->
  padStart0 k (number_to_string x) = padStart0 k (number_to_string y) -> x = y.
Proof.
  intros Hfx Hcx Hx Hfy Hcy Hy H. unfold padStart0 in H.
  apply (f_equal string_to_number) in H.
  rewrite !string_to_number_padded in H by assumption.
  now rewrite !string_to_number_text in H by assumption.
Qed.

Lemma append_cancel (p a b : string) : p ++ a = p ++ b -> a = b.
Proof. induction p as [|c r IH]; simpl; intros H; [assumption | inversion H; auto]. Qed.

Lemma max_one_canonical (x : num) : canonical x -> canonical (Num.max one x).
Proof.
  assert (H1 : canonical one) by (split; [discriminate | intros _; discriminate]).
  intros H. destruct x as [m e| | |]; unfold Num.max; cbn [one];
    try destruct (leb _ _); trivial.
Qed.

Lemma number_to_take_facts (s : value) :
  is_finite (number_to_take s) = true
  /\ canonical (number_to_take s)
  /\ leb one (number_to_take s) = true.
Proof.
  unfold number_to_take.
  pose proof (coerce_finite (get_opt s "nextInvoiceNumber")) as Hf.
  assert (Hc : canonical (coerce (get_opt s "nextInvoiceNumber"))).
  { unfold coerce. destruct (toNumber _) eqn:E; [eapply toNumber_canonical; eauto|].
    simpl. split; congruence. }
  split; [now apply max_one_finite|]. split; [now apply max_one_canonical|].
  now apply max_one_ge.
Qed.

Lemma mk_canonical_add (x : num) : is_finite x = true -> canonical (add x one).
Proof.
  destruct x as [m e| | |]; try discriminate. intros _.
  unfold add, one, align. apply mk_canonical.
Qed.

Lemma add_one_finite (x : num) : is_finite x = true -> is_finite (add x one) = true.
Proof.
  destruct x as [m e| | |]; try discriminate. intros _.
  unfold add, one, align, mk. now destruct (canon _ _).
Qed.

Section Numbers.

Variable todayISO : string.
Variable uid_of : nat -> string.
Variable date_plus : value -> value -> option string.

(** What [createInvoice] has done when it returns. *)
Lemma createInvoice_inv (u u' : ui) :
  createInvoice todayISO uid_of date_plus u = Ret u' ->
  exists (t : string) (inv : value) (rest : list value),
    invoice_number (get_opt (app u) "settings")
      (number_to_take (get_opt (app u) "settings")) = Ret t
    /\ get_opt inv "invoiceNumber" = VStr t
    /\ iterate (or_else (get_opt (app u) "invoices") (VArr [] [])) = Ret rest
    /\ app u' = with_new_invoice (app u) (get_opt (app u) "settings")
                  (number_to_take (get_opt (app u) "settings")) (VArr (inv :: rest) []).
Proof.
  unfold createInvoice. intros H. obind_inv H. injection H as <-.
  repeat match goal with
         | Hg : get _ _ = Ret ?a |- _ => apply get_Ret in Hg; subst a
         end.
  match goal with Hn : next_number _ = Ret _ |- _ =>
    unfold next_number in Hn; obind_inv Hn; injection Hn as <- end.
  match goal with Hc : cons_invoices _ _ = Ret _ |- _ =>
    unfold cons_invoices in Hc; obind_inv Hc; injection Hc as <- end.
  repeat match goal with
         | Hg : get _ _ = Ret ?a |- _ => apply get_Ret in Hg; subst a
         end.
  match goal with
  | Hn : toNumber (get_opt (get_opt (app u) "settings") "nextInvoiceNumber") = Ret ?n |- _ =>
      apply coerce_toNumber in Hn; subst n
  end.
  fold (number_to_take (get_opt (app u) "settings")) in *.
  match goal with
  | Ht : invoice_number _ _ = Ret ?t, Hi : iterate _ = Ret ?r |- _ =>
      refine (ex_intro _ t (ex_intro _ _ (ex_intro _ r
                (conj Ht (conj _ (conj Hi eq_refl))))))
  end.
  reflexivity.
Qed.

Lemma invoice_number_text (s : value) (n : num) (t : string) :
  invoice_number s n = Ret t ->
  exists p : string,
    js_String (or_else (get_opt s "invoicePrefix") (VStr "INV")) = Ret p
    /\ t = (if String.eqb (trim p) "" then "INV" else trim p)
           ++ "-" ++ padStart0 4 (number_to_string n).
Proof.
  unfold invoice_number. intros H. obind_inv H. inversion H; subst t.
  apply get_Ret in Ha. subst a. eauto.
Qed.

(** Two invoices created one after the other have different numbers.  In
    a state whose settings are a record and whose counter, raised to 1 when
    it is below, is an integer below [2^53], the invoice that a second
    [createInvoice] puts in front has another [invoiceNumber] than the
    invoice that the first has put there. *)
Theorem createInvoice_numbers_differ (u u1 u2 : ui) :
  is_record (get_opt (app u) "settings") = true ->
  safe_integer (number_to_take (get_opt (app u) "settings")) = true ->
  createInvoice todayISO uid_of date_plus u = Ret u1 ->
  createInvoice todayISO uid_of date_plus u1 = Ret u2 ->
  exists (inv1 inv2 : value) (rest : list value),
    get_opt (app u1) "invoices" = VArr (inv1 :: rest) []
    /\ get_opt (app u2) "invoices" = VArr (inv2 :: inv1 :: rest) []
    /\ get_opt inv1 "invoiceNumber" <> get_opt inv2 "invoiceNumber".
Proof.
  intros Hrec _ H1 H2.
  apply createInvoice_inv in H1 as (t1 & inv1 & rest & Ht1 & Hn1 & _ & Happ1).
  apply createInvoice_inv in H2 as (t2 & inv2 & rest2 & Ht2 & Hn2 & Hit & Happ2).
  set (s := get_opt (app u) "settings") in *.
  set (n := number_to_take s) in *.
  destruct (number_to_take_facts s) as (Hf & Hc & Hge). fold n in Hf, Hc, Hge.
  assert (Hi1 : get_opt (app u1) "invoices" = VArr (inv1 :: rest) []).
  { rewrite Happ1. unfold with_new_invoice. cbn [get_opt]. apply field_assign_eq. }
  assert (Hs1 : get_opt (app u1) "settings"
                = VObj (assign "nextInvoiceNumber" (VNum (add n one)) (spread [] s))).
  { rewrite Happ1. unfold with_new_invoice. cbn [get_opt].
    rewrite field_assign_neq by discriminate. apply field_assign_eq. }
  rewrite Hi1 in Hit. cbn [or_else truthy iterate] in Hit. inversion Hit; subst rest2.
  assert (Hi2 : get_opt (app u2) "invoices" = VArr (inv2 :: inv1 :: rest) []).
  { rewrite Happ2. unfold with_new_invoice. cbn [get_opt]. apply field_assign_eq. }
  exists inv1, inv2, rest. split; [assumption|]. split; [assumption|].
  rewrite Hn1, Hn2. intros Heq. inversion Heq as [Ht]. clear Heq.
  rewrite Hs1 in Ht2.
  assert (Hn2' : number_to_take
                   (VObj (assign "nextInvoiceNumber" (VNum (add n one)) (spread [] s)))
                 = add n one).
  { unfold number_to_take. cbn [get_opt]. rewrite field_assign_eq.
    unfold coerce. rewrite toNumber_number
      by (try apply add_one_finite; try apply mk_canonical_add; assumption).
    apply max_one_id. now apply succ_ge_one. }
  rewrite Hn2' in Ht2.
  apply invoice_number_text in Ht1 as (p1 & Hp1 & ->).
  apply invoice_number_text in Ht2 as (p2 & Hp2 & Ht2).
  assert (Hp : p2 = p1).
  { cbn [get_opt] in Hp2. rewrite field_assign_neq in Hp2 by discriminate.
    apply is_record_inv in Hrec as (ps & Hs & Hnd).
    rewrite Hs in Hp2. rewrite field_spread_obj in Hp2 by assumption.
    rewrite Hs in Hp1. cbn [get_opt] in Hp1. unfold field in Hp1 at 1.
    destruct (lookup "invoicePrefix" ps); cbn [field lookup] in Hp2; congruence. }
  subst p2. rewrite Ht2 in Ht.
  apply append_cancel in Ht. apply append_cancel in Ht.
  apply padded_text_injective in Ht; trivial.
  - symmetry in Ht. now apply add_one_neq in Ht.
  - now apply add_one_finite.
  - now apply mk_canonical_add.
  - now apply succ_ge_one.
Qed.

End Numbers.

(** The statement above for the sample state, whose counter is 1: the two
    invoices take the numbers INV-0001 and INV-0002. *)
Lemma createInvoice_numbers_differ_sample :
  is_record (get_opt (app (sample_ui sample_state)) "settings") = true
  /\ safe_integer (number_to_take (get_opt (app (sample_ui sample_state)) "settings")) = true
  /\ createInvoice sample_today sample_uid sample_date_plus (sample_ui sample_state)
     = Ret sample_created_once
  /\ createInvoice sample_today sample_uid sample_date_plus sample_created_once
     = Ret sample_created_twice
  /\ exists (inv1 inv2 : value) (rest : list value),
       get_opt (app sample_created_once) "invoices" = VArr (inv1 :: rest) []
       /\ get_opt (app sample_created_twice) "invoices" = VArr (inv2 :: inv1 :: rest) []
       /\ get_opt inv1 "invoiceNumber" <> get_opt inv2 "invoiceNumber".
Proof.
  assert (H1 : createInvoice sample_today sample_uid sample_date_plus (sample_ui sample_state)
               = Ret sample_created_once) by (vm_compute; reflexivity).
  assert (H2 : createInvoice sample_today sample_uid sample_date_plus sample_created_once
               = Ret sample_created_twice) by (vm_compute; reflexivity).
  split; [reflexivity|]. split; [reflexivity|]. split; [exact H1|]. split; [exact H2|].
  apply (createInvoice_numbers_differ sample_today sample_uid sample_date_plus
           (sample_ui sample_state) sample_created_once sample_created_twice
           eq_refl eq_refl H1 H2).
Defined.

(* ================================================================== *)
(** * duplicateInvoice *)
(* ================================================================== *)

(** For an identifier that no invoice has, [duplicateInvoice] returns the
    state as it is: no invoice is added, the counter keeps its value, no
    identifier is used and no notice is raised. *)
Theorem duplicateInvoice_unknown_id
    (todayISO : string) (uid_of : nat -> string)
    (date_plus : value -> value -> option string)
    (id : value) (u : ui) (invs : list value) (own : props) :
  nullish (app u) = false ->
  get_opt (app u) "invoices" = VArr invs own ->
  all_entries invs = true ->
  existsb (has_id id) invs = false ->
  duplicateInvoice todayISO uid_of date_plus id u = Ret u.
Proof.
  intros Ha Hi Hn He. unfold duplicateInvoice.
  rewrite get_not_nullish by assumption. rewrite Hi. cbn [obind as_array].
  now rewrite find_by_id_none by assumption.
Qed.

(** The statement above for the sample state. *)
Lemma duplicateInvoice_unknown_id_sample :
  nullish (app (sample_ui sample_state)) = false
  /\ get_opt (app (sample_ui sample_state)) "invoices" = VArr sample_invoices []
  /\ all_entries sample_invoices = true
  /\ existsb (has_id (VStr "0009")) sample_invoices = false
  /\ duplicateInvoice sample_today sample_uid sample_date_plus (VStr "0009")
       (sample_ui sample_state)
     = Ret (sample_ui sample_state).
Proof.
  do 4 (split; [reflexivity|]).
  apply (duplicateInvoice_unknown_id sample_today sample_uid sample_date_plus
           (VStr "0009") (sample_ui sample_state) sample_invoices []); reflexivity.
Defined.

Ltac field_steps :=
  repeat first [rewrite field_assign_eq | rewrite field_assign_neq by discriminate].

Section Duplicate.

Variable todayISO : string.
Variable uid_of : nat -> string.
Variable date_plus : value -> value -> option string.

Lemma clone_items_same (its : list value) (n : nat) :
  forallb is_record its = true ->
  Forall2 same_but_id its (clone_items uid_of its n)
  /\ map (fun it => get_opt it "id") (clone_items uid_of its n)
     = map (fun i => VStr (uid_of i)) (seq n (List.length its)).
Proof.
  revert n. induction its as [|it r IH]; intros n H; cbn [clone_items].
  - split; [constructor | reflexivity].
  - cbn [forallb] in H. apply andb_prop in H as [Hit Hr].
    destruct (IH (S n) Hr) as [IH1 IH2].
    rewrite record_spread by assumption.
    pose proof (is_record_objlike _ Hit) as Hobj. split.
    + constructor; [|assumption]. intros k Hk. apply get_opt_put_neq. congruence.
    + cbn [map List.length seq]. rewrite get_opt_put_eq by assumption. now rewrite IH2.
Qed.

(** What [duplicateInvoice] has done when it has found the invoice. *)
Lemma duplicateInvoice_parts (id : value) (u : ui) (invs : list value) (own : props)
    (src : value) (its : list value) (oi : props) :
  nullish (app u) = false ->
  settings_ok (get_opt (app u) "settings") = true ->
  get_opt (app u) "invoices" = VArr invs own ->
  find_by_id id invs = Ret src ->
  truthy src = true ->
  get_opt src "items" = VArr its oi ->
  exists (t : string) (days : value),
    t <> ""
    /\ duplicateInvoice todayISO uid_of date_plus id u
       = Ret (notify "Duplicated"
                (setApp
                   (with_new_invoice (app u) (get_opt (app u) "settings")
                      (number_to_take (get_opt (app u) "settings"))
                      (VArr (VObj (assign "items"
                                     (VArr (clone_items uid_of its (S (uids u))) [])
                                  (assign "dueDate" (addDaysISO date_plus (VStr todayISO) days)
                                  (assign "issueDate" (VStr todayISO)
                                  (assign "status" (VStr "Draft")
                                  (assign "invoiceNumber" (VStr t)
                                  (assign "id" (VStr (uid_of (uids u)))
                                  (spread [] src))))))) :: invs) []))
                   (setUids (S (uids u) + List.length its) u))).
Proof.
  intros Ha Hs Hi Hf Hsrc Hits.
  pose proof (settings_ok_inv _ Hs) as (Hn & _).
  unfold duplicateInvoice.
  rewrite get_not_nullish by assumption. rewrite Hi. cbn [obind as_array].
  rewrite Hf. cbn [obind]. rewrite Hsrc. cbn [negb].
  rewrite get_not_nullish by assumption. cbn [obind].
  rewrite next_number_take by assumption. cbn [obind].
  destruct (invoice_number_returns _ (number_to_take (get_opt (app u) "settings")) Hs)
    as (t & -> & Ht).
  cbn [obind].
  destruct (default_due_returns todayISO date_plus _ Hs) as (days & ->). cbn [obind].
  rewrite get_not_nullish by now apply truthy_not_nullish. rewrite Hits.
  cbn [obind or_else truthy as_array].
  unfold cons_invoices. rewrite get_not_nullish by assumption. rewrite Hi.
  cbn [obind or_else truthy iterate].
  exists t, days. split; [assumption | reflexivity].
Qed.

(** When [duplicateInvoice] finds an invoice that is a record with an
    array of line items that are records, in a state whose settings
    [createInvoice] can read, it puts a copy in front of the invoices,
    which stay as and where they are.  The copy has the next identifier,
    the status Draft and the date of the day as issue date; every property
    of the invoice under another key than [id], [invoiceNumber], [status],
    [issueDate], [dueDate] and [items] is in the copy as it is in the
    invoice: the client, the rate, the notes.  The copy has as many line
    items, each with the properties of the line item it comes from but for
    its identifier, the identifiers being the next ones in turn.  The
    counter becomes the number taken plus one, the active invoice stays,
    and the notice Duplicated is raised. *)
Theorem duplicateInvoice_copies (id : value) (u : ui) (invs : list value) (own : props)
    (src : value) (its : list value) (oi : props) :
  nullish (app u) = false ->
  settings_ok (get_opt (app u) "settings") = true ->
  get_opt (app u) "invoices" = VArr invs own ->
  find_by_id id invs = Ret src ->
  is_record src = true ->
  get_opt src "items" = VArr its oi ->
  forallb is_record its = true ->
  exists (u' : ui) (copy : value) (items : list value),
    duplicateInvoice todayISO uid_of date_plus id u = Ret u'
    /\ get_opt (app u') "invoices" = VArr (copy :: invs) []
    /\ get_opt copy "id" = VStr (uid_of (uids u))
    /\ get_opt copy "status" = VStr "Draft"
    /\ get_opt copy "issueDate" = VStr todayISO
    /\ (forall k : string, ~ In k rewritten_keys -> get_opt copy k = get_opt src k)
    /\ get_opt copy "items" = VArr items []
    /\ Forall2 same_but_id its items
    /\ map (fun it => get_opt it "id") items
       = map (fun i => VStr (uid_of i)) (seq (S (uids u)) (List.length its))
    /\ counter (app u') = VNum (add (number_to_take (get_opt (app u) "settings")) one)
    /\ activeInvoiceId u' = activeInvoiceId u
    /\ notices u' = "Duplicated" :: notices u
    /\ uids u' = (S (uids u) + List.length its)%nat.
Proof.
  intros Ha Hs Hi Hf Hsrc Hits Hrec.
  destruct (duplicateInvoice_parts id u invs own src its oi Ha Hs Hi Hf
              ltac:(now destruct src) Hits) as (t & days & _ & ->).
  destruct (clone_items_same its (S (uids u)) Hrec) as [Hc1 Hc2].
  eexists. eexists. exists (clone_items uid_of its (S (uids u))).
  split; [reflexivity|].
  cbn [app notify setApp setUids activeInvoiceId notices uids].
  split; [unfold with_new_invoice; cbn [get_opt]; apply field_assign_eq|].
  cbn [get_opt].
  split; [now field_steps|]. split; [now field_steps|]. split; [now field_steps|].
  split.
  { intros k Hk. unfold rewritten_keys in Hk. cbn [In] in Hk.
    rewrite !field_assign_neq by (intros E; apply Hk; rewrite <- E; auto 10).
    apply is_record_inv in Hsrc as (ps & -> & Hnd). now rewrite spread_nil_obj. }
  split; [apply field_assign_eq|].
  split; [assumption|]. split; [assumption|].
  split; [apply counter_with_new_invoice|].
  repeat split; reflexivity.
Qed.

End Duplicate.

(** The statement above for the first invoice of the sample state. *)
Lemma duplicateInvoice_copies_sample :
  nullish (app (sample_ui sample_state)) = false
  /\ settings_ok (get_opt (app (sample_ui sample_state)) "settings") = true
  /\ get_opt (app (sample_ui sample_state)) "invoices" = VArr sample_invoices []
  /\ find_by_id (VStr "0001") sample_invoices
     = Ret (sample_invoice_of "0001" "2026-01-10" "c1" sample_items)
  /\ is_record (sample_invoice_of "0001" "2026-01-10" "c1" sample_items) = true
  /\ get_opt (sample_invoice_of "0001" "2026-01-10" "c1" sample_items) "items" = sample_items
  /\ forallb is_record (elems sample_items) = true
  /\ exists (u' : ui) (copy : value) (items : list value),
       duplicateInvoice sample_today sample_uid sample_date_plus (VStr "0001")
         (sample_ui sample_state) = Ret u'
       /\ get_opt (app u') "invoices" = VArr (copy :: sample_invoices) []
       /\ get_opt copy "id" = VStr (sample_uid (uids (sample_ui sample_state)))
       /\ get_opt copy "status" = VStr "Draft"
       /\ get_opt copy "issueDate" = VStr sample_today
       /\ (forall k : string,
             ~ In k rewritten_keys ->
             get_opt copy k
             = get_opt (sample_invoice_of "0001" "2026-01-10" "c1" sample_items) k)
       /\ get_opt copy "items" = VArr items []
       /\ Forall2 same_but_id (elems sample_items) items
       /\ map (fun it => get_opt it "id") items
          = map (fun i => VStr (sample_uid i))
              (seq (S (uids (sample_ui sample_state))) (List.length (elems sample_items)))
       /\ counter (app u')
          = VNum (add (number_to_take (get_opt (app (sample_ui sample_state)) "settings")) one)
       /\ activeInvoiceId u' = activeInvoiceId (sample_ui sample_state)
       /\ notices u' = "Duplicated" :: notices (sample_ui sample_state)
       /\ uids u' = (S (uids (sample_ui sample_state)) + List.length (elems sample_items))%nat.
Proof.
  do 7 (split; [reflexivity|]).
  apply (duplicateInvoice_copies sample_today sample_uid sample_date_plus (VStr "0001")
           (sample_ui sample_state) sample_invoices []
           (sample_invoice_of "0001" "2026-01-10" "c1" sample_items)
           (elems sample_items) []); reflexivity.
Defined.

(* ================================================================== *)
(** * Creations in a state in normal form *)
(* ================================================================== *)

Lemma merged_led (base_ps : props) (x : value) :
  NoDup (keys base_ps) -> exists ps, merged base_ps x = VObj ps /\ led base_ps ps.
Proof.
  intros Hb. unfold merged. eexists. split; [reflexivity|].
  unfold spread at 1. fold (copy (own_props (or_else x (VObj []))) (spread [] (VObj base_ps))).
  rewrite spread_nil_obj by assumption.
  destruct (copy_decomp (own_props (or_else x (VObj []))) base_ps) as (s1 & s2 & Hc & Hk).
  exists s1, s2. split; [assumption|]. split; [assumption|]. now apply copy_NoDup.
Qed.

Lemma led_fixed (base_ps ps : props) :
  NoDup (keys base_ps) -> led base_ps ps -> merged base_ps (VObj ps) = VObj ps.
Proof.
  intros Hb (s1 & s2 & -> & Hk & Hnd). unfold merged. cbn [or_else truthy]. f_equal.
  unfold spread at 1. cbn [own_props]. rewrite spread_nil_obj by assumption.
  fold (copy (s1 ++ s2)%list base_ps). rewrite copy_app.
  unfold keys in Hnd. rewrite map_app in Hnd.
  rewrite (copy_same_keys s1 base_ps); [|assumption | eapply NoDup_app_remove_r; eauto].
  unfold copy. apply fold_assign_fresh; [eapply NoDup_app_remove_l; eauto|].
  intros k Hin2 Hin1. eapply NoDup_app_disjoint; eauto.
Qed.

Lemma led_assign (base_ps ps : props) (k : string) (v : value) :
  led base_ps ps -> led base_ps (assign k v ps).
Proof.
  intros (s1 & s2 & -> & Hk & Hnd).
  destruct (in_dec string_dec k (keys s1)) as [Hin|Hout].
  - exists (assign k v s1), s2. rewrite assign_app_in by assumption.
    split; [reflexivity|]. split; [now rewrite keys_assign_in|].
    rewrite <- assign_app_in by assumption. now apply assign_NoDup.
  - exists s1, (assign k v s2). rewrite assign_app_out by assumption.
    split; [reflexivity|]. split; [assumption|].
    rewrite <- assign_app_out by assumption. now apply assign_NoDup.
Qed.

(** The settings of a state in normal form with one of them set anew are
    again a merge over the defaults. *)
Lemma merged_assign (x : value) (k : string) (v : value) :
  exists ps x',
    merged base_settings x = VObj ps
    /\ VObj (assign k v (spread [] (VObj ps))) = merged base_settings x'.
Proof.
  destruct (merged_led base_settings x base_settings_NoDup) as (ps & Hm & Hl).
  exists ps, (VObj (assign k v ps)). split; [assumption|].
  pose proof Hl as (_ & _ & _ & _ & Hnd).
  rewrite spread_nil_obj by assumption.
  symmetry. apply led_fixed; [apply base_settings_NoDup | now apply led_assign].
Qed.

Lemma is_prepared_put_settings (s d : value) :
  objlike d = true -> is_prepared d ->
  (exists x, s = merged base_settings x) -> is_prepared (put "settings" s d).
Proof.
  intros Hobj (_ & Hp & Hc & Hi) Hs. unfold is_prepared.
  rewrite get_opt_put_eq by assumption.
  rewrite !get_opt_put_neq by discriminate. auto.
Qed.

Lemma normal_state_put_settings (s d : value) :
  normal_state d -> (exists x, s = merged base_settings x) ->
  normal_state (put "settings" s d).
Proof.
  intros (Hobj & Hprep & invs & cls & Hdi & Hdc & Hinvs & Hcls) Hs.
  split; [now rewrite objlike_put|].
  split; [now apply is_prepared_put_settings|].
  exists invs, cls. rewrite !get_opt_put_neq by discriminate. auto.
Qed.

Lemma with_new_invoice_normal (a : value) (n : num) (l : list value) :
  is_record a = true -> normal_state a -> Forall invoice_normal l ->
  normal_state (with_new_invoice a (get_opt a "settings") n (VArr l [])).
Proof.
  intros Ha Hn Hl.
  pose proof Hn as (_ & ((x & Hx) & _) & _).
  destruct (merged_assign x "nextInvoiceNumber" (VNum (add n one))) as (ps & x' & Hps & Hx').
  unfold with_new_invoice. rewrite Hx, Hps, Hx'.
  pose proof Ha as Ha'. apply is_record_inv in Ha' as (qs & Hq & Hnd).
  rewrite Hq in *. rewrite spread_nil_obj by assumption.
  change (VObj (assign "invoices" (VArr l []) (assign "settings" (merged base_settings x') qs)))
    with (put "invoices" (VArr l []) (put "settings" (merged base_settings x') (VObj qs))).
  apply normal_state_put_invoices; [|assumption].
  apply normal_state_put_settings; eauto.
Qed.

Section Creations.

Variable todayISO : string.
Variable uid_of : nat -> string.
Variable date_plus : value -> value -> option string.

Hypothesis today_nonempty : todayISO <> "".
Hypothesis uid_nonempty : forall n : nat, uid_of n <> "".
Hypothesis date_plus_nonempty :
  forall (iso days : value) (s : string), date_plus iso days = Some s -> s <> "".

(** What [createInvoice] does in a state that it can read. *)
Lemma createInvoice_parts (u : ui) (invs : list value) (own : props) :
  nullish (app u) = false ->
  settings_ok (get_opt (app u) "settings") = true ->
  get_opt (app u) "invoices" = VArr invs own ->
  exists (t : string) (days : value),
    t <> ""
    /\ createInvoice todayISO uid_of date_plus u
       = Ret (setApp
                (with_new_invoice (app u) (get_opt (app u) "settings")
                   (number_to_take (get_opt (app u) "settings"))
                   (VArr (VObj [("id", VStr (uid_of (uids u)));
                                ("invoiceNumber", VStr t);
                                ("issueDate", VStr todayISO);
                                ("dueDate", addDaysISO date_plus (VStr todayISO) days);
                                ("clientId", VStr "");
                                ("status", VStr "Draft");
                                ("vatRate",
                                 VNum (coerce (get_opt (get_opt (app u) "settings")
                                                 "defaultVatRate")));
                                ("items", VArr [blank_item (VStr (uid_of (S (uids u))))] []);
                                ("notes", VStr "")] :: invs) []))
                (setInvoiceModalOpen true
                   (setActiveInvoiceId (VStr (uid_of (uids u)))
                      (setUids (S (S (uids u))) u)))).
Proof.
  intros Ha Hs Hi.
  pose proof (settings_ok_inv _ Hs) as (Hn & _ & _ & _ & H4).
  unfold createInvoice. rewrite get_not_nullish by assumption. cbn [obind].
  rewrite next_number_take by assumption. cbn [obind].
  destruct (invoice_number_returns _ (number_to_take (get_opt (app u) "settings")) Hs)
    as (t & -> & Ht).
  cbn [obind].
  destruct (default_due_returns todayISO date_plus _ Hs) as (days & ->). cbn [obind].
  rewrite get_not_nullish by assumption. cbn [obind].
  rewrite (toNumber_coerce _ H4). cbn [obind].
  unfold cons_invoices. rewrite get_not_nullish by assumption. rewrite Hi.
  cbn [obind or_else truthy iterate].
  exists t, days. split; [assumption | reflexivity].
Qed.

Lemma soft_nonempty (t : string) : soft (VStr t).
Proof. unfold soft, or_else. simpl. now destruct t. Qed.

Lemma plain_number_coerce (v : value) : plain_number (VNum (coerce v)).
Proof.
  unfold coerce. destruct (toNumber v) eqn:E; [eapply plain_number_toNumber; eauto|].
  apply plain_number_of; [reflexivity | congruence].
Qed.

Lemma clone_items_normal (its : list value) (n : nat) :
  Forall item_normal its -> Forall item_normal (clone_items uid_of its n).
Proof.
  intros H. revert n. induction H as [|it r Hit Hr IH]; intros n; cbn [clone_items];
    constructor; [|apply IH].
  destruct Hit as (id & desc & qty & unit & price & -> & _ & H).
  do 5 eexists. split; [reflexivity|]. split; [now apply truthy_VStr|]. exact H.
Qed.

(** Creations keep the normal form.  In a state that is a record, that
    [normalizeData] returns as it is and whose settings [createInvoice] can
    read, [createInvoice] and [duplicateInvoice] return a state that
    [normalizeData] returns as it is: the invoice created, and the copy,
    need no repair. *)
Theorem creations_keep_normal_form (id : value) (u : ui) (n n' : nat) :
  is_record (app u) = true ->
  normalize todayISO uid_of date_plus (app u) n = Ret (app u) ->
  settings_ok (get_opt (app u) "settings") = true ->
  (exists u' : ui,
      createInvoice todayISO uid_of date_plus u = Ret u'
      /\ normalize todayISO uid_of date_plus (app u') n' = Ret (app u'))
  /\ (exists u' : ui,
        duplicateInvoice todayISO uid_of date_plus id u = Ret u'
        /\ normalize todayISO uid_of date_plus (app u') n' = Ret (app u')).
Proof.
  intros Ha H Hs. pose proof H as Hfix.
  apply (normalize_normal_state todayISO uid_of date_plus
           today_nonempty uid_nonempty date_plus_nonempty) in H.
  pose proof H as (Hobj & Hprep & invs & cls & Hdi & Hdc & Hinvs & Hcls).
  pose proof (is_record_not_nullish _ Ha) as Hnn.
  split.
  - destruct (createInvoice_parts u invs []
                Hnn Hs Hdi) as (t & days & Ht & ->).
    eexists. split; [reflexivity|].
    cbn [app setApp setInvoiceModalOpen setActiveInvoiceId setUids].
    apply normal_state_fixed, with_new_invoice_normal; trivial.
    constructor; [|assumption].
    do 9 eexists. split; [reflexivity|].
    split; [now apply truthy_VStr|]. split; [apply soft_nonempty|].
    split; [now apply truthy_VStr|].
    split; [apply (addDaysISO_truthy date_plus date_plus_nonempty); now apply truthy_VStr|].
    split; [reflexivity|]. split; [reflexivity|].
    split; [apply plain_number_coerce|].
    split; [|reflexivity].
    constructor; [apply (blank_item_normal uid_of uid_nonempty) | constructor].
  - assert (Hent : all_entries invs = true).
    { eapply Forall_forallb; [|exact Hinvs]. intros x Hx.
      apply invoice_normal_record, is_record_not_nullish in Hx. now rewrite Hx. }
    destruct (find_by_id_total id invs Hent) as (src & Hf & [->|Hin]).
    + exists u. split; [|now apply normal_state_fixed].
      unfold duplicateInvoice. rewrite get_not_nullish by assumption. rewrite Hdi.
      cbn [obind as_array]. now rewrite Hf.
    + rewrite Forall_forall in Hinvs. pose proof (Hinvs src Hin) as Hsrc.
      destruct Hsrc as (i & number & issue & due & client & status & rate & notes & items
                        & -> & Hsrc).
      destruct (duplicateInvoice_parts todayISO uid_of date_plus id u invs [] _ items []
                  Hnn Hs Hdi Hf eq_refl eq_refl) as (t & days & Ht & ->).
      eexists. split; [reflexivity|]. cbn [app notify setApp setUids].
      apply normal_state_fixed, with_new_invoice_normal; trivial.
      constructor; [|now apply Forall_forall].
      destruct Hsrc as (_ & _ & _ & _ & Hclient & _ & Hrate & Hitems & Hnotes).
      do 9 eexists. split; [reflexivity|].
      split; [now apply truthy_VStr|]. split; [apply soft_nonempty|].
      split; [now apply truthy_VStr|].
      split; [apply (addDaysISO_truthy date_plus date_plus_nonempty); now apply truthy_VStr|].
      split; [assumption|]. split; [reflexivity|]. split; [assumption|].
      split; [now apply clone_items_normal | assumption].
Qed.

End Creations.

(** The statement above for the repaired sample document. *)
Lemma creations_keep_normal_form_sample :
  is_record (app (sample_ui sample_repaired)) = true
  /\ normalize sample_today sample_uid sample_date_plus (app (sample_ui sample_repaired)) 7
     = Ret (app (sample_ui sample_repaired))
  /\ settings_ok (get_opt (app (sample_ui sample_repaired)) "settings") = true
  /\ (exists u' : ui,
        createInvoice sample_today sample_uid sample_date_plus (sample_ui sample_repaired)
        = Ret u'
        /\ normalize sample_today sample_uid sample_date_plus (app u') 9 = Ret (app u'))
  /\ (exists u' : ui,
        duplicateInvoice sample_today sample_uid sample_date_plus (VStr "id0")
          (sample_ui sample_repaired) = Ret u'
        /\ normalize sample_today sample_uid sample_date_plus (app u') 9 = Ret (app u')).
Proof.
  assert (H : normalize sample_today sample_uid sample_date_plus
                (app (sample_ui sample_repaired)) 7
              = Ret (app (sample_ui sample_repaired))) by (vm_compute; reflexivity).
  split; [reflexivity|]. split; [exact H|]. split; [reflexivity|].
  apply (creations_keep_normal_form sample_today sample_uid sample_date_plus
           ltac:(discriminate) sample_uid_nonempty sample_date_plus_nonempty
           (VStr "id0") (sample_ui sample_repaired) 7 9 eq_refl H eq_refl).
Defined.

(* ================================================================== *)
(** * calcTotals on a repaired invoice *)
(* ================================================================== *)




Section Repaired.

Variable todayISO : string.
Variable uid_of : nat -> string.
Variable date_plus : value -> value -> option string.

Hypothesis today_nonempty : todayISO <> "".
Hypothesis uid_nonempty : forall n : nat, uid_of n <> "".
Hypothesis date_plus_nonempty :
  forall (iso days : value) (s : string), date_plus iso days = Some s -> s <> "".


End Repaired.


(* ================================================================== *)
(** * clientsById *)
(* ================================================================== *)

Lemma leb_trans (x y z : num) : leb x y = true -> leb y z = true -> leb x z = true.
Proof.
  destruct x as [m1 e1| | |], y as [m2 e2| | |], z as [m3 e3| | |];
    try discriminate; try reflexivity.
  set (c := Z.min e1 (Z.min e2 e3)).
  rewrite (leb_at m1 e1 m2 e2 c), (leb_at m2 e2 m3 e3 c), (leb_at m1 e1 m3 e3 c)
    by (unfold c; lia).
  rewrite !Z.leb_le. lia.
Qed.

Lemma eqb_sym (x y : num) : Num.eqb x y = Num.eqb y x.
Proof. unfold Num.eqb. apply andb_comm. Qed.

Lemma eqb_trans (x y z : num) :
  Num.eqb x y = true -> Num.eqb y z = true -> Num.eqb x z = true.
Proof.
  unfold Num.eqb. rewrite !andb_true_iff. intros [H1 H2] [H3 H4].
  split; eapply leb_trans; eauto.
Qed.

Lemma eqb_not_nan (x y : num) : Num.eqb x y = true -> is_nan x = false /\ is_nan y = false.
Proof.
  unfold Num.eqb. destruct x, y; simpl; try discriminate; auto.
Qed.

Lemma same_value_zero_sym (a b : value) : same_value_zero a b = same_value_zero b a.
Proof.
  destruct a as [| |x|x|x|xs xp|xp], b as [| |y|y|y|ys yp|yp];
    unfold same_value_zero, strict_eq;
    try (destruct x); try (destruct y); try reflexivity;
    try apply eqb_sym; apply String.eqb_sym.
Qed.

Lemma same_value_zero_trans (a b c : value) :
  same_value_zero a b = true -> same_value_zero b c = true -> same_value_zero a c = true.
Proof.
  destruct a as [| |x|x|x|xs xp|xp], b as [| |y|y|y|ys yp|yp];
    unfold same_value_zero, strict_eq;
    try (destruct x); try (destruct y); try discriminate;
    destruct c as [| |z|z|z|zs zp|zp]; try (destruct z); try discriminate; trivial;
    try apply eqb_trans.
  intros H1 H2. apply String.eqb_eq in H1, H2. apply String.eqb_eq. congruence.
Qed.

(** Keys that are the same look the same things up. *)
Lemma same_value_zero_congr (k k' id : value) :
  same_value_zero k' k = true -> same_value_zero k' id = same_value_zero k id.
Proof.
  intros H. destruct (same_value_zero k id) eqn:E.
  - eapply same_value_zero_trans; eauto.
  - destruct (same_value_zero k' id) eqn:E'; [|reflexivity].
    rewrite same_value_zero_sym in H.
    now rewrite (same_value_zero_trans k k' id H E') in E.
Qed.

Lemma map_get_set (id k v : value) (m : list (value * value)) :
  map_get id (map_set k v m) = if same_value_zero k id then v else map_get id m.
Proof.
  induction m as [|[k' v'] r IH]; cbn [map_set map_get]; [reflexivity|].
  destruct (same_value_zero k' k) eqn:E; cbn [map_get].
  - rewrite (same_value_zero_congr k k' id E). now destruct (same_value_zero k id).
  - rewrite IH. destruct (same_value_zero k' id) eqn:E1; [|reflexivity].
    destruct (same_value_zero k id) eqn:E2; [|reflexivity].
    rewrite same_value_zero_sym in E2.
    now rewrite (same_value_zero_trans k' id k E1 E2) in E.
Qed.

Lemma map_get_client_map (id : value) (cls : list value) (m : list (value * value)) :
  map_get id (fold_left (fun m c => map_set (get_opt c "id") c m) cls m)
  = fold_left (fun acc c => if same_value_zero (get_opt c "id") id then c else acc)
      cls (map_get id m).
Proof.
  revert m. induction cls as [|c r IH]; intros m; [reflexivity|].
  cbn [fold_left]. now rewrite IH, map_get_set.
Qed.

Lemma strict_eq_same_value_zero (a b : value) :
  strict_eq a b = true -> same_value_zero a b = true.
Proof.
  intros H. unfold same_value_zero.
  destruct a; trivial. destruct n; trivial. destruct b; trivial. now destruct n.
Qed.

Lemma fold_last_none (id : value) (l : list value) (acc : value) :
  Forall (fun c => same_value_zero (get_opt c "id") id = false) l ->
  fold_left (fun acc c => if same_value_zero (get_opt c "id") id then c else acc) l acc = acc.
Proof.
  intros H. revert acc. induction H as [|c r Hc Hr IH]; intros acc; [reflexivity|].
  cbn [fold_left]. now rewrite Hc.
Qed.

Lemma fold_last_some (id : value) (l : list value) (acc : value) :
  fold_left (fun acc c => if same_value_zero (get_opt c "id") id then c else acc) l acc
  = fold_left (fun acc c => if same_value_zero (get_opt c "id") id then c else acc) l VUndef
  \/ Forall (fun c => same_value_zero (get_opt c "id") id = false) l.
Proof.
  revert acc. induction l as [|c r IH]; intros acc; [right; constructor|].
  cbn [fold_left]. destruct (same_value_zero (get_opt c "id") id) eqn:E.
  - now left.
  - destruct (IH acc) as [H|H]; [left | right; constructor]; trivial.
Qed.

Lemma find_last_agree (id c : value) (cls : list value) :
  all_entries cls = true -> ids_distinct cls ->
  find_by_id id cls = Ret c -> truthy c = true -> last_with_id id cls = c.
Proof.
  unfold all_entries, ids_distinct, last_with_id.
  induction cls as [|x r IH]; cbn [forallb find_by_id]; intros Hn Hd Hf Hc.
  - inversion Hf; subst c. discriminate.
  - apply andb_prop in Hn as [Hx Hr]. apply negb_true_iff in Hx.
    rewrite get_not_nullish in Hf by assumption. cbn [obind] in Hf.
    inversion Hd as [|? ? Hxr Hd']; subst.
    cbn [fold_left].
    destruct (strict_eq (get_opt x "id") id) eqn:E.
    + inversion Hf; subst c. rewrite (strict_eq_same_value_zero _ _ E).
      apply fold_last_none. eapply Forall_impl; [|exact Hxr].
      intros y Hy. cbn beta in Hy.
      destruct (same_value_zero (get_opt y "id") id) eqn:Ey; [|reflexivity].
      rewrite same_value_zero_sym in Ey.
      now rewrite (same_value_zero_trans _ _ _ (strict_eq_same_value_zero _ _ E) Ey) in Hy.
    + specialize (IH Hr Hd' Hf Hc).
      destruct (fold_last_some id r
                  (if same_value_zero (get_opt x "id") id then x else VUndef)) as [H|H].
      * now rewrite H.
      * rewrite fold_last_none in IH by assumption. subst c. discriminate.
Qed.

(** In a state with an array of clients none of which is [null] or
    [undefined], [clientsById] maps an identifier to the last client that
    has it, as a [Map] compares keys, and to [undefined] when none has
    it.  When no two clients have the same identifier, the client that
    [find] gives for an identifier, the first one, is the client that the
    map gives. *)
Theorem clientsById_last_wins (a : value) (cls : list value) (own : props) :
  nullish a = false ->
  get_opt a "clients" = VArr cls own ->
  all_entries cls = true ->
  exists m : list (value * value),
    clientsById a = Ret m
    /\ (forall id : value, map_get id m = last_with_id id cls)
    /\ (ids_distinct cls ->
        forall id c : value,
          find_by_id id cls = Ret c -> truthy c = true -> map_get id m = c).
Proof.
  intros Ha Hc Hn. unfold clientsById.
  rewrite get_not_nullish by assumption. rewrite Hc. cbn [obind iterate].
  rewrite fill_map_fold by assumption.
  eexists. split; [reflexivity|].
  assert (Hget : forall id, map_get id (fold_left (fun m c => map_set (get_opt c "id") c m) cls [])
                            = last_with_id id cls)
    by (intros id; apply map_get_client_map).
  split; [exact Hget|].
  intros Hd id c Hf Ht. rewrite Hget. now apply find_last_agree.
Qed.

(** The statement above for the sample state and its client [c2]. *)
Lemma clientsById_last_wins_sample :
  nullish sample_state = false
  /\ get_opt sample_state "clients" = VArr sample_clients []
  /\ all_entries sample_clients = true
  /\ ids_distinct sample_clients
  /\ find_by_id (VStr "c2") sample_clients = Ret (sample_client "c2" "Bob")
  /\ truthy (sample_client "c2" "Bob") = true
  /\ exists m : list (value * value),
       clientsById sample_state = Ret m
       /\ (forall id : value, map_get id m = last_with_id id sample_clients)
       /\ map_get (VStr "c2") m = sample_client "c2" "Bob".
Proof.
  assert (Hd : ids_distinct sample_clients) by (repeat constructor).
  do 3 (split; [reflexivity|]). split; [exact Hd|]. do 2 (split; [reflexivity|]).
  destruct (clientsById_last_wins sample_state sample_clients [] eq_refl eq_refl eq_refl)
    as (m & Hm & Hlast & Hfind).
  exists m. split; [exact Hm|]. split; [exact Hlast|].
  apply (Hfind Hd (VStr "c2") (sample_client "c2" "Bob")); reflexivity.
Defined.

(* ================================================================== *)
(** * The line items of the editor *)
(* ================================================================== *)

Lemma without_id_fresh (id : value) (l : list value) :
  existsb (has_id id) l = false -> without_id id l = l.
Proof.
  unfold without_id. induction l as [|x r IH]; simpl; intros H; [reflexivity|].
  apply orb_false_iff in H as [Hx Hr]. rewrite Hx. simpl. now rewrite IH.
Qed.

Lemma without_id_app (id : value) (l1 l2 : list value) :
  without_id id (l1 ++ l2) = (without_id id l1 ++ without_id id l2)%list.
Proof. unfold without_id. apply filter_app. Qed.

Lemma all_entries_app (l1 l2 : list value) :
  all_entries (l1 ++ l2) = all_entries l1 && all_entries l2.
Proof. unfold all_entries. apply forallb_app. Qed.

Section Lines.

Variable uid_of : nat -> string.

(** A line added to a draft can be removed again.  For a draft that is a
    record with an array of line items, none of them [null] or
    [undefined] and none with the identifier that the new line gets,
    [addItem] puts a blank line (quantity 1, price 0) after the others,
    and [delItem] with the identifier of that line gives the draft back. *)
Theorem delItem_after_addItem (d : value) (items : list value) (n : nat) :
  is_record d = true ->
  get_opt d "items" = VArr items [] ->
  all_entries items = true ->
  existsb (has_id (VStr (uid_of n))) items = false ->
  exists d1 : value,
    addItem uid_of d n = Ret d1
    /\ get_opt d1 "items" = VArr (items ++ [blank_item (VStr (uid_of n))]) []
    /\ (forall k : string, k <> "items" -> get_opt d1 k = get_opt d k)
    /\ delItem (VStr (uid_of n)) d1 = Ret d.
Proof.
  intros Hd Hi Hn Hfresh.
  pose proof (is_record_objlike _ Hd) as Hobj.
  unfold addItem. rewrite get_objlike by assumption. rewrite Hi.
  cbn [obind or_else truthy iterate]. rewrite record_spread by assumption.
  eexists. split; [reflexivity|].
  split; [now apply get_opt_put_eq|].
  split; [intros k Hk; apply get_opt_put_neq; congruence|].
  unfold delItem. rewrite get_objlike by now rewrite objlike_put.
  rewrite get_opt_put_eq by assumption. cbn [obind or_else truthy as_array].
  rewrite remove_by_id_without.
  2:{ rewrite all_entries_app, Hn. reflexivity. }
  cbn [obind]. rewrite record_spread by now apply is_record_put.
  rewrite put_put, without_id_app, without_id_fresh by assumption.
  unfold without_id. cbn [filter has_id blank_item get_opt field lookup
                            String.eqb Ascii.eqb Bool.eqb strict_eq].
  rewrite String.eqb_refl. cbn [negb]. rewrite app_nil_r.
  f_equal. apply put_get_same; [assumption | discriminate].
Qed.

End Lines.

(** The statement above for a draft of the first invoice of the sample
    state. *)
Lemma delItem_after_addItem_sample :
  is_record (sample_invoice_of "0001" "2026-01-10" "c1" sample_items) = true
  /\ get_opt (sample_invoice_of "0001" "2026-01-10" "c1" sample_items) "items"
     = VArr (elems sample_items) []
  /\ all_entries (elems sample_items) = true
  /\ existsb (has_id (VStr (sample_uid 8))) (elems sample_items) = false
  /\ exists d1 : value,
       addItem sample_uid (sample_invoice_of "0001" "2026-01-10" "c1" sample_items) 8 = Ret d1
       /\ get_opt d1 "items"
          = VArr (elems sample_items ++ [blank_item (VStr (sample_uid 8))]) []
       /\ (forall k : string,
             k <> "items" ->
             get_opt d1 k = get_opt (sample_invoice_of "0001" "2026-01-10" "c1" sample_items) k)
       /\ delItem (VStr (sample_uid 8)) d1
          = Ret (sample_invoice_of "0001" "2026-01-10" "c1" sample_items).
Proof.
  do 4 (split; [reflexivity|]).
  apply (delItem_after_addItem sample_uid
           (sample_invoice_of "0001" "2026-01-10" "c1" sample_items)
           (elems sample_items) 8); reflexivity.
Defined.

(* ================================================================== *)
(** * filteredInvoices *)
(* ================================================================== *)

Lemma ofilter_In {A : Type} (p : A -> outcome bool) (l l' : list A) :
  ofilter p l = Ret l' -> forall x, In x l' -> In x l /\ p x = Ret true.
Proof.
  revert l'. induction l as [|y r IH]; cbn [ofilter]; intros l' H x Hx.
  - inversion H; subst. contradiction.
  - obind_inv H. inversion H; subst l'. clear H.
    destruct a.
    + destruct Hx as [<-|Hx]; [split; [now left | assumption]|].
      destruct (IH _ Ha0 x Hx). split; [now right | assumption].
    + destruct (IH _ Ha0 x Hx). split; [now right | assumption].
Qed.

Lemma ofilter_all {A : Type} (p : A -> outcome bool) (l : list A) :
  (forall x, In x l -> p x = Ret true) -> ofilter p l = Ret l.
Proof.
  induction l as [|y r IH]; cbn [ofilter]; intros H; [reflexivity|].
  rewrite H by now left. cbn [obind]. rewrite IH by (intros; apply H; now right).
  reflexivity.
Qed.

Lemma omap_Ret_map {A B : Type} (f : A -> outcome B) (g : A -> B) (l : list A) (l' : list B) :
  (forall x y, f x = Ret y -> y = g x) -> omap f l = Ret l' -> l' = map g l.
Proof.
  intros Hf. revert l'. induction l as [|x r IH]; cbn [omap]; intros l' H.
  - now inversion H.
  - obind_inv H. inversion H; subst l'. cbn [map]. f_equal; auto.
Qed.

Lemma sort_key_Ret (inv : value) (k : string) : sort_key inv = Ret k -> k = issue_key inv.
Proof.
  unfold sort_key, issue_key. intros H. obind_inv H. apply get_Ret in Ha. subst a.
  now rewrite H.
Qed.

Section Filter.

Variable localeCompare : string -> string -> Z.
Variable toLowerCase : string -> string.

Hypothesis lower_empty : toLowerCase "" = "".

Hypothesis compare_total :
  forall a b : string, localeCompare a b <= 0 \/ localeCompare b a <= 0.

Hypothesis compare_trans :
  forall a b c : string,
    localeCompare a b <= 0 -> localeCompare b c <= 0 -> localeCompare a c <= 0.

Lemma shown_status (by_id : list (value * value)) (sf : value) (needle : string)
    (inv : value) :
  shown toLowerCase by_id sf needle inv = Ret true ->
  strict_eq sf (VStr "All") = false -> strict_eq (get_opt inv "status") sf = true.
Proof.
  unfold shown. intros H Hsf. rewrite Hsf in H. cbn [negb] in H.
  obind_inv H. obind_inv Ha. apply get_Ret in Ha0. subst a0.
  inversion Ha; subst a. clear Ha.
  destruct (strict_eq (get_opt inv "status") sf); [reflexivity | discriminate].
Qed.

Lemma filter_undefined_present (l : list value) :
  filter present (filter is_undefined l) = [].
Proof.
  induction l as [|x r IH]; [reflexivity|].
  destruct x; cbn [filter is_undefined]; trivial.
Qed.

Lemma filter_present_fixed (l : list value) :
  Forall (fun v => present v = true) l -> filter present l = l.
Proof.
  induction 1 as [|x r Hx _ IH]; [reflexivity|].
  cbn [filter]. now rewrite Hx, IH.
Qed.

Lemma sortable_present (l : list value) :
  forallb sortable l = true ->
  filter present l = l /\ filter is_undefined l = [].
Proof.
  induction l as [|x r IH]; [now split|].
  cbn [forallb]. intros H. apply andb_prop in H as [Hx Hr].
  destruct (IH Hr) as [E1 E2].
  unfold sortable in Hx. apply andb_prop in Hx as [Hx _].
  destruct x; try discriminate; cbn [filter present is_undefined negb];
    now rewrite ?E1, ?E2.
Qed.

Lemma sort_newest_first_Ret (l l' : list value) :
  sort_newest_first localeCompare l = Ret l' ->
  exists sorted : list value,
    l' = (sorted ++ filter is_undefined l)%list
    /\ Permutation sorted (filter present l)
    /\ StronglySorted (newer_first localeCompare) sorted.
Proof.
  unfold sort_newest_first. fold present. intros H. obind_inv H.
  inversion H; subst l'. clear H. exists a. split; [reflexivity|].
  destruct (filter present l) as [|x [|y r]].
  - inversion Ha; subst a. split; [reflexivity | constructor].
  - inversion Ha; subst a. split; [reflexivity | repeat constructor].
  - obind_inv Ha. inversion Ha; subst a. clear Ha.
    apply (omap_Ret_map sort_key issue_key) in Ha0; [|apply sort_key_Ret]. subst a0.
    split.
    + etransitivity; [apply Permutation_map, sort_by_key_perm|].
      now rewrite map_snd_combine.
    + apply keyed_sorted; trivial.
      * eapply Permutation_Forall; [symmetry; apply sort_by_key_perm|].
        apply combine_keyed.
      * now apply sort_by_key_sorted.
Qed.

(** What the list of invoices shows.  In a state with an array of
    invoices, every invoice of the list is an invoice of the state and
    has the status of the filter when the filter is not All; the
    invoices of the list other than [undefined] run from the latest
    issue date to the earliest, as the locale compares them.  With the
    filter All and a query that is empty or blank, in a state whose
    clients are not [null] or [undefined] and whose invoices have an
    issue date that has a string form, the list holds every invoice of
    the state, in the order of the export to CSV. *)
Theorem filteredInvoices_shows
    (q : string) (sf : value) (a : value) (invs : list value) (oi : props) :
  nullish a = false ->
  get_opt a "invoices" = VArr invs oi ->
  (forall l : list value,
      filteredInvoices localeCompare toLowerCase q sf a = Ret l ->
      (forall inv : value,
          In inv l ->
          In inv invs
          /\ (strict_eq sf (VStr "All") = false ->
              strict_eq (get_opt inv "status") sf = true))
      /\ StronglySorted (newer_first localeCompare) (filter present l))
  /\ (forall (cls : list value) (oc : props),
        get_opt a "clients" = VArr cls oc ->
        all_entries cls = true ->
        forallb sortable invs = true ->
        trim q = "" ->
        filteredInvoices localeCompare toLowerCase q (VStr "All") a
        = Ret (export_order localeCompare a)).
Proof.
  intros Ha Hi. split.
  - intros l H. unfold filteredInvoices in H. obind_inv H.
    apply get_Ret in Ha1. subst a1. rewrite Hi in Ha2. inversion Ha2; subst a2. clear Ha2.
    pose proof (ofilter_In _ _ _ Ha3) as Hkept.
    assert (Hsort : sort_newest_first localeCompare a3 = Ret l).
    { unfold sort_newest_first.
      match goal with E : _ = Ret a4 |- _ => rewrite E end. exact H. }
    clear H. apply sort_newest_first_Ret in Hsort as (sorted & -> & Hp & Hs).
    split.
    + intros inv Hl.
      assert (Hin : In inv a3).
      { apply in_app_or in Hl as [Hl|Hl].
        - apply (Permutation_in _ Hp) in Hl. now apply filter_In in Hl.
        - now apply filter_In in Hl. }
      destruct (Hkept inv Hin) as [H1 H2].
      split; [assumption|].
      now apply (shown_status a0 sf (toLowerCase (trim q)) inv).
    + rewrite filter_app, filter_undefined_present, app_nil_r.
      rewrite filter_present_fixed; [assumption|].
      apply Forall_forall. intros x Hx.
      apply (Permutation_in _ Hp) in Hx. now apply filter_In in Hx.
  - intros cls oc Hc Hn Hsort Hq. unfold filteredInvoices, clientsById.
    rewrite !get_not_nullish by assumption. rewrite Hc, Hi.
    cbn [obind iterate as_array].
    rewrite fill_map_fold by assumption. cbn [obind].
    rewrite Hq, lower_empty.
    rewrite ofilter_all by (intros x Hx; reflexivity).
    cbn [obind]. unfold export_order, sort_newest_first. fold present.
    destruct (sortable_present _ Hsort) as [-> ->].
    rewrite Hi. cbn [elems].
    destruct invs as [|x [|y r]]; [reflexivity | reflexivity |].
    rewrite (omap_map sort_key issue_key).
    2:{ intros inv Hin. apply (forallb_In _ _ _ Hsort) in Hin.
        apply andb_prop in Hin as [H1 H2]. apply negb_true_iff in H1.
        now apply sort_key_issue_key. }
    cbn [obind]. now rewrite app_nil_r.
Qed.

End Filter.

Lemma sample_lower_empty : (fun s : string => s) "" = "".
Proof. reflexivity. Qed.

Lemma filteredInvoices_shows_sample :
  nullish sample_listed = false
  /\ get_opt sample_listed "invoices" = VArr sample_listed_invoices []
  /\ (forall l : list value,
        filteredInvoices sample_compare (fun s => s) "" (VStr "Paid") sample_listed = Ret l ->
        (forall inv : value,
            In inv l ->
            In inv sample_listed_invoices
            /\ (strict_eq (VStr "Paid") (VStr "All") = false ->
                strict_eq (get_opt inv "status") (VStr "Paid") = true))
        /\ StronglySorted (newer_first sample_compare) (filter present l))
  /\ filteredInvoices sample_compare (fun s => s) " " (VStr "All") sample_listed
     = Ret (export_order sample_compare sample_listed).
Proof.
  split; [reflexivity|]. split; [reflexivity|]. split.
  - exact (proj1 (filteredInvoices_shows sample_compare (fun s => s) sample_lower_empty
                    sample_compare_total sample_compare_trans
                    "" (VStr "Paid") sample_listed sample_listed_invoices []
                    eq_refl eq_refl)).
  - exact (proj2 (filteredInvoices_shows sample_compare (fun s => s) sample_lower_empty
                    sample_compare_total sample_compare_trans
                    " " (VStr "All") sample_listed sample_listed_invoices []
                    eq_refl eq_refl) [] [] eq_refl eq_refl eq_refl eq_refl).
Defined.
